(** * Bedrock-Guardrails: a shallow embedding of the guardrail scripts

    The Python sources embedded here are
    - [create_guardrail.py]: the contextual grounding checks, the policy
      catalog, the configuration validator, the KMS envelope helpers and
      [create_banking_guardrail];
    - [deploy_guardrail.py]: [GuardrailDeployer];
    - [create_guardrail_version.py]: [create_guardrail_version_from_config];
    - [kms_manager.py]: [KMSKeyManager.encrypt_data] / [decrypt_data].

    Python values are a small inductive type, dictionaries are
    insertion-ordered association lists, exceptions are an explicit
    [outcome] type, and every call to a remote service is recorded in a
    trace of events.  Text is modelled by [string] (bytes); the character
    classes of the regular expressions and [str.lower] are the ASCII ones. *)

From Stdlib Require Import String Ascii List ZArith Bool Arith Lia.
From Stdlib Require Import DecimalString DecimalZ.
Import ListNotations.
Open Scope string_scope.
Set Warnings "-register-all".

(** ** Python values *)

Module Py.

(** Floats are kept as their literal ([0.8], [1e3]): the embedding never
    computes with them. *)
Inductive value : Type :=
| VNone
| VBool (b : bool)
| VInt (z : Z)
| VFloat (lit : string)
| VStr (s : string)
| VBytes (b : string)
| VList (l : list value)
| VDict (d : list (string * value)).

Definition dict := list (string * value).

Fixpoint dict_get (k : string) (d : dict) : option value :=
  match d with
  | [] => None
  | (k', v) :: t => if String.eqb k' k then Some v else dict_get k t
  end.

(** [k in d] *)
Definition dict_has (k : string) (d : dict) : bool :=
  match dict_get k d with Some _ => true | None => false end.

(** [d.get(k, default)] *)
Definition dict_get_default (k : string) (default : value) (d : dict) : value :=
  match dict_get k d with Some v => v | None => default end.

(** [d[k] = v]: an existing key keeps its place, a new one goes last. *)
Fixpoint dict_set (k : string) (v : value) (d : dict) : dict :=
  match d with
  | [] => [(k, v)]
  | (k', v') :: t =>
      if String.eqb k' k then (k, v) :: t else (k', v') :: dict_set k v t
  end.

(** [isinstance(v, dict)] *)
Definition isinstance_dict (v : value) : bool :=
  match v with VDict _ => true | _ => false end.

(** Truthiness, as [if v:] / [not v] use it. *)
Definition truthy (v : value) : bool :=
  match v with
  | VNone => false
  | VBool b => b
  | VInt z => negb (Z.eqb z 0)
  | VFloat _ => true
  | VStr s => negb (String.eqb s "")
  | VBytes b => negb (String.eqb b "")
  | VList l => match l with [] => false | _ => true end
  | VDict d => match d with [] => false | _ => true end
  end.

(** Exceptions, by class. *)
Inductive exn : Type :=
| ValueError (msg : string)
| KeyError (key : string)
| NameError (name : string)
| AttributeError (msg : string)
| TypeError (msg : string)
| JSONDecodeError
| ClientError (code msg : string)
| OtherError (cls msg : string).

Inductive outcome (A : Type) : Type :=
| Return (a : A)
| Raise (e : exn).
Arguments Return {A} a.
Arguments Raise {A} e.

Definition is_raise {A} (o : outcome A) : bool :=
  match o with Raise _ => true | Return _ => false end.

(** [d[k]], raising [KeyError]. *)
Definition subscript (k : string) (d : dict) : outcome value :=
  match dict_get k d with Some v => Return v | None => Raise (KeyError k) end.

(** [v[k]] on a value: only mappings can be indexed by a string. *)
Definition item (v : value) (k : string) : outcome value :=
  match v with
  | VDict d => subscript k d
  | _ => Raise (TypeError "indices must be integers or slices, not str")
  end.

(** [d[k].append(x)] *)
Definition append_at (k : string) (x : value) (d : dict) : dict :=
  match dict_get k d with
  | Some (VList l) => dict_set k (VList (l ++ [x])) d
  | _ => d
  end.

(** [a == b], structurally. *)
Fixpoint value_eqb (a b : value) {struct a} : bool :=
  match a, b with
  | VNone, VNone => true
  | VBool x, VBool y => Bool.eqb x y
  | VInt x, VInt y => Z.eqb x y
  | VFloat x, VFloat y => String.eqb x y
  | VStr x, VStr y => String.eqb x y
  | VBytes x, VBytes y => String.eqb x y
  | VList xs, VList ys =>
      (fix all2 (xs ys : list value) {struct xs} : bool :=
         match xs, ys with
         | [], [] => true
         | x :: xs', y :: ys' => value_eqb x y && all2 xs' ys'
         | _, _ => false
         end) xs ys
  | VDict xs, VDict ys =>
      (fix all2 (xs ys : list (string * value)) {struct xs} : bool :=
         match xs, ys with
         | [], [] => true
         | (k, x) :: xs', (k', y) :: ys' =>
             String.eqb k k' && value_eqb x y && all2 xs' ys'
         | _, _ => false
         end) xs ys
  | _, _ => false
  end.

(** [v.get(k, default)] as a method call: [None] has no [get]. *)
Definition method_get (v : value) (k : string) (default : value)
    : outcome value :=
  match v with
  | VDict d => Return (dict_get_default k default d)
  | VNone => Raise (AttributeError "'NoneType' object has no attribute 'get'")
  | _ => Raise (AttributeError "object has no attribute 'get'")
  end.

(** [a < b] on sort keys: strings with strings, integers with integers. *)
Definition key_lt (a b : value) : outcome bool :=
  match a, b with
  | VStr x, VStr y => Return (String.ltb x y)
  | VInt x, VInt y => Return (Z.ltb x y)
  | _, _ => Raise (TypeError "'<' not supported between instances")
  end.

Fixpoint string_in (s : string) (l : list string) : bool :=
  match l with
  | [] => false
  | x :: t => String.eqb s x || string_in s t
  end.

End Py.
Import Py.

(** ** Events of a run

    Every call that leaves the process is an [EvCall]; the local
    validation step and the sleeps of the poll loop are recorded too, so
    that orderings can be stated on the trace. *)

Inductive event : Type :=
| EvCall (service operation : string) (params : dict)
| EvValidate (is_valid : bool)
| EvSleep (seconds : nat)
| EvWriteFile (path : string) (content : dict).

Definition trace := list event.

(** ** The world outside the process

    The environment variables, the clock, the UUID source and the two
    remote services.  [bedrock_get_guardrail n] answers the [n]-th
    [get_guardrail] call of a run: the remote resource changes between
    calls.  The last two fields belong to the interpreter: how many
    nested lists and mappings the [json] encoder and decoder can enter
    before the recursion limit stops them. *)

Record world : Type := {
  getenv : string -> option string;
  clock_compact : string;       (* strftime("%Y%m%d%H%M%S") *)
  clock_text : string;          (* strftime("%Y-%m-%d %H:%M:%S") *)
  clock_iso : string;           (* isoformat() *)
  uuid4 : nat -> string;
  write_file : string -> dict -> outcome unit;
  kms_describe_key : dict -> outcome dict;
  kms_encrypt : dict -> outcome dict;
  kms_decrypt : dict -> outcome dict;
  bedrock_create_guardrail : dict -> outcome dict;
  bedrock_get_guardrail : nat -> dict -> outcome dict;
  bedrock_create_guardrail_version : dict -> outcome dict;
  bedrock_update_guardrail : dict -> outcome dict;
  json_encode_room : nat;
  json_decode_room : nat
}.

(** [os.getenv(name, default)] *)
Definition getenv_default (w : world) (name default : string) : string :=
  match getenv w name with Some v => v | None => default end.

Definition is_remote (e : event) : bool :=
  match e with EvCall _ _ _ => true | _ => false end.

Definition is_validate (e : event) : bool :=
  match e with EvValidate _ => true | _ => false end.

Definition is_call_of (operation : string) (e : event) : bool :=
  match e with EvCall _ op _ => String.eqb op operation | _ => false end.

Definition count_calls (operation : string) (t : trace) : nat :=
  length (filter (is_call_of operation) t).

(** ** Regular expressions, as [re.findall] uses them

    A backtracking matcher in continuation style: alternatives are tried
    left to right and repetitions are greedy, as in Python's [re].  The
    state is the last character consumed (for [\b]) and the text left. *)

Module Re.

Inductive regex : Type :=
| Eps
| Chr (c : ascii)
| Digit                              (* \d *)
| Space                              (* \s *)
| OneOf (cs : string)                (* [...] *)
| WordBoundary                       (* \b *)
| Seq (r1 r2 : regex)
| Alt (r1 r2 : regex)
| Opt (r : regex)                    (* (?:r)? *)
| Repeat (lo hi : nat) (r : regex)   (* r{lo,hi} *)
| Plus (r : regex).                  (* r+ *)

Definition between (lo hi : nat) (c : ascii) : bool :=
  let n := nat_of_ascii c in Nat.leb lo n && Nat.leb n hi.

Definition is_digit (c : ascii) : bool := between 48 57 c.
Definition is_upper (c : ascii) : bool := between 65 90 c.
Definition is_lower (c : ascii) : bool := between 97 122 c.

(** [\s]: tab, LF, VT, FF, CR, the separators 0x1c-0x1f, and space. *)
Definition is_space (c : ascii) : bool :=
  between 9 13 c || between 28 31 c || Nat.eqb (nat_of_ascii c) 32.

(** [\w]: letters, digits and the underscore. *)
Definition is_word (c : ascii) : bool :=
  is_digit c || is_upper c || is_lower c || Nat.eqb (nat_of_ascii c) 95.

Definition lower_char (c : ascii) : ascii :=
  if is_upper c then ascii_of_nat (nat_of_ascii c + 32) else c.

(** [str.lower] *)
Fixpoint lower (s : string) : string :=
  match s with
  | EmptyString => EmptyString
  | String c s' => String (lower_char c) (lower s')
  end.

Fixpoint char_in (c : ascii) (cs : string) : bool :=
  match cs with
  | EmptyString => false
  | String x cs' => Ascii.eqb c x || char_in c cs'
  end.

(** A literal character, under [re.IGNORECASE] when [ic] is set. *)
Definition char_matches (ic : bool) (c x : ascii) : bool :=
  if ic then Ascii.eqb (lower_char c) (lower_char x) else Ascii.eqb c x.

Definition opt_word (p : option ascii) : bool :=
  match p with Some c => is_word c | None => false end.

Definition head_char (s : string) : option ascii :=
  match s with String c _ => Some c | EmptyString => None end.

(** [\b] holds between a word character and a non-word one (or an end). *)
Definition at_boundary (prev : option ascii) (s : string) : bool :=
  xorb (opt_word prev) (opt_word (head_char s)).

Definition cont := option ascii -> string -> option string.

(** [run ic r prev s k]: match [r] at the front of [s], then [k] on the
    rest; the answer is the text left after the whole match. *)
Fixpoint run (ic : bool) (r : regex) (prev : option ascii) (s : string)
    (k : cont) {struct r} : option string :=
  match r with
  | Eps => k prev s
  | Chr c =>
      match s with
      | String x s' => if char_matches ic c x then k (Some x) s' else None
      | EmptyString => None
      end
  | Digit =>
      match s with
      | String x s' => if is_digit x then k (Some x) s' else None
      | EmptyString => None
      end
  | Space =>
      match s with
      | String x s' => if is_space x then k (Some x) s' else None
      | EmptyString => None
      end
  | OneOf cs =>
      match s with
      | String x s' => if char_in x cs then k (Some x) s' else None
      | EmptyString => None
      end
  | WordBoundary => if at_boundary prev s then k prev s else None
  | Seq r1 r2 => run ic r1 prev s (fun p s' => run ic r2 p s' k)
  | Alt r1 r2 =>
      match run ic r1 prev s k with
      | Some rest => Some rest
      | None => run ic r2 prev s k
      end
  | Opt r1 =>
      match run ic r1 prev s k with
      | Some rest => Some rest
      | None => k prev s
      end
  | Repeat lo hi r1 =>
      (fix rep (lo hi : nat) (prev : option ascii) (s : string) {struct hi}
         : option string :=
         match hi with
         | O => match lo with O => k prev s | S _ => None end
         | S hi' =>
             match run ic r1 prev s (fun p s' => rep (Nat.pred lo) hi' p s') with
             | Some rest => Some rest
             | None => match lo with O => k prev s | S _ => None end
             end
         end) lo hi prev s
  | Plus r1 =>
      run ic r1 prev s (fun p s' =>
        (fix star (fuel : nat) (prev : option ascii) (s : string) {struct fuel}
           : option string :=
           match fuel with
           | O => k prev s
           | S fuel' =>
               match run ic r1 prev s (fun p' s'' =>
                       if Nat.ltb (String.length s'') (String.length s)
                       then star fuel' p' s'' else None) with
               | Some rest => Some rest
               | None => k prev s
               end
           end) (String.length s') p s')
  end.

Fixpoint last_char (prev : option ascii) (s : string) : option ascii :=
  match s with
  | EmptyString => prev
  | String c s' => last_char (Some c) s'
  end.

(** The scan of [re.findall] for a pattern without groups: the leftmost
    match at each position, then on from its end. *)
Fixpoint findall_from (ic : bool) (r : regex) (fuel : nat)
    (prev : option ascii) (s : string) : list string :=
  match fuel with
  | O => []
  | S fuel' =>
      match run ic r prev s (fun _ rest => Some rest) with
      | Some rest =>
          match String.length s - String.length rest with
          | O =>
              EmptyString ::
              match s with
              | String c s' => findall_from ic r fuel' (Some c) s'
              | EmptyString => []
              end
          | S n =>
              let matched := substring 0 (S n) s in
              matched :: findall_from ic r fuel' (last_char prev matched) rest
          end
      | None =>
          match s with
          | String c s' => findall_from ic r fuel' (Some c) s'
          | EmptyString => []
          end
      end
  end.

Definition findall (ic : bool) (r : regex) (s : string) : list string :=
  findall_from ic r (S (String.length s)) None s.

Fixpoint lit (s : string) : regex :=
  match s with
  | EmptyString => Eps
  | String c EmptyString => Chr c
  | String c s' => Seq (Chr c) (lit s')
  end.

Fixpoint seq (rs : list regex) : regex :=
  match rs with
  | [] => Eps
  | [r] => r
  | r :: rs' => Seq r (seq rs')
  end.

Fixpoint alt (rs : list regex) : regex :=
  match rs with
  | [] => Eps
  | [r] => r
  | r :: rs' => Alt r (alt rs')
  end.

End Re.

(** ** Runs: exceptions plus a trace *)

Module Run.

Definition M (A : Type) : Type := trace -> outcome A * trace.

Definition ret {A} (a : A) : M A := fun t => (Return a, t).

Definition raise {A} (e : exn) : M A := fun t => (Raise e, t).

Definition bind {A B} (m : M A) (k : A -> M B) : M B :=
  fun t =>
    match m t with
    | (Return a, t') => k a t'
    | (Raise e, t') => (Raise e, t')
    end.

(** [try: m  except Exception as e: handler e] *)
Definition try_except {A} (m : M A) (handler : exn -> M A) : M A :=
  fun t =>
    match m t with
    | (Return a, t') => (Return a, t')
    | (Raise e, t') => handler e t'
    end.

Definition emit (e : event) : M unit := fun t => (Return tt, (t ++ [e])%list).

(** A pure step that may raise. *)
Definition lift {A} (o : outcome A) : M A := fun t => (o, t).

(** A call to a remote service: recorded, then answered by the world. *)
Definition call (service operation : string) (params : dict)
    (answer : outcome dict) : M dict :=
  fun t => (answer, (t ++ [EvCall service operation params])%list).

End Run.

Declare Scope run_scope.
Delimit Scope run_scope with run.
Notation "x <- m ;; k" := (Run.bind m (fun x => k))
  (at level 61, m at next level, right associativity) : run_scope.
Notation "m ;;; k" := (Run.bind m (fun _ => k))
  (at level 61, right associativity) : run_scope.

(** ** The [json] module: [dumps(..., ensure_ascii=False)] and [loads]

    A [str] is the sequence of its UTF-8 bytes, so bytes above 0x7f pass
    through both directions unchanged.  Two limits of the interpreter are
    met by the module.  The conversion between [int] and text refuses
    more than [int_max_str_digits] digits with a ValueError (which is no
    JSONDecodeError).  A nested list or mapping is entered only while the
    recursion limit leaves room, and a RecursionError is raised
    otherwise; the room is an argument, [room] nested lists and mappings
    can be entered. *)

Module Json.

Definition dquote : ascii := "034"%char.
Definition backslash : ascii := "\"%char.

Definition code (c : ascii) : nat := nat_of_ascii c.

Definition hex_char (n : nat) : ascii :=
  if Nat.ltb n 10 then ascii_of_nat (48 + n) else ascii_of_nat (87 + n).

(** *** The limits *)

(** [sys.int_info.default_max_str_digits] *)
Definition int_max_str_digits : nat := 4300.

(** The decimal digits of an integer, the sign left out. *)
Definition int_digits (z : Z) : nat :=
  match Z.to_int z with
  | Decimal.Pos d | Decimal.Neg d => Decimal.nb_digits d
  end.

Definition oversized (z : Z) : bool := Nat.ltb int_max_str_digits (int_digits z).

(** The error of [int(text)] on a literal of [digits] digits. *)
Definition too_many_digits_to_read (digits : nat) : exn :=
  ValueError
    ("Exceeds the limit (4300 digits) for integer string conversion: value has "
       ++ NilEmpty.string_of_uint (Nat.to_uint digits)
       ++ " digits; use sys.set_int_max_str_digits() to increase the limit").

(** The error of [repr(n)]. *)
Definition too_many_digits_to_write : exn :=
  ValueError
    "Exceeds the limit (4300 digits) for integer string conversion; use sys.set_int_max_str_digits() to increase the limit".

Definition too_deep_to_encode : exn :=
  OtherError "RecursionError"
    "maximum recursion depth exceeded while encoding a JSON object".

Definition too_deep_for_array : exn :=
  OtherError "RecursionError"
    "maximum recursion depth exceeded while decoding a JSON array from a unicode string".

Definition too_deep_for_object : exn :=
  OtherError "RecursionError"
    "maximum recursion depth exceeded while decoding a JSON object from a unicode string".

(** *** dumps *)

(** [ESCAPE_DCT]: the short escapes, and [\u00xx] for the other control
    characters. *)
Definition escape_char (c : ascii) : string :=
  if Ascii.eqb c dquote then String backslash (String dquote EmptyString)
  else if Ascii.eqb c backslash then String backslash (String backslash EmptyString)
  else if Nat.eqb (code c) 8 then "\b"
  else if Nat.eqb (code c) 12 then "\f"
  else if Nat.eqb (code c) 10 then "\n"
  else if Nat.eqb (code c) 13 then "\r"
  else if Nat.eqb (code c) 9 then "\t"
  else if Nat.ltb (code c) 32
       then "\u00" ++ String (hex_char (code c / 16))
                        (String (hex_char (code c mod 16)) EmptyString)
  else String c EmptyString.

Fixpoint escape (s : string) : string :=
  match s with
  | EmptyString => EmptyString
  | String c s' => escape_char c ++ escape s'
  end.

Definition dump_string (s : string) : string :=
  String dquote (escape s ++ String dquote EmptyString).

Definition dump_int (z : Z) : string := NilZero.string_of_int (Z.to_int z).

(** The text of a value; [bytes] have none (see [serializable]). *)
Fixpoint dump (v : value) : string :=
  match v with
  | VNone => "null"
  | VBool true => "true"
  | VBool false => "false"
  | VInt z => dump_int z
  | VFloat lit => lit
  | VStr s => dump_string s
  | VBytes _ => EmptyString
  | VList l => "[" ++ String.concat ", " (map dump l) ++ "]"
  | VDict d =>
      "{" ++ String.concat ", "
               (map (fun kv => dump_string (fst kv) ++ ": " ++ dump (snd kv)) d)
          ++ "}"
  end.

Fixpoint serializable (v : value) : bool :=
  match v with
  | VBytes _ => false
  | VList l => forallb serializable l
  | VDict d => forallb (fun kv => serializable (snd kv)) d
  | _ => true
  end.

(** The first error that the encoder meets on its way through the value:
    [bytes] are refused, an integer of too many digits has no text, and
    a list or mapping is entered only while there is room. *)
Fixpoint encode_error (v : value) (room : nat) {struct v} : option exn :=
  match v with
  | VBytes _ => Some (TypeError "Object of type bytes is not JSON serializable")
  | VInt z => if oversized z then Some too_many_digits_to_write else None
  | VList l =>
      match room with
      | O => Some too_deep_to_encode
      | S room' =>
          (fix first (l : list value) : option exn :=
             match l with
             | [] => None
             | x :: l' =>
                 match encode_error x room' with
                 | Some e => Some e
                 | None => first l'
                 end
             end) l
      end
  | VDict d =>
      match room with
      | O => Some too_deep_to_encode
      | S room' =>
          (fix first (d : list (string * value)) : option exn :=
             match d with
             | [] => None
             | kv :: d' =>
                 match encode_error (snd kv) room' with
                 | Some e => Some e
                 | None => first d'
                 end
             end) d
      end
  | _ => None
  end.

(** [json.dumps(v, ensure_ascii=False)] *)
Definition dumps (room : nat) (v : value) : outcome string :=
  match encode_error v room with
  | Some e => Raise e
  | None => Return (dump v)
  end.

(** *** loads *)

Inductive result (A : Type) : Type :=
| Parsed (a : A) (rest : string)
| Malformed
| Refused (e : exn)
| OutOfFuel.
Arguments Parsed {A} a rest.
Arguments Malformed {A}.
Arguments Refused {A} e.
Arguments OutOfFuel {A}.

(** [WHITESPACE]: space, tab, LF, CR. *)
Definition is_ws (c : ascii) : bool :=
  Nat.eqb (code c) 32 || Nat.eqb (code c) 9
  || Nat.eqb (code c) 10 || Nat.eqb (code c) 13.

Fixpoint skip_ws (s : string) : string :=
  match s with
  | EmptyString => EmptyString
  | String c s' => if is_ws c then skip_ws s' else s
  end.

Definition hex_value (c : ascii) : option N :=
  let n := code c in
  if Nat.leb 48 n && Nat.leb n 57 then Some (N.of_nat (n - 48))
  else if Nat.leb 97 n && Nat.leb n 102 then Some (N.of_nat (n - 87))
  else if Nat.leb 65 n && Nat.leb n 70 then Some (N.of_nat (n - 55))
  else None.

Definition hex4 (a b c d : ascii) : option N :=
  match hex_value a, hex_value b, hex_value c, hex_value d with
  | Some x, Some y, Some z, Some t => Some (((x * 16 + y) * 16 + z) * 16 + t)%N
  | _, _, _, _ => None
  end.

Definition byte_of (n : N) : ascii := ascii_of_N n.

(** [chr(n)], as UTF-8 bytes (a lone surrogate takes the three-byte form). *)
Definition utf8 (n : N) : string :=
  (if n <? 128 then String (byte_of n) EmptyString
   else if n <? 2048 then
     String (byte_of (192 + n / 64))
       (String (byte_of (128 + n mod 64)) EmptyString)
   else if n <? 65536 then
     String (byte_of (224 + n / 4096))
       (String (byte_of (128 + (n / 64) mod 64))
          (String (byte_of (128 + n mod 64)) EmptyString))
   else
     String (byte_of (240 + n / 262144))
       (String (byte_of (128 + (n / 4096) mod 64))
          (String (byte_of (128 + (n / 64) mod 64))
             (String (byte_of (128 + n mod 64)) EmptyString))))%N.

Definition is_high_surrogate (n : N) : bool := ((55296 <=? n) && (n <=? 56319))%N.
Definition is_low_surrogate (n : N) : bool := ((56320 <=? n) && (n <=? 57343))%N.

(** [BACKSLASH]: the one-letter escapes. *)
Definition simple_escape (e : ascii) : option ascii :=
  if Ascii.eqb e dquote then Some dquote
  else if Ascii.eqb e backslash then Some backslash
  else if Ascii.eqb e "/" then Some "/"%char
  else if Ascii.eqb e "b" then Some (ascii_of_nat 8)
  else if Ascii.eqb e "f" then Some (ascii_of_nat 12)
  else if Ascii.eqb e "n" then Some (ascii_of_nat 10)
  else if Ascii.eqb e "r" then Some (ascii_of_nat 13)
  else if Ascii.eqb e "t" then Some (ascii_of_nat 9)
  else None.

Definition cons_result (pre : string) (r : option (string * string))
    : option (string * string) :=
  match r with
  | Some (str, rest) => Some (pre ++ str, rest)
  | None => None
  end.

(** [scanstring(s, end, strict=True)], from just behind the opening quote:
    the decoded text and what follows the closing quote. *)
Fixpoint scan_string (s : string) : option (string * string) :=
  match s with
  | EmptyString => None
  | String c s1 =>
      if Ascii.eqb c dquote then Some (EmptyString, s1)
      else if Ascii.eqb c backslash then
        match s1 with
        | EmptyString => None
        | String e s2 =>
            if Ascii.eqb e "u" then
              match s2 with
              | String a (String b (String x (String d s6))) =>
                  match hex4 a b x d with
                  | None => None
                  | Some uni =>
                      if is_high_surrogate uni then
                        match s6 with
                        | String bs (String u
                            (String a2 (String b2 (String x2 (String d2 s12))))) =>
                            if Ascii.eqb bs backslash && Ascii.eqb u "u" then
                              match hex4 a2 b2 x2 d2 with
                              | None => None
                              | Some uni2 =>
                                  if is_low_surrogate uni2
                                  then cons_result
                                         (utf8 (65536 + (uni - 55296) * 1024
                                                  + (uni2 - 56320))%N)
                                         (scan_string s12)
                                  else cons_result (utf8 uni) (scan_string s6)
                              end
                            else cons_result (utf8 uni) (scan_string s6)
                        | _ => cons_result (utf8 uni) (scan_string s6)
                        end
                      else cons_result (utf8 uni) (scan_string s6)
                  end
              | _ => None
              end
            else
              match simple_escape e with
              | Some x => cons_result (String x EmptyString) (scan_string s2)
              | None => None
              end
        end
      else if Nat.ltb (code c) 32 then None
      else cons_result (String c EmptyString) (scan_string s1)
  end.

Definition digit_of (c : ascii) : option (Decimal.uint -> Decimal.uint) :=
  let n := code c in
  if Nat.eqb n 48 then Some Decimal.D0 else if Nat.eqb n 49 then Some Decimal.D1
  else if Nat.eqb n 50 then Some Decimal.D2 else if Nat.eqb n 51 then Some Decimal.D3
  else if Nat.eqb n 52 then Some Decimal.D4 else if Nat.eqb n 53 then Some Decimal.D5
  else if Nat.eqb n 54 then Some Decimal.D6 else if Nat.eqb n 55 then Some Decimal.D7
  else if Nat.eqb n 56 then Some Decimal.D8 else if Nat.eqb n 57 then Some Decimal.D9
  else None.

(** The longest run of digits. *)
Fixpoint take_digits (s : string) : Decimal.uint * string :=
  match s with
  | EmptyString => (Decimal.Nil, EmptyString)
  | String c s' =>
      match digit_of c with
      | Some d => let '(ds, rest) := take_digits s' in (d ds, rest)
      | None => (Decimal.Nil, s)
      end
  end.

(** The integer part: a lone [0], or a digit from 1 to 9 and then digits. *)
Definition scan_uint (s : string) : option (Decimal.uint * string) :=
  match s with
  | EmptyString => None
  | String c s' =>
      if Ascii.eqb c "0" then Some (Decimal.D0 Decimal.Nil, s')
      else match digit_of c with
           | Some _ => Some (take_digits s)
           | None => None
           end
  end.

(** [(\.[0-9]+)?]: the text of the fraction, empty when there is none. *)
Definition scan_frac (s : string) : string * string :=
  match s with
  | String "." s' =>
      match take_digits s' with
      | (Decimal.Nil, _) => (EmptyString, s)
      | (ds, rest) => ("." ++ NilEmpty.string_of_uint ds, rest)
      end
  | _ => (EmptyString, s)
  end.

(** [([eE][-+]?[0-9]+)?] *)
Definition scan_exp (s : string) : string * string :=
  match s with
  | String e s' =>
      if Ascii.eqb e "e" || Ascii.eqb e "E" then
        let '(sign, s'') :=
          match s' with
          | String g t =>
              if Ascii.eqb g "-" || Ascii.eqb g "+"
              then (String g EmptyString, t) else (EmptyString, s')
          | EmptyString => (EmptyString, s')
          end in
        match take_digits s'' with
        | (Decimal.Nil, _) => (EmptyString, s)
        | (ds, rest) =>
            (String e (sign ++ NilEmpty.string_of_uint ds), rest)
        end
      else (EmptyString, s)
  | EmptyString => (EmptyString, s)
  end.

(** [-?]: the sign in front of a number. *)
Definition split_sign (s : string) : bool * string :=
  match s with
  | EmptyString => (false, s)
  | String c s' => if Ascii.eqb c "-" then (true, s') else (false, s)
  end.

(** [NUMBER_RE]: an integer when there is neither fraction nor exponent. *)
Definition scan_number (s : string) : option (value * string) :=
  let '(negative, s1) := split_sign s in
  match scan_uint s1 with
  | None => None
  | Some (d, s2) =>
      let '(frac, s3) := scan_frac s2 in
      let '(exp, s4) := scan_exp s3 in
      match frac, exp with
      | EmptyString, EmptyString =>
          Some (VInt (Z.of_int (if negative then Decimal.Neg d else Decimal.Pos d)), s4)
      | _, _ =>
          Some (VFloat ((if negative then "-" else "")
                          ++ NilEmpty.string_of_uint d ++ frac ++ exp), s4)
      end
  end.

Fixpoint drop (n : nat) (s : string) : string :=
  match n, s with
  | O, _ => s
  | S n', String _ s' => drop n' s'
  | S _, EmptyString => EmptyString
  end.

(** The conversion of an integer literal, with its limit. *)
Definition converted (v : value) (rest : string) : result value :=
  match v with
  | VInt z =>
      if oversized z then Refused (too_many_digits_to_read (int_digits z))
      else Parsed v rest
  | _ => Parsed v rest
  end.

(** The constants, the numbers and the three float names. *)
Definition scan_atom (s : string) : result value :=
  if String.prefix "null" s then Parsed VNone (drop 4 s)
  else if String.prefix "true" s then Parsed (VBool true) (drop 4 s)
  else if String.prefix "false" s then Parsed (VBool false) (drop 5 s)
  else
    match scan_number s with
    | Some (v, rest) => converted v rest
    | None =>
        if String.prefix "NaN" s then Parsed (VFloat "NaN") (drop 3 s)
        else if String.prefix "Infinity" s then Parsed (VFloat "Infinity") (drop 8 s)
        else if String.prefix "-Infinity" s then Parsed (VFloat "-Infinity") (drop 9 s)
        else Malformed
    end.

(** [scan_once], [JSONArray] and [JSONObject], one level each: the
    deeper levels are the parameters.  [elements] starts at an element,
    [members] just behind the opening quote of a key.  An opening bracket
    or brace is followed only when there is room. *)
Definition value_step (room : nat)
    (elements : list value -> string -> result value)
    (members : dict -> string -> result value) (s : string) : result value :=
  match s with
  | EmptyString => Malformed
  | String c s1 =>
      if Ascii.eqb c dquote then
        match scan_string s1 with
        | Some (str, rest) => Parsed (VStr str) rest
        | None => Malformed
        end
      else if Ascii.eqb c "{" then
        match room with
        | O => Refused too_deep_for_object
        | S _ =>
            match skip_ws s1 with
            | String c2 s3 =>
                if Ascii.eqb c2 "}" then Parsed (VDict []) s3
                else if Ascii.eqb c2 dquote then members [] s3
                else Malformed
            | EmptyString => Malformed
            end
        end
      else if Ascii.eqb c "[" then
        match room with
        | O => Refused too_deep_for_array
        | S _ =>
            match skip_ws s1 with
            | String c2 s3 =>
                if Ascii.eqb c2 "]" then Parsed (VList []) s3
                else elements [] (String c2 s3)
            | EmptyString => Malformed
            end
        end
      else scan_atom s
  end.

Definition elements_step (value_at : string -> result value)
    (elements : list value -> string -> result value)
    (acc : list value) (s : string) : result value :=
  match value_at s with
  | Parsed v rest =>
      match skip_ws rest with
      | String c r =>
          if Ascii.eqb c "]" then Parsed (VList (acc ++ [v])) r
          else if Ascii.eqb c "," then elements (acc ++ [v])%list (skip_ws r)
          else Malformed
      | EmptyString => Malformed
      end
  | Malformed => Malformed
  | Refused e => Refused e
  | OutOfFuel => OutOfFuel
  end.

Definition members_step (value_at : string -> result value)
    (members : dict -> string -> result value)
    (acc : dict) (s : string) : result value :=
  match scan_string s with
  | None => Malformed
  | Some (key, rest) =>
      match skip_ws rest with
      | String c r =>
          if Ascii.eqb c ":" then
            match value_at (skip_ws r) with
            | Parsed v rest2 =>
                let acc' := dict_set key v acc in
                match skip_ws rest2 with
                | String c2 r2 =>
                    if Ascii.eqb c2 "}" then Parsed (VDict acc') r2
                    else if Ascii.eqb c2 "," then
                      match skip_ws r2 with
                      | String c3 r3 =>
                          if Ascii.eqb c3 dquote then members acc' r3
                          else Malformed
                      | EmptyString => Malformed
                      end
                    else Malformed
                | EmptyString => Malformed
                end
            | Malformed => Malformed
            | Refused e => Refused e
            | OutOfFuel => OutOfFuel
            end
          else Malformed
      | EmptyString => Malformed
      end
  end.

(** [room] is the room of the value: the elements of a list and the
    members of a mapping have the room that is left inside it. *)
Fixpoint parse_value (fuel room : nat) (s : string) {struct fuel}
    : result value :=
  match fuel with
  | O => OutOfFuel
  | S fuel' =>
      value_step room (parse_elements fuel' (Nat.pred room))
        (parse_members fuel' (Nat.pred room)) s
  end

with parse_elements (fuel room : nat) (acc : list value) (s : string)
    {struct fuel} : result value :=
  match fuel with
  | O => OutOfFuel
  | S fuel' =>
      elements_step (parse_value fuel' room) (parse_elements fuel' room) acc s
  end

with parse_members (fuel room : nat) (acc : dict) (s : string)
    {struct fuel} : result value :=
  match fuel with
  | O => OutOfFuel
  | S fuel' =>
      members_step (parse_value fuel' room) (parse_members fuel' room) acc s
  end.

(** [JSONDecoder.decode]: one value, with nothing but whitespace around. *)
Definition decode (room : nat) (s : string) : result value :=
  match parse_value (S (2 * String.length s)) room (skip_ws s) with
  | Parsed v rest =>
      match skip_ws rest with
      | EmptyString => Parsed v EmptyString
      | String _ _ => Malformed
      end
  | Malformed => Malformed
  | Refused e => Refused e
  | OutOfFuel => OutOfFuel
  end.

(** [json.loads(s)] *)
Definition loads (room : nat) (s : string) : outcome value :=
  match decode room s with
  | Parsed v _ => Return v
  | Malformed => Raise JSONDecodeError
  | Refused e => Raise e
  | OutOfFuel => Raise (OtherError "RecursionError" "out of fuel")
  end.

End Json.

(** ** [bytes.hex] and [bytes.fromhex] *)

Module Hex.

(** [b.hex()] *)
Fixpoint hex (b : string) : string :=
  match b with
  | EmptyString => EmptyString
  | String c b' =>
      String (Json.hex_char (Json.code c / 16))
        (String (Json.hex_char (Json.code c mod 16)) (hex b'))
  end.

Definition is_ascii_space (c : ascii) : bool :=
  let n := Json.code c in
  Nat.eqb n 32 || (Nat.leb 9 n && Nat.leb n 13).

(** [bytes.fromhex(s)]: pairs of hex digits, white space between pairs
    skipped. *)
Fixpoint fromhex (s : string) : outcome string :=
  match s with
  | EmptyString => Return EmptyString
  | String c s1 =>
      if is_ascii_space c then fromhex s1
      else
        match Json.hex_value c, s1 with
        | Some hi, String d s2 =>
            match Json.hex_value d with
            | Some lo =>
                match fromhex s2 with
                | Return rest => Return (String (ascii_of_N (hi * 16 + lo)) rest)
                | Raise e => Raise e
                end
            | None => Raise (ValueError "non-hexadecimal number found in fromhex() arg")
            end
        | _, _ => Raise (ValueError "non-hexadecimal number found in fromhex() arg")
        end
  end.

End Hex.

(** ** Name lookup

    A name is found among the locals of the function, the names bound at
    module level, or the builtins; otherwise the lookup raises
    [NameError]. *)

Module Names.

Definition builtins : list string :=
  [ "abs"; "aiter"; "all"; "anext"; "any"; "ascii"; "bin"; "bool";
    "breakpoint"; "bytearray"; "bytes"; "callable"; "chr"; "classmethod";
    "compile"; "complex"; "delattr"; "dict"; "dir"; "divmod"; "enumerate";
    "eval"; "exec"; "filter"; "float"; "format"; "frozenset"; "getattr";
    "globals"; "hasattr"; "hash"; "help"; "hex"; "id"; "input"; "int";
    "isinstance"; "issubclass"; "iter"; "len"; "list"; "locals"; "map";
    "max"; "memoryview"; "min"; "next"; "object"; "oct"; "open"; "ord";
    "pow"; "print"; "property"; "range"; "repr"; "reversed"; "round";
    "set"; "setattr"; "slice"; "sorted"; "staticmethod"; "str"; "sum";
    "super"; "tuple"; "type"; "vars"; "zip"; "__import__";
    "True"; "False"; "None"; "NotImplemented"; "Ellipsis"; "__debug__";
    "BaseException"; "Exception"; "ArithmeticError"; "AssertionError";
    "AttributeError"; "EOFError"; "ImportError"; "IndexError"; "KeyError";
    "KeyboardInterrupt"; "LookupError"; "MemoryError"; "NameError";
    "NotImplementedError"; "OSError"; "OverflowError"; "RecursionError";
    "RuntimeError"; "StopIteration"; "SyntaxError"; "SystemExit";
    "TypeError"; "UnicodeDecodeError"; "UnicodeEncodeError"; "ValueError";
    "ZeroDivisionError"; "Warning" ].

Definition resolve (locals module_globals : list string) (name : string)
    : outcome unit :=
  if string_in name locals || string_in name module_globals
     || string_in name builtins
  then Return tt
  else Raise (NameError name).

(** The handler body [logger.error(...); raise]. *)
Definition log_error_and_reraise {A} (locals module_globals : list string)
    (e : exn) : Run.M A :=
  Run.bind (Run.lift (resolve locals module_globals "logger"))
           (fun _ => Run.raise e).

End Names.

(** ** kms_manager.py: class KMSKeyManager *)

Module kms_manager.

(** The names that the module binds at top level. *)
Definition module_globals : list string :=
  [ "boto3"; "json"; "logging"; "ClientError"; "Dict"; "List"; "Optional";
    "logger"; "KMSKeyManager"; "main" ].

Definition is_client_error (e : exn) : bool :=
  match e with ClientError _ _ => true | _ => false end.

(** [context or {}] *)
Definition context_or_empty (context : option dict) : dict :=
  match context with Some d => d | None => [] end.

(** [blob.hex()] *)
Definition bytes_hex (blob : value) : outcome value :=
  match blob with
  | VBytes b => Return (VStr (Hex.hex b))
  | _ => Raise (AttributeError "object has no attribute 'hex'")
  end.

(** [bytes.fromhex(s)] *)
Definition bytes_fromhex (s : value) : outcome value :=
  match s with
  | VStr h =>
      match Hex.fromhex h with
      | Return b => Return (VBytes b)
      | Raise e => Raise e
      end
  | _ => Raise (TypeError "fromhex() argument must be str")
  end.

(** [b.decode('utf-8')] *)
Definition bytes_decode (b : value) : outcome value :=
  match b with
  | VBytes s => Return (VStr s)
  | _ => Raise (AttributeError "object has no attribute 'decode'")
  end.

Definition encrypt_params (key_id plaintext : string) (context : option dict)
    : dict :=
  [ ("KeyId", VStr key_id);
    ("Plaintext", VBytes plaintext);
    ("EncryptionContext", VDict (context_or_empty context)) ].

Definition encrypt_data (w : world) (key_id plaintext : string)
    (context : option dict) : Run.M dict :=
  Run.try_except
    (let params := encrypt_params key_id plaintext context in
     response <- Run.call "kms" "encrypt" params (kms_encrypt w params) ;;
     blob <- Run.lift (subscript "CiphertextBlob" response) ;;
     blob_hex <- Run.lift (bytes_hex blob) ;;
     key <- Run.lift (subscript "KeyId" response) ;;
     Run.ret [ ("CiphertextBlob", blob_hex);
               ("KeyId", key);
               ("EncryptionAlgorithm",
                dict_get_default "EncryptionAlgorithm"
                  (VStr "SYMMETRIC_DEFAULT") response) ])%run
    (fun e =>
       if is_client_error e
       then Names.log_error_and_reraise
              ["self"; "key_id"; "plaintext"; "context"; "response"; "e"]
              module_globals e
       else Run.raise e).

Definition decrypt_params (blob : value) (context : option dict) : dict :=
  [ ("CiphertextBlob", blob);
    ("EncryptionContext", VDict (context_or_empty context)) ].

Definition decrypt_data (w : world) (ciphertext_blob : value)
    (context : option dict) : Run.M dict :=
  Run.try_except
    (blob <- Run.lift (bytes_fromhex ciphertext_blob) ;;
     let params := decrypt_params blob context in
     response <- Run.call "kms" "decrypt" params (kms_decrypt w params) ;;
     plaintext <- Run.lift (subscript "Plaintext" response) ;;
     text <- Run.lift (bytes_decode plaintext) ;;
     key <- Run.lift (subscript "KeyId" response) ;;
     Run.ret [ ("Plaintext", text);
               ("KeyId", key);
               ("EncryptionAlgorithm",
                dict_get_default "EncryptionAlgorithm"
                  (VStr "SYMMETRIC_DEFAULT") response) ])%run
    (fun e =>
       if is_client_error e
       then Names.log_error_and_reraise
              ["self"; "ciphertext_blob"; "context"; "response"; "e"]
              module_globals e
       else Run.raise e).

End kms_manager.

(** ** create_guardrail.py *)

Module create_guardrail.

(** *** class ContextualGroundingCheck *)

Module ContextualGroundingCheck.

(** [r'\b\d+(?:\.\d+)?%?\b'] *)
Definition number_pattern : Re.regex :=
  Re.seq [ Re.WordBoundary;
           Re.Plus Re.Digit;
           Re.Opt (Re.Seq (Re.Chr ".") (Re.Plus Re.Digit));
           Re.Opt (Re.Chr "%");
           Re.WordBoundary ].

Definition month_names : Re.regex :=
  Re.alt [ Re.Seq (Re.lit "Jan") (Re.Opt (Re.lit "uary"));
           Re.Seq (Re.lit "Feb") (Re.Opt (Re.lit "ruary"));
           Re.Seq (Re.lit "Mar") (Re.Opt (Re.lit "ch"));
           Re.Seq (Re.lit "Apr") (Re.Opt (Re.lit "il"));
           Re.lit "May";
           Re.Seq (Re.lit "Jun") (Re.Opt (Re.lit "e"));
           Re.Seq (Re.lit "Jul") (Re.Opt (Re.lit "y"));
           Re.Seq (Re.lit "Aug") (Re.Opt (Re.lit "ust"));
           Re.Seq (Re.lit "Sep") (Re.Opt (Re.lit "tember"));
           Re.Seq (Re.lit "Oct") (Re.Opt (Re.lit "ober"));
           Re.Seq (Re.lit "Nov") (Re.Opt (Re.lit "ember"));
           Re.Seq (Re.lit "Dec") (Re.Opt (Re.lit "ember")) ].

(** [\b(?:Jan(?:uary)?|...|Dec(?:ember)?)\s+\d{1,2}(?:st|nd|rd|th)?,?\s+\d{4}\b]
    [|\b\d{1,2}[/-]\d{1,2}[/-]\d{2,4}\b] *)
Definition date_pattern : Re.regex :=
  Re.Alt
    (Re.seq [ Re.WordBoundary;
              month_names;
              Re.Plus Re.Space;
              Re.Repeat 1 2 Re.Digit;
              Re.Opt (Re.alt [Re.lit "st"; Re.lit "nd"; Re.lit "rd"; Re.lit "th"]);
              Re.Opt (Re.Chr ",");
              Re.Plus Re.Space;
              Re.Repeat 4 4 Re.Digit;
              Re.WordBoundary ])
    (Re.seq [ Re.WordBoundary;
              Re.Repeat 1 2 Re.Digit;
              Re.OneOf "/-";
              Re.Repeat 1 2 Re.Digit;
              Re.OneOf "/-";
              Re.Repeat 2 4 Re.Digit;
              Re.WordBoundary ]).

(** [a.issubset(b)] on sets of strings. *)
Definition issubset (a b : list string) : bool :=
  forallb (fun x => string_in x b) a.

(** [bool(a)] for a set. *)
Definition nonempty (a : list string) : bool :=
  match a with [] => false | _ :: _ => true end.

(** [sub in s] on strings. *)
Fixpoint contains (sub s : string) : bool :=
  String.prefix sub s ||
  match s with
  | EmptyString => false
  | String _ s' => contains sub s'
  end.

Definition financial_terms : list string :=
  ["interest rate"; "APR"; "APY"; "fee"; "penalty"; "balance";
   "withdrawal"; "deposit"].

(** The [for term in financial_terms] loop: the first term found in
    [response.lower()] and not in [context.lower()]. *)
Fixpoint introduced_term (terms : list string) (response context : string)
    : option string :=
  match terms with
  | [] => None
  | term :: rest =>
      if contains term (Re.lower response)
         && negb (contains term (Re.lower context))
      then Some term
      else introduced_term rest response context
  end.

Definition check_factual_consistency (response context : string)
    : bool * string :=
  let numbers_in_response := Re.findall false number_pattern response in
  let numbers_in_context := Re.findall false number_pattern context in
  if nonempty numbers_in_response
     && negb (issubset numbers_in_response numbers_in_context)
  then (false, "Response contains numbers not present in context")
  else
    match introduced_term financial_terms response context with
    | Some term =>
        (false, "Response introduces financial term '" ++ term
                  ++ "' not in context")
    | None => (true, "")
    end.

Definition check_temporal_consistency (response context : string)
    : bool * string :=
  let response_dates := Re.findall true date_pattern response in
  let context_dates := Re.findall true date_pattern context in
  if nonempty response_dates
     && negb (issubset response_dates context_dates)
  then (false, "Response introduces dates not present in context")
  else (true, "").

End ContextualGroundingCheck.

(** *** class BankingGuardrailManager

    The instance: its attributes and the policy getters, which
    [create_banking_guardrail] reaches through [self]. *)

Record manager : Type := {
  region : string;
  base_guardrail_name : string;
  encryption_context : dict;
  _get_content_policy_config : value;
  _get_topic_policy_config : value;
  _get_word_policy_config : value;
  _get_sensitive_info_policy_config : value;
  _get_contextual_grounding_policy_config : value;
  _get_automated_reasoning_policy_config : value
}.

Module Catalog.

Definition topic (name definition : string) (examples : list string) : value :=
  VDict [ ("name", VStr name);
          ("definition", VStr definition);
          ("type", VStr "DENY");
          ("examples", VList (map VStr examples));
          ("inputAction", VStr "BLOCK");
          ("outputAction", VStr "BLOCK");
          ("inputEnabled", VBool true);
          ("outputEnabled", VBool true) ].

Definition topic_policy_config : value :=
  VDict [ ("topicsConfig", VList [
    topic "Financial Fraud"
          "Discussions about fraudulent activities or scams"
          ["how to commit fraud"; "bypass security measures"; "scam techniques"];
    topic "Personal Information"
          "Requests for personal or sensitive information"
          ["what is my SSN"; "tell me my account balance"; "change my password"];
    topic "Financial Advice"
          "Providing financial or investment advice"
          ["should I invest in"; "is this a good stock"; "financial planning advice"];
    topic "Harmful Content"
          "Content that promotes harm or illegal activities"
          ["how to launder money"; "illegal transactions"; "bypass KYC"];
    topic "Sensitive Operations"
          "High-risk banking operations that require additional verification"
          ["wire transfer"; "change account details"; "update contact information"]
  ]) ].

Definition pii_entity (type : string) : value :=
  VDict [ ("type", VStr type);
          ("action", VStr "BLOCK");
          ("inputAction", VStr "BLOCK");
          ("outputAction", VStr "BLOCK");
          ("inputEnabled", VBool true);
          ("outputEnabled", VBool true) ].

Definition regex_entry (name pattern description : string) : value :=
  VDict [ ("name", VStr name);
          ("pattern", VStr pattern);
          ("action", VStr "BLOCK");
          ("description", VStr description) ].

Definition sensitive_info_policy_config : value :=
  VDict [ ("piiEntitiesConfig", VList [
            pii_entity "US_SOCIAL_SECURITY_NUMBER";
            pii_entity "CREDIT_DEBIT_CARD_NUMBER";
            pii_entity "US_BANK_ACCOUNT_NUMBER";
            pii_entity "US_BANK_ROUTING_NUMBER";
            pii_entity "US_INDIVIDUAL_TAX_IDENTIFICATION_NUMBER" ]);
          ("regexesConfig", VList [
            regex_entry "Credit Card Number" "\b(?:\d[ -]*?){13,16}\b"
                        "Detects credit card numbers";
            regex_entry "SSN" "\b\d{3}[-\.]?\d{2}[-\.]?\d{4}\b"
                        "Detects Social Security Numbers";
            regex_entry "Bank Account Number" "\b\d{8,17}\b"
                        "Detects potential bank account numbers" ]) ].

Definition contextual_grounding_policy_config : value :=
  VDict [ ("filtersConfig", VList [
    VDict [ ("type", VStr "GROUNDING"); ("enabled", VBool true);
            ("action", VStr "BLOCK"); ("threshold", VFloat "0.8") ];
    VDict [ ("type", VStr "RELEVANCE"); ("enabled", VBool true);
            ("action", VStr "BLOCK"); ("threshold", VFloat "0.7") ] ]) ].

Definition content_filter (type inputStrength outputStrength : string)
    (inputEnabled outputEnabled : bool) (inputAction outputAction : string)
    : value :=
  VDict [ ("type", VStr type);
          ("inputStrength", VStr inputStrength);
          ("outputStrength", VStr outputStrength);
          ("inputEnabled", VBool inputEnabled);
          ("outputEnabled", VBool outputEnabled);
          ("inputAction", VStr inputAction);
          ("outputAction", VStr outputAction) ].

Definition content_policy_config : value :=
  VDict [ ("filtersConfig", VList [
    content_filter "HATE" "HIGH" "HIGH" true true "BLOCK" "BLOCK";
    content_filter "INSULTS" "HIGH" "HIGH" true true "BLOCK" "BLOCK";
    (* outputStrength: Must be NONE for PROMPT_ATTACK *)
    content_filter "PROMPT_ATTACK" "HIGH" "NONE" true false "BLOCK" "NONE";
    content_filter "SEXUAL" "HIGH" "HIGH" true true "BLOCK" "BLOCK";
    content_filter "VIOLENCE" "HIGH" "HIGH" true true "BLOCK" "BLOCK" ]) ].

Definition sensitive_terms : list string :=
  [ "password"; "passcode"; "security code"; "one-time password"; "MFA code";
    "wire transfer"; "SWIFT code"; "IBAN"; "account balance"; "overdraft";
    "account holder"; "signature"; "government ID"; "driver's license";
    "passport number"; "credit card number"; "CVV"; "expiration date";
    "social security number"; "SSN"; "routing number"; "account number";
    "PIN"; "personal identification number" ].

Definition word_policy_config : value :=
  VDict [ ("wordsConfig", VList (map (fun term =>
    VDict [ ("text", VStr term);
            ("inputAction", VStr "BLOCK");
            ("outputAction", VStr "BLOCK");
            ("inputEnabled", VBool true);
            ("outputEnabled", VBool true) ]) sensitive_terms)) ].

End Catalog.

(** [BankingGuardrailManager(region)] *)
Definition BankingGuardrailManager (w : world) (region : string) : manager :=
  {| region := getenv_default w "AWS_DEFAULT_REGION" region;
     base_guardrail_name := "BankingVoiceBotGuardrail";
     encryption_context :=
       [ ("service", VStr "bedrock-guardrails");
         ("environment", VStr (getenv_default w "ENVIRONMENT" "development")) ];
     _get_content_policy_config := Catalog.content_policy_config;
     _get_topic_policy_config := Catalog.topic_policy_config;
     _get_word_policy_config := Catalog.word_policy_config;
     _get_sensitive_info_policy_config := Catalog.sensitive_info_policy_config;
     _get_contextual_grounding_policy_config :=
       Catalog.contextual_grounding_policy_config;
     _get_automated_reasoning_policy_config := VNone |}.

Definition check_grounding (response context : string) : dict :=
  let results :=
    [ ("is_grounded", VBool true); ("checks", VList []); ("warnings", VList []) ] in
  let '(fact_consistent, fact_reason) :=
    ContextualGroundingCheck.check_factual_consistency response context in
  let results :=
    if negb fact_consistent then
      append_at "warnings"
        (VStr ("Factual inconsistency detected: " ++ fact_reason))
        (append_at "checks"
           (VDict [ ("check", VStr "factual_consistency");
                    ("passed", VBool false);
                    ("reason", VStr fact_reason) ])
           (dict_set "is_grounded" (VBool false) results))
    else
      append_at "checks"
        (VDict [ ("check", VStr "factual_consistency"); ("passed", VBool true) ])
        results in
  let '(temp_consistent, temp_reason) :=
    ContextualGroundingCheck.check_temporal_consistency response context in
  if negb temp_consistent then
    append_at "warnings"
      (VStr ("Temporal inconsistency detected: " ++ temp_reason))
      (append_at "checks"
         (VDict [ ("check", VStr "temporal_consistency");
                  ("passed", VBool false);
                  ("reason", VStr temp_reason) ])
         (dict_set "is_grounded" (VBool false) results))
  else
    append_at "checks"
      (VDict [ ("check", VStr "temporal_consistency"); ("passed", VBool true) ])
      results.

(** *** The KMS envelope helpers

    [data] is a [str], a [dict] or a [list], as the signature says. *)

Inductive payload : Type :=
| Text (s : string)
| Mapping (d : dict)
| Sequence (l : list value).

Definition payload_value (p : payload) : value :=
  match p with
  | Text s => VStr s
  | Mapping d => VDict d
  | Sequence l => VList l
  end.

(** The names that create_guardrail.py binds at top level. *)
Definition module_globals : list string :=
  [ "boto3"; "os"; "time"; "uuid"; "json"; "re"; "datetime"; "timezone";
    "Dict"; "List"; "Optional"; "Tuple"; "Any"; "Union"; "Config";
    "load_dotenv"; "KMSKeyManager"; "ContextualGroundingCheck";
    "BankingGuardrailManager"; "main" ].

(** The text that is encrypted: JSON for a dict or a list, [str(data)]
    otherwise. *)
Definition data_text (w : world) (data : payload) : outcome string :=
  match data with
  | Mapping d => Json.dumps (json_encode_room w) (VDict d)
  | Sequence l => Json.dumps (json_encode_room w) (VList l)
  | Text s => Return s
  end.

Definition _encrypt_sensitive_data (self : manager) (w : world)
    (data : payload) : Run.M dict :=
  Run.try_except
    (data_str <- Run.lift (data_text w data) ;;
     encrypted <- kms_manager.encrypt_data w
                    (getenv_default w "KMS_KEY_ALIAS" "alias/bedrock-guardrail-key")
                    data_str (Some (encryption_context self)) ;;
     blob <- Run.lift (subscript "CiphertextBlob" encrypted) ;;
     key_id <- Run.lift (subscript "KeyId" encrypted) ;;
     algorithm <- Run.lift (subscript "EncryptionAlgorithm" encrypted) ;;
     Run.ret [ ("encrypted", VBool true);
               ("data", blob);
               ("key_id", key_id);
               ("algorithm", algorithm) ])%run
    (fun e =>
       Names.log_error_and_reraise
         ["self"; "data"; "data_str"; "encrypted"; "e"] module_globals e).

(** [json.loads(x)] on a value. *)
Definition json_loads (w : world) (x : value) : outcome value :=
  match x with
  | VStr s => Json.loads (json_decode_room w) s
  | _ => Raise (TypeError "the JSON object must be str, bytes or bytearray")
  end.

Definition is_json_decode_error (e : exn) : bool :=
  match e with JSONDecodeError => true | _ => false end.

(** The inner [try]: the parsed text, or the text itself when it is not
    JSON. *)
Definition parse_or_raw (w : world) (decrypted : dict) : outcome value :=
  match subscript "Plaintext" decrypted with
  | Raise e => Raise e
  | Return plaintext =>
      match json_loads w plaintext with
      | Return v => Return v
      | Raise e =>
          if is_json_decode_error e then subscript "Plaintext" decrypted
          else Raise e
      end
  end.

Definition _decrypt_data (self : manager) (w : world) (encrypted_data : dict)
    : Run.M value :=
  Run.try_except
    (blob <- Run.lift (subscript "data" encrypted_data) ;;
     decrypted <- kms_manager.decrypt_data w blob
                    (Some (encryption_context self)) ;;
     Run.lift (parse_or_raw w decrypted))%run
    (fun e =>
       Names.log_error_and_reraise
         ["self"; "encrypted_data"; "decrypted"; "e"] module_globals e).

(** *** The configuration validator *)

Definition required_fields : list string :=
  [ "name"; "description"; "blockedInputMessaging";
    "blockedOutputsMessaging"; "contentPolicyConfig";
    "wordPolicyConfig"; "topicPolicyConfig" ].

Definition _validate_guardrail_config (config : dict) : bool * string :=
  let missing_fields :=
    filter (fun field => negb (dict_has field config)) required_fields in
  match missing_fields with
  | _ :: _ =>
      (false, "Missing required fields: " ++ String.concat ", " missing_fields)
  | [] =>
      let content_policy := dict_get_default "contentPolicyConfig" (VDict []) config in
      if negb (isinstance_dict content_policy)
      then (false, "contentPolicyConfig must be a dictionary")
      else
        let word_policy := dict_get_default "wordPolicyConfig" (VDict []) config in
        if negb (isinstance_dict word_policy)
        then (false, "wordPolicyConfig must be a dictionary")
        else
          let topic_policy := dict_get_default "topicPolicyConfig" (VDict []) config in
          if negb (isinstance_dict topic_policy)
          then (false, "topicPolicyConfig must be a dictionary")
          else (true, "")
  end.

(** *** create_banking_guardrail

    Console output is left out; exception messages keep their first
    line.  The result is the guardrail id, or [None]. *)

Definition kms_verified_config (w : world) (kms_key_id : string)
    (guardrail_config : dict) : Run.M dict :=
  Run.try_except
    (key_info <- Run.call "kms" "describe_key" [("KeyId", VStr kms_key_id)]
                   (kms_describe_key w [("KeyId", VStr kms_key_id)]) ;;
     key_metadata <- Run.lift (subscript "KeyMetadata" key_info) ;;
     key_arn <- Run.lift (item key_metadata "Arn") ;;
     key_metadata' <- Run.lift (subscript "KeyMetadata" key_info) ;;
     key_state <- Run.lift (item key_metadata' "KeyState") ;;
     match key_state with
     | VStr "Enabled" =>
         Run.ret (dict_set "kmsKeyId" (VStr kms_key_id) guardrail_config)
     | _ =>
         Run.raise (ValueError ("KMS key " ++ kms_key_id
                                  ++ " is not in 'Enabled' state"))
     end)%run
    (fun e => Run.raise (ValueError ("Error accessing KMS key " ++ kms_key_id))).

Definition submit_config (self : manager) (w : world) (guardrail_name : string)
    (guardrail_config : dict) : Run.M (option value) :=
  Run.try_except
    (response <- Run.call "bedrock" "create_guardrail" guardrail_config
                   (bedrock_create_guardrail w guardrail_config) ;;
     match dict_get "guardrailId" response with
     | Some guardrail_id =>
         let details :=
           [ ("guardrail_id", guardrail_id);
             ("name", VStr guardrail_name);
             ("region", VStr (region self));
             ("created_at", VStr (clock_iso w));
             ("arn", dict_get_default "guardrailArn" VNone response) ] in
         Run.emit (EvWriteFile "guardrail_details.json" details) ;;;
         Run.lift (write_file w "guardrail_details.json" details) ;;;
         Run.ret (Some guardrail_id)
     | None => Run.ret None
     end)%run
    (fun e => Run.ret None).

(** The configuration that [create_banking_guardrail] assembles before it
    turns to the KMS key. *)
Definition assemble_config (self : manager) (guardrail_name : string) : dict :=
  let content_policy := _get_content_policy_config self in
  let topic_policy := _get_topic_policy_config self in
  let word_policy := _get_word_policy_config self in
  let sensitive_info_policy := _get_sensitive_info_policy_config self in
  let contextual_grounding_policy :=
    _get_contextual_grounding_policy_config self in
  let automated_reasoning_policy :=
    _get_automated_reasoning_policy_config self in
  let guardrail_config : dict :=
    [ ("name", VStr guardrail_name);
      ("description",
       VStr "Comprehensive guardrail for banking voice bot with enhanced security and compliance");
      ("blockedInputMessaging",
       VStr "I'm sorry, but I can't process that request. For security reasons, certain actions require additional verification.");
      ("blockedOutputsMessaging",
       VStr "I'm sorry, but I can't provide that information through this channel. Please contact customer service for assistance.");
      ("contentPolicyConfig", content_policy);
      ("topicPolicyConfig", topic_policy);
      ("wordPolicyConfig", word_policy);
      ("sensitiveInformationPolicyConfig", sensitive_info_policy);
      ("contextualGroundingPolicyConfig", contextual_grounding_policy);
      ("tags", VList [
         VDict [("key", VStr "environment"); ("value", VStr "production")];
         VDict [("key", VStr "department"); ("value", VStr "customer_service")];
         VDict [("key", VStr "compliance"); ("value", VStr "pci-dss")];
         VDict [("key", VStr "managed_by"); ("value", VStr "security_team")] ]) ] in
  match automated_reasoning_policy with
  | VNone => guardrail_config
  | policy => dict_set "automatedReasoningPolicyConfig" policy guardrail_config
  end.

Definition create_banking_guardrail (self : manager) (w : world)
    (guardrail_name : option string) : Run.M (option value) :=
  let guardrail_name :=
    match guardrail_name with
    | Some (String c s) => String c s
    | _ => base_guardrail_name self ++ "-" ++ clock_compact w
    end in
  Run.try_except
    (let guardrail_config := assemble_config self guardrail_name in
     match getenv w "KMS_KEY_ID" with
     | Some (String c s) =>
         let kms_key_id := String c s in
         guardrail_config <- kms_verified_config w kms_key_id guardrail_config ;;
         let '(is_valid, error_msg) := _validate_guardrail_config guardrail_config in
         Run.emit (EvValidate is_valid) ;;;
         if negb is_valid
         then Run.raise (ValueError ("Invalid guardrail configuration: " ++ error_msg))
         else submit_config self w guardrail_name guardrail_config
     | _ =>
         Run.raise (ValueError "KMS key is required for guardrail creation.")
     end)%run
    (fun e => (* _handle_error(e) *) Run.ret None).

End create_guardrail.

(** ** deploy_guardrail.py: class GuardrailDeployer *)

Module deploy_guardrail.

(** [self.client.get_guardrail(guardrailIdentifier=guardrail_id)]: the
    answer depends on how many [get_guardrail] calls came before. *)
Definition client_get_guardrail (w : world) (guardrail_id : string) : Run.M dict :=
  fun t =>
    let params := [("guardrailIdentifier", VStr guardrail_id)] in
    Run.call "bedrock" "get_guardrail" params
      (bedrock_get_guardrail w (count_calls "get_guardrail" t) params) t.

Definition get_guardrail_status (w : world) (guardrail_id : string)
    (detailed : bool) : Run.M value :=
  Run.try_except
    (response <- client_get_guardrail w guardrail_id ;;
     if negb detailed
     then Run.ret (dict_get_default "status" (VStr "UNKNOWN") response)
     else Run.ret (VDict response))%run
    (fun e => Run.ret VNone).

(** The request of [GuardrailDeployer.create_guardrail_version]. *)
Definition create_version_params (w : world) (guardrail_id : string) : dict :=
  [ ("guardrailIdentifier", VStr guardrail_id);
    ("description", VStr ("Version created via script on " ++ clock_text w)) ].

Definition create_guardrail_version (w : world) (guardrail_id : string)
    : Run.M value :=
  Run.try_except
    (let params := create_version_params w guardrail_id in
     response <- Run.call "bedrock" "create_guardrail_version" params
                   (bedrock_create_guardrail_version w params) ;;
     let version_id := dict_get_default "version" VNone response in
     if truthy version_id then Run.ret version_id else Run.ret VNone)%run
    (fun e => Run.ret VNone).

(** [sorted(versions, key=lambda v: v.get('createdAt', ''), reverse=True)]
    as a stable insertion: a version goes behind those whose key is not
    smaller than its own. *)
Fixpoint insert_desc (key : value) (v : value) (sorted : list (value * value))
    : outcome (list (value * value)) :=
  match sorted with
  | [] => Return [(key, v)]
  | (key', v') :: rest =>
      match key_lt key' key with
      | Raise e => Raise e
      | Return true => Return ((key, v) :: (key', v') :: rest)
      | Return false =>
          match insert_desc key v rest with
          | Raise e => Raise e
          | Return rest' => Return ((key', v') :: rest')
          end
      end
  end.

Fixpoint sort_desc (versions : list value) (acc : list (value * value))
    : outcome (list (value * value)) :=
  match versions with
  | [] => Return acc
  | v :: rest =>
      match method_get v "createdAt" (VStr "") with
      | Raise e => Raise e
      | Return key =>
          match insert_desc key v acc with
          | Raise e => Raise e
          | Return acc' => sort_desc rest acc'
          end
      end
  end.

Definition latest_version (versions : list value) : outcome value :=
  match sort_desc versions [] with
  | Raise e => Raise e
  | Return [] => Raise (OtherError "IndexError" "list index out of range")
  | Return ((_, v) :: _) => method_get v "version" VNone
  end.

(** The request that [deploy_guardrail] passes to [update_guardrail]. *)
Definition activation_config (w : world) (guardrail_id : string)
    (guardrail_info : dict) : outcome dict :=
  match subscript "name" guardrail_info with
  | Raise e => Raise e
  | Return name =>
      let guardrail_config : dict :=
        [ ("guardrailIdentifier", VStr guardrail_id);
          ("name", name);
          ("description", VStr ("Activated via script on " ++ clock_text w));
          ("blockedInputMessaging",
           dict_get_default "blockedInputMessaging"
             (VStr "Request blocked by guardrail") guardrail_info);
          ("blockedOutputsMessaging",
           dict_get_default "blockedOutputsMessaging"
             (VStr "Response blocked by guardrail") guardrail_info);
          ("topicPolicyConfig",
           VDict [ ("topicsConfig", VList [
             VDict [ ("name", VStr "DefaultTopic");
                     ("definition", VStr "General purpose topic for testing");
                     ("type", VStr "DENY");
                     ("inputAction", VStr "BLOCK");
                     ("outputAction", VStr "BLOCK");
                     ("inputEnabled", VBool true);
                     ("outputEnabled", VBool true) ] ]) ]);
          ("contentPolicyConfig",
           VDict [ ("filtersConfig", VList [
             VDict [ ("type", VStr "HATE");
                     ("inputStrength", VStr "LOW");
                     ("outputStrength", VStr "LOW");
                     ("inputAction", VStr "BLOCK");
                     ("outputAction", VStr "BLOCK");
                     ("inputEnabled", VBool true);
                     ("outputEnabled", VBool true) ] ]) ]);
          ("contextualGroundingPolicyConfig",
           VDict [ ("filtersConfig", VList [
             VDict [ ("type", VStr "RELEVANCE");
                     ("threshold", VFloat "0.7");
                     ("action", VStr "BLOCK");
                     ("enabled", VBool true) ] ]) ]) ] in
      (* Remove None values *)
      Return (filter (fun kv => negb (value_eqb (snd kv) VNone)) guardrail_config)
  end.

(** The [for attempt in range(max_attempts)] loop with its fall-through
    return. *)
Fixpoint wait_for_activation (w : world) (guardrail_id : string)
    (attempts : nat) : Run.M bool :=
  match attempts with
  | O => Run.ret false
  | S attempts' =>
      (status_info <- get_guardrail_status w guardrail_id true ;;
       status <- Run.lift (method_get status_info "status" VNone) ;;
       if value_eqb status (VStr "ACTIVE") then Run.ret true
       else if value_eqb status (VStr "FAILED")
               || value_eqb status (VStr "ERROR") then Run.ret false
       else if value_eqb status (VStr "READY") then Run.ret true
       else Run.emit (EvSleep 5) ;;;
            wait_for_activation w guardrail_id attempts')%run
  end.

Definition max_attempts : nat := 10.

(** [None] when the caller gave no version and none could be made. *)
Definition choose_version (w : world) (guardrail_id : string)
    (version_id : value) (guardrail_info : dict) : Run.M (option value) :=
  if negb (truthy version_id) then
    let versions := dict_get_default "versions" (VList []) guardrail_info in
    if negb (truthy versions) then
      (version_id <- create_guardrail_version w guardrail_id ;;
       if negb (truthy version_id) then Run.ret None
       else Run.ret (Some version_id))%run
    else
      match versions with
      | VList l =>
          (version_id <- Run.lift (latest_version l) ;;
           Run.ret (Some version_id))%run
      | _ => Run.raise (TypeError "object is not iterable")
      end
  else Run.ret (Some version_id).

Definition deploy_guardrail (w : world) (guardrail_id : string)
    (version_id : value) : Run.M bool :=
  Run.try_except
    (guardrail_info <- client_get_guardrail w guardrail_id ;;
     chosen <- choose_version w guardrail_id version_id guardrail_info ;;
     match chosen with
     | None => Run.ret false
     | Some version_id =>
         guardrail_config <- Run.lift
           (activation_config w guardrail_id guardrail_info) ;;
         response <- Run.call "bedrock" "update_guardrail" guardrail_config
                       (bedrock_update_guardrail w guardrail_config) ;;
         wait_for_activation w guardrail_id max_attempts
     end)%run
    (fun e => Run.ret false).

End deploy_guardrail.

(** ** create_guardrail_version.py *)

Module create_guardrail_version.

Definition client_get_guardrail := deploy_guardrail.client_get_guardrail.

(** The request of the [create_guardrail_version] call: a token drawn from
    [uuid.uuid4()], and the description when one was given. *)
Definition version_params (token : string) (guardrail_id : string)
    (version_description : option string) : dict :=
  let params :=
    [ ("guardrailIdentifier", VStr guardrail_id);
      ("clientRequestToken", VStr token) ] in
  match version_description with
  | Some (String c s) => dict_set "description" (VStr (String c s)) params
  | _ => params
  end.

Definition optional_fields : list string :=
  [ "description"; "kmsKeyId"; "contentPolicyConfig";
    "sensitiveInformationPolicyConfig"; "wordPolicyConfig" ].

(** The [for field in optional_fields] loop. *)
Fixpoint copy_optional (fields : list string) (current_config update_params : dict)
    : dict :=
  match fields with
  | [] => update_params
  | field :: rest =>
      match dict_get field current_config with
      | Some v => copy_optional rest current_config (dict_set field v update_params)
      | None => copy_optional rest current_config update_params
      end
  end.

(** The request that activation passes to [update_guardrail]. *)
Definition update_params (guardrail_id : string) (guardrail_name version_id : value)
    (current_config : dict) : dict :=
  let update_params :=
    [ ("guardrailIdentifier", VStr guardrail_id);
      ("name", guardrail_name);
      ("version", version_id);
      ("blockedInputMessaging",
       dict_get_default "blockedInputMessaging"
         (VStr "I can't help with that request.") current_config);
      ("blockedOutputsMessaging",
       dict_get_default "blockedOutputsMessaging"
         (VStr "I can't provide that information.") current_config) ] in
  copy_optional optional_fields current_config update_params.

(** The inner two [try] blocks: the status the function reports. *)
Definition activate_version (w : world) (guardrail_id : string)
    (guardrail_name version_id : value) : Run.M value :=
  Run.try_except
    (current_config <- client_get_guardrail w guardrail_id ;;
     Run.try_except
       (let params := update_params guardrail_id guardrail_name version_id
                        current_config in
        update_response <- Run.call "bedrock" "update_guardrail" params
                             (bedrock_update_guardrail w params) ;;
        guardrail <- client_get_guardrail w guardrail_id ;;
        if value_eqb (dict_get_default "status" VNone guardrail) (VStr "ACTIVE")
           && value_eqb (dict_get_default "version" VNone guardrail) version_id
        then Run.ret (VStr "ACTIVE")
        else Run.ret (dict_get_default "status" (VStr "UNKNOWN") guardrail))
       (fun e => Run.ret (VStr "DRAFT")))%run
    (fun e => Run.ret (VStr "DRAFT")).

Definition create_guardrail_version_from_config (w : world)
    (guardrail_id : string) (version_description : option string)
    : Run.M (option dict) :=
  Run.try_except
    (guardrail <- client_get_guardrail w guardrail_id ;;
     let guardrail_name := dict_get_default "name" (VStr guardrail_id) guardrail in
     token <- (fun t => Run.ret
                 (uuid4 w (count_calls "create_guardrail_version" t)) t) ;;
     let params := version_params token guardrail_id version_description in
     version_response <- Run.call "bedrock" "create_guardrail_version" params
                           (bedrock_create_guardrail_version w params) ;;
     version_id <- Run.lift (subscript "version" version_response) ;;
     status <- activate_version w guardrail_id guardrail_name version_id ;;
     Run.ret (Some [ ("guardrail_id", VStr guardrail_id);
                     ("version_id", version_id);
                     ("status", status) ]))%run
    (fun e => Run.ret None).

End create_guardrail_version.

(** ** deploy_guardrail.py: the command line entry point *)

Module deploy_guardrail_main.
Import deploy_guardrail.

(** [main()] once the arguments are parsed: [guardrail_id] is
    [args.guardrail_id], [version] is [args.version] ([None] when the
    option is absent). *)
Definition main (w : world) (guardrail_id : string) (version : value)
    : Run.M unit :=
  Run.try_except
    (status <- get_guardrail_status w guardrail_id false ;;
     if negb (truthy status) then Run.ret tt
     else if value_eqb status (VStr "ACTIVE") then Run.ret tt
     else (success <- deploy_guardrail w guardrail_id version ;;
           Run.ret tt))%run
    (fun e => Run.ret tt).

End deploy_guardrail_main.

(** * Properties

    First the vocabulary of the statements and the fixtures of the
    examples, then the lemmas. *)

(** ** Vocabulary: the validator *)

Module ValidatorSpec.
Import create_guardrail.

(** A required top-level field is absent. *)
Definition missing_required (config : dict) : Prop :=
  exists field, In field required_fields /\ dict_has field config = false.

(** A content filter of type PROMPT_ATTACK whose output direction is
    disabled while its output strength is not NONE. *)
Definition violates_prompt_attack_rule (content_filter : value) : bool :=
  match content_filter with
  | VDict f =>
      value_eqb (dict_get_default "type" VNone f) (VStr "PROMPT_ATTACK")
      && value_eqb (dict_get_default "outputEnabled" VNone f) (VBool false)
      && negb (value_eqb (dict_get_default "outputStrength" VNone f) (VStr "NONE"))
  | _ => false
  end.

Definition prompt_attack_violation (config : dict) : bool :=
  match dict_get "contentPolicyConfig" config with
  | Some (VDict content_policy) =>
      match dict_get "filtersConfig" content_policy with
      | Some (VList filters) => existsb violates_prompt_attack_rule filters
      | _ => false
      end
  | _ => false
  end.

(** One of the three policy groups is present but is not a mapping. *)
Definition group_not_mapping (config : dict) : Prop :=
  exists group v,
    In group ["contentPolicyConfig"; "wordPolicyConfig"; "topicPolicyConfig"]
    /\ dict_get group config = Some v /\ isinstance_dict v = false.

(** The validator as the specification describes it. *)
Definition invalid_iff_missing_or_prompt_attack (config : dict) : Prop :=
  fst (_validate_guardrail_config config) = false
  <-> (missing_required config \/ prompt_attack_violation config = true).

End ValidatorSpec.

(** ** Fixtures *)

Module Fixtures.
Import create_guardrail.

(** A world in which nothing is configured and every remote call is
    refused.  The interpreter leaves the [json] module room for 990 nested
    lists and mappings. *)
Definition offline : world :=
  {| getenv := fun _ => None;
     clock_compact := "20240115093000";
     clock_text := "2024-01-15 09:30:00";
     clock_iso := "2024-01-15T09:30:00";
     uuid4 := fun _ => "0b9f6c2e-5d1a-4c3b-9e7f-2a1d4c6b8e90";
     write_file := fun _ _ => Return tt;
     kms_describe_key := fun _ => Raise (ClientError "NotFoundException" "no key");
     kms_encrypt := fun _ => Raise (ClientError "NotFoundException" "no key");
     kms_decrypt := fun _ => Raise (ClientError "InvalidCiphertextException" "");
     bedrock_create_guardrail :=
       fun _ => Raise (ClientError "ServiceUnavailable" "offline");
     bedrock_get_guardrail :=
       fun _ _ => Raise (ClientError "ResourceNotFoundException" "offline");
     bedrock_create_guardrail_version :=
       fun _ => Raise (ClientError "ServiceUnavailable" "offline");
     bedrock_update_guardrail :=
       fun _ => Raise (ClientError "ServiceUnavailable" "offline");
     json_encode_room := 990;
     json_decode_room := 990 |}.

Definition key_arn : string :=
  "arn:aws:kms:us-east-1:111122223333:key/1234abcd-12ab-34cd-56ef-1234567890ab".

(** A world with an enabled KMS key and a Bedrock service that accepts
    every configuration. *)
Definition with_key : world :=
  {| getenv := fun name =>
       if String.eqb name "KMS_KEY_ID" then Some key_arn else None;
     clock_compact := clock_compact offline;
     clock_text := clock_text offline;
     clock_iso := clock_iso offline;
     uuid4 := uuid4 offline;
     write_file := write_file offline;
     kms_describe_key := fun _ =>
       Return [ ("KeyMetadata",
                 VDict [ ("Arn", VStr key_arn); ("KeyState", VStr "Enabled") ]) ];
     kms_encrypt := kms_encrypt offline;
     kms_decrypt := kms_decrypt offline;
     bedrock_create_guardrail := fun _ =>
       Return [ ("guardrailId", VStr "gr-0001");
                ("guardrailArn", VStr "arn:aws:bedrock:us-east-1:111122223333:guardrail/gr-0001") ];
     bedrock_get_guardrail := bedrock_get_guardrail offline;
     bedrock_create_guardrail_version := bedrock_create_guardrail_version offline;
     bedrock_update_guardrail := bedrock_update_guardrail offline;
     json_encode_room := json_encode_room offline;
     json_decode_room := json_decode_room offline |}.

Definition banking_manager : manager := BankingGuardrailManager with_key "us-east-1".

(** The banking manager with the PROMPT_ATTACK filter asking for a HIGH
    output strength although its output direction is disabled. *)
Definition prompt_attack_manager : manager :=
  {| region := region banking_manager;
     base_guardrail_name := base_guardrail_name banking_manager;
     encryption_context := encryption_context banking_manager;
     _get_content_policy_config :=
       VDict [ ("filtersConfig", VList [
         Catalog.content_filter "HATE" "HIGH" "HIGH" true true "BLOCK" "BLOCK";
         Catalog.content_filter "PROMPT_ATTACK" "HIGH" "HIGH" true false "BLOCK" "NONE" ]) ];
     _get_topic_policy_config := Catalog.topic_policy_config;
     _get_word_policy_config := Catalog.word_policy_config;
     _get_sensitive_info_policy_config := Catalog.sensitive_info_policy_config;
     _get_contextual_grounding_policy_config :=
       Catalog.contextual_grounding_policy_config;
     _get_automated_reasoning_policy_config := VNone |}.

Definition prompt_attack_config : dict :=
  dict_set "kmsKeyId" (VStr key_arn)
    (assemble_config prompt_attack_manager "BankingVoiceBotGuardrail-test").

(** A manager whose content policy getter yields a list, not a mapping. *)
Definition misshapen_manager : manager :=
  {| region := region banking_manager;
     base_guardrail_name := base_guardrail_name banking_manager;
     encryption_context := encryption_context banking_manager;
     _get_content_policy_config := VList [];
     _get_topic_policy_config := Catalog.topic_policy_config;
     _get_word_policy_config := Catalog.word_policy_config;
     _get_sensitive_info_policy_config := Catalog.sensitive_info_policy_config;
     _get_contextual_grounding_policy_config :=
       Catalog.contextual_grounding_policy_config;
     _get_automated_reasoning_policy_config := VNone |}.

End Fixtures.

(** ** Vocabulary: the order of events in a run *)

Module OrderSpec.

(** No call to a remote service comes before the validation step. *)
Definition no_remote_call_before_validation (t : trace) : Prop :=
  forall pre is_valid post,
    t = (pre ++ EvValidate is_valid :: post)%list ->
    forallb (fun e => negb (is_remote e)) pre = true.

Definition describe_key_call (kms_key_id : string) : event :=
  EvCall "kms" "describe_key" [("KeyId", VStr kms_key_id)].

Definition create_guardrail_call (config : dict) : event :=
  EvCall "bedrock" "create_guardrail" config.

(** The traces that [create_banking_guardrail] can leave. *)
Inductive creation_trace : trace -> Prop :=
| no_key : creation_trace []
| key_refused kms_key_id : creation_trace [describe_key_call kms_key_id]
| config_rejected kms_key_id :
    creation_trace [describe_key_call kms_key_id; EvValidate false]
| config_submitted kms_key_id config rest :
    fst (create_guardrail._validate_guardrail_config config) = true ->
    rest = [] \/ (exists details, rest = [EvWriteFile "guardrail_details.json" details]) ->
    creation_trace (describe_key_call kms_key_id :: EvValidate true
                      :: create_guardrail_call config :: rest).

End OrderSpec.

(** ** Vocabulary: the grounding checks *)

Module GroundingSpec.
Import create_guardrail ContextualGroundingCheck.

Definition numbers (text : string) : list string :=
  Re.findall false number_pattern text.

Definition dates (text : string) : list string :=
  Re.findall true date_pattern text.

(** Every numeric token and every date token extracted from the response
    is also extracted from the context. *)
Definition tokens_grounded (response context : string) : Prop :=
  (forall x, In x (numbers response) -> In x (numbers context))
  /\ (forall x, In x (dates response) -> In x (dates context)).

(** No listed term occurs in the lower-cased response without occurring in
    the lower-cased context. *)
Definition terms_grounded (response context : string) : Prop :=
  forall term, In term financial_terms ->
    contains term (Re.lower response) = true ->
    contains term (Re.lower context) = true.

Definition both_checks_pass (response context : string) : Prop :=
  fst (check_factual_consistency response context) = true
  /\ fst (check_temporal_consistency response context) = true.

Definition grounded (response context : string) : Prop :=
  dict_get "is_grounded" (check_grounding response context) = Some (VBool true).

End GroundingSpec.

(** ** Vocabulary: the poll loop *)

Module PollSpec.

Definition get_params (guardrail_id : string) : dict :=
  [("guardrailIdentifier", VStr guardrail_id)].

(** What the remote service answers to the [n]-th [get_guardrail] call. *)
Definition reply (w : world) (guardrail_id : string) (n : nat) : outcome dict :=
  bedrock_get_guardrail w n (get_params guardrail_id).

(** The status the loop reads from an answer; none when the call failed. *)
Definition status_of (answer : outcome dict) : option value :=
  match answer with
  | Return info => Some (dict_get_default "status" VNone info)
  | Raise _ => None
  end.

Definition successful (status : value) : bool :=
  value_eqb status (VStr "ACTIVE") || value_eqb status (VStr "READY").

Definition terminal (status : value) : bool :=
  successful status
  || value_eqb status (VStr "FAILED") || value_eqb status (VStr "ERROR").

Definition in_progress (answer : outcome dict) : bool :=
  match status_of answer with
  | Some status => negb (terminal status)
  | None => false
  end.

Definition get_calls (t : trace) : nat := count_calls "get_guardrail" t.

(** The polls made between two points of a run. *)
Definition polls (before after : trace) : nat := get_calls after - get_calls before.

Definition get_event (guardrail_id : string) : event :=
  EvCall "bedrock" "get_guardrail" (get_params guardrail_id).

(** What one poll decides: [Some r] ends the loop with [r]. *)
Definition verdict (answer : outcome dict) : option (outcome bool) :=
  match answer with
  | Raise _ =>
      Some (Raise (AttributeError "'NoneType' object has no attribute 'get'"))
  | Return info =>
      let status := dict_get_default "status" VNone info in
      if terminal status then Some (Return (successful status)) else None
  end.

(** Every one of the first [n] polls after [t] sees a non-terminal status. *)
Definition never_settles (w : world) (guardrail_id : string) (t : trace)
    (n : nat) : Prop :=
  forall i, i < n -> in_progress (reply w guardrail_id (get_calls t + i)) = true.


End PollSpec.

Module RemoteFixtures.
Import create_guardrail.

(** A guardrail as [get_guardrail] describes it, carrying the banking
    policies. *)
Definition remote_guardrail (status : string) : dict :=
  [ ("guardrailId", VStr "gr-0001");
    ("name", VStr "BankingVoiceBotGuardrail-20240115093000");
    ("description", VStr "Comprehensive guardrail for banking voice bot with enhanced security and compliance");
    ("status", VStr status);
    ("blockedInputMessaging", VStr "I'm sorry, but I can't process that request.");
    ("blockedOutputsMessaging", VStr "I'm sorry, but I can't provide that information.");
    ("contentPolicyConfig", Catalog.content_policy_config);
    ("topicPolicyConfig", Catalog.topic_policy_config);
    ("wordPolicyConfig", Catalog.word_policy_config);
    ("sensitiveInformationPolicyConfig", Catalog.sensitive_info_policy_config);
    ("contextualGroundingPolicyConfig", Catalog.contextual_grounding_policy_config);
    ("kmsKeyId", VStr Fixtures.key_arn) ].

(** A Bedrock service that holds the guardrail above and reports the
    status [status_at n] to the [n]-th [get_guardrail] call. *)
Definition serving (status_at : nat -> string) : world :=
  {| getenv := getenv Fixtures.offline;
     clock_compact := clock_compact Fixtures.offline;
     clock_text := clock_text Fixtures.offline;
     clock_iso := clock_iso Fixtures.offline;
     uuid4 := uuid4 Fixtures.offline;
     write_file := write_file Fixtures.offline;
     kms_describe_key := kms_describe_key Fixtures.offline;
     kms_encrypt := kms_encrypt Fixtures.offline;
     kms_decrypt := kms_decrypt Fixtures.offline;
     bedrock_create_guardrail := bedrock_create_guardrail Fixtures.offline;
     bedrock_get_guardrail := fun n _ => Return (remote_guardrail (status_at n));
     bedrock_create_guardrail_version := fun _ => Return [("version", VStr "1")];
     bedrock_update_guardrail := fun _ => Return [("guardrailId", VStr "gr-0001")];
     json_encode_room := json_encode_room Fixtures.offline;
     json_decode_room := json_decode_room Fixtures.offline |}.

(** The statuses of a list, then CREATING for ever. *)
Definition scripted (statuses : list string) : world :=
  serving (fun n => nth n statuses "CREATING").

Definition always_creating : world := serving (fun _ => "CREATING").


(** ACTIVE from the first poll on. *)
Definition activating : world :=
  serving (fun n => match n with O => "CREATING" | S _ => "ACTIVE" end).

End RemoteFixtures.

(** ** Vocabulary: requests to the remote policy service *)

Module RequestSpec.

(** The request carries the field exactly as the remote resource has it
    (absent when the resource has none). *)
Definition carried_forward (field : string) (remote request : dict) : Prop :=
  dict_get field request = dict_get field remote.

Definition has_request_token (request : dict) : bool :=
  dict_has "clientRequestToken" request.

Definition create_version_call (request : dict) : event :=
  EvCall "bedrock" "create_guardrail_version" request.

End RequestSpec.

(** ** Vocabulary: the KMS envelope *)

Module EnvelopeSpec.
Import create_guardrail.

Definition key_alias (w : world) : string :=
  getenv_default w "KMS_KEY_ALIAS" "alias/bedrock-guardrail-key".

(** The key service encrypts [text] under [context] into [blob] and
    decrypts [blob] under the same context into [text]. *)
Definition key_service_seals (w : world) (context : dict) (text blob : string)
    : Prop :=
  exists encrypted decrypted,
    kms_encrypt w (kms_manager.encrypt_params (key_alias w) text (Some context))
    = Return encrypted
    /\ dict_get "CiphertextBlob" encrypted = Some (VBytes blob)
    /\ dict_has "KeyId" encrypted = true
    /\ kms_decrypt w (kms_manager.decrypt_params (VBytes blob) (Some context))
       = Return decrypted
    /\ dict_get "Plaintext" decrypted = Some (VBytes text)
    /\ dict_has "KeyId" decrypted = true.

(** The key service refuses to decrypt [blob] under [context]. *)
Definition key_service_refuses (w : world) (context : dict) (blob : string)
    : Prop :=
  exists e,
    kms_decrypt w (kms_manager.decrypt_params (VBytes blob) (Some context))
    = Raise e.

Fixpoint distinct (keys : list string) : bool :=
  match keys with
  | [] => true
  | k :: rest => negb (string_in k rest) && distinct rest
  end.

(** Values that JSON text represents exactly: no bytes, no floats, and
    mappings without repeated keys. *)
Fixpoint json_native (v : value) : bool :=
  match v with
  | VBytes _ | VFloat _ => false
  | VList l => forallb json_native l
  | VDict d =>
      distinct (map fst d) && forallb (fun kv => json_native (snd kv)) d
  | _ => true
  end.

(** The value is within the limits of the [json] module: no integer of
    more than [Json.int_max_str_digits] digits, and no more than [room]
    lists and mappings inside one another. *)
Fixpoint fits (v : value) (room : nat) {struct v} : bool :=
  match v with
  | VInt z => negb (Json.oversized z)
  | VList l =>
      match room with
      | O => false
      | S room' => forallb (fun x => fits x room') l
      end
  | VDict d =>
      match room with
      | O => false
      | S room' => forallb (fun kv => fits (snd kv) room') d
      end
  | _ => true
  end.

(** What opening gives for a decrypted text: the parsed value; the text
    itself when it is not JSON; and the NameError of the handler when the
    parser stops for another reason (an integer of too many digits, or
    nesting beyond the recursion limit). *)
Definition opened (w : world) (text : string) : outcome value :=
  match Json.loads (json_decode_room w) text with
  | Return v => Return v
  | Raise JSONDecodeError => Return (VStr text)
  | Raise _ => Raise (NameError "logger")
  end.


Definition structured (data : payload) : bool :=
  match data with
  | Text _ => false
  | Mapping _ | Sequence _ => true
  end.


End EnvelopeSpec.

Module EnvelopeFixtures.
Import create_guardrail.

Definition seal_tag (context : value) : string := Json.dump context ++ "|".

Fixpoint strip_prefix (p s : string) : option string :=
  match p, s with
  | EmptyString, _ => Some s
  | String a p', String b s' =>
      if Ascii.eqb a b then strip_prefix p' s' else None
  | String _ _, EmptyString => None
  end.

(** A stand-in key service: the blob is the text behind a tag made from
    the encryption context, and decryption is refused when the tag of the
    given context is not in front of the blob. *)
Definition vault : world :=
  {| getenv := getenv Fixtures.with_key;
     clock_compact := clock_compact Fixtures.offline;
     clock_text := clock_text Fixtures.offline;
     clock_iso := clock_iso Fixtures.offline;
     uuid4 := uuid4 Fixtures.offline;
     write_file := write_file Fixtures.offline;
     kms_describe_key := kms_describe_key Fixtures.with_key;
     kms_encrypt := fun params =>
       match dict_get "Plaintext" params, dict_get "EncryptionContext" params with
       | Some (VBytes text), Some context =>
           Return [ ("CiphertextBlob", VBytes (seal_tag context ++ text));
                    ("KeyId", VStr Fixtures.key_arn);
                    ("EncryptionAlgorithm", VStr "SYMMETRIC_DEFAULT") ]
       | _, _ => Raise (ClientError "ValidationException" "bad request")
       end;
     kms_decrypt := fun params =>
       match dict_get "CiphertextBlob" params, dict_get "EncryptionContext" params with
       | Some (VBytes blob), Some context =>
           match strip_prefix (seal_tag context) blob with
           | Some text =>
               Return [ ("Plaintext", VBytes text);
                        ("KeyId", VStr Fixtures.key_arn);
                        ("EncryptionAlgorithm", VStr "SYMMETRIC_DEFAULT") ]
           | None => Raise (ClientError "InvalidCiphertextException" "")
           end
       | _, _ => Raise (ClientError "ValidationException" "bad request")
       end;
     bedrock_create_guardrail := bedrock_create_guardrail Fixtures.offline;
     bedrock_get_guardrail := bedrock_get_guardrail Fixtures.offline;
     bedrock_create_guardrail_version :=
       bedrock_create_guardrail_version Fixtures.offline;
     bedrock_update_guardrail := bedrock_update_guardrail Fixtures.offline;
     json_encode_room := json_encode_room Fixtures.with_key;
     json_decode_room := json_decode_room Fixtures.with_key |}.

Definition development : manager := BankingGuardrailManager vault "us-east-1".

(** The same manager in another environment: another encryption context. *)
Definition production : manager :=
  {| region := region development;
     base_guardrail_name := base_guardrail_name development;
     encryption_context :=
       [ ("service", VStr "bedrock-guardrails"); ("environment", VStr "production") ];
     _get_content_policy_config := _get_content_policy_config development;
     _get_topic_policy_config := _get_topic_policy_config development;
     _get_word_policy_config := _get_word_policy_config development;
     _get_sensitive_info_policy_config :=
       _get_sensitive_info_policy_config development;
     _get_contextual_grounding_policy_config :=
       _get_contextual_grounding_policy_config development;
     _get_automated_reasoning_policy_config := VNone |}.

Definition audit_snapshot : payload :=
  Mapping [ ("guardrail_id", VStr "gr-0001");
            ("version", VInt 3);
            ("tags", VList [VStr "pci-dss"; VNone; VBool true]) ].

Definition audit_text : string := Json.dump (payload_value audit_snapshot).

Definition audit_blob : string :=
  seal_tag (VDict (encryption_context development)) ++ audit_text.

End EnvelopeFixtures.

(** ** Vocabulary: the JSON model *)

Module JsonSpec.
Import Json EnvelopeSpec.

(** A parser that hands back no more than it was given. *)
Definition shrinks (parse : string -> result value) : Prop :=
  forall s v rest, parse s = Parsed v rest -> String.length rest <= String.length s.

(** The result with less fuel is the result with more, unless the fuel ran
    out. *)
Definition at_most (r r' : result value) : Prop := r = OutOfFuel \/ r = r'.


Section value_induction.
Variable P : value -> Prop.
Hypothesis HNone : P VNone.
Hypothesis HBool : forall b, P (VBool b).
Hypothesis HInt : forall z, P (VInt z).
Hypothesis HFloat : forall lit, P (VFloat lit).
Hypothesis HStr : forall s, P (VStr s).
Hypothesis HBytes : forall b, P (VBytes b).
Hypothesis HList : forall l, Forall P l -> P (VList l).
Hypothesis HDict : forall d, Forall (fun kv => P (snd kv)) d -> P (VDict d).

Fixpoint value_ind_nested (v : value) : P v :=
  match v with
  | VNone => HNone
  | VBool b => HBool b
  | VInt z => HInt z
  | VFloat lit => HFloat lit
  | VStr s => HStr s
  | VBytes b => HBytes b
  | VList l =>
      HList l ((fix all (l : list value) : Forall P l :=
                  match l with
                  | [] => Forall_nil _
                  | x :: t => Forall_cons x (value_ind_nested x) (all t)
                  end) l)
  | VDict d =>
      HDict d ((fix all (d : list (string * value))
                  : Forall (fun kv => P (snd kv)) d :=
                  match d with
                  | [] => Forall_nil _
                  | kv :: t =>
                      Forall_cons kv (value_ind_nested (snd kv)) (all t)
                  end) d)
  end.

End value_induction.

(** What may follow a value inside a document: the end of the text, a
    comma or a closing bracket. *)
Definition closes (rest : string) : bool :=
  match rest with
  | EmptyString => true
  | String c _ => Ascii.eqb c "," || Ascii.eqb c "]" || Ascii.eqb c "}"
  end.

(** The fuel that parsing the text of a value takes at most. *)
Fixpoint cost (v : value) : nat :=
  match v with
  | VList l => S (fold_right (fun x n => S (Nat.max (cost x) n)) 0 l)
  | VDict d => S (fold_right (fun kv n => S (Nat.max (cost (snd kv)) n)) 0 d)
  | _ => 1
  end.

(** The text behind an element of a sequence. *)
Fixpoint elements_tail (l : list value) (rest : string) : string :=
  match l with
  | [] => String "]" rest
  | y :: l' => ", " ++ dump y ++ elements_tail l' rest
  end.

Definition member_text (k : string) (v : value) (tail : string) : string :=
  escape k ++ String dquote (": " ++ dump v ++ tail).

(** The text behind a member of a mapping. *)
Fixpoint members_tail (d : dict) (rest : string) : string :=
  match d with
  | [] => String "}" rest
  | kv :: d' =>
      ", " ++ String dquote
                (member_text (fst kv) (snd kv) (members_tail d' rest))
  end.

Definition elements_cost (l : list value) : nat :=
  fold_right (fun x n => S (Nat.max (cost x) n)) 0 l.

Definition members_cost (d : dict) : nat :=
  fold_right (fun kv n => S (Nat.max (cost (snd kv)) n)) 0 d.

Definition member_dump (kv : string * value) : string :=
  dump_string (fst kv) ++ ": " ++ dump (snd kv).


(** What the induction gives for a value: its text parses back, whatever
    follows it. *)
Definition reads_back (v : value) : Prop :=
  json_native v = true ->
  forall room fuel rest,
    fits v room = true ->
    closes rest = true -> cost v <= fuel ->
    parse_value fuel room (dump v ++ rest) = Parsed v rest.

End JsonSpec.

(** ** Vocabulary: the verdict of check_grounding *)

Module VerdictSpec.

(** The entry that [check_grounding] appends for one check. *)
Definition check_entry (name : string) (passed : bool) (reason : string)
    : value :=
  if passed
  then VDict [ ("check", VStr name); ("passed", VBool true) ]
  else VDict [ ("check", VStr name); ("passed", VBool false);
               ("reason", VStr reason) ].

(** The warning that goes with a failed check. *)
Definition warning_of (label : string) (passed : bool) (reason : string)
    : list value :=
  if passed then [] else [VStr (label ++ " inconsistency detected: " ++ reason)].

End VerdictSpec.

(** ** Vocabulary: the creation run *)

Module CreationSpec.
Import create_guardrail.

(** The name under which the guardrail is created: the one given, or the
    base name with the time stamp. *)
Definition effective_name (self : manager) (w : world)
    (guardrail_name : option string) : string :=
  match guardrail_name with
  | Some (String c s) => String c s
  | _ => base_guardrail_name self ++ "-" ++ clock_compact w
  end.

(** The KMS key can be described, has an ARN and is in state Enabled. *)
Definition key_usable (w : world) (kms_key_id : string) : bool :=
  match kms_describe_key w [("KeyId", VStr kms_key_id)] with
  | Return key_info =>
      match dict_get "KeyMetadata" key_info with
      | Some (VDict metadata) =>
          dict_has "Arn" metadata
          && value_eqb (dict_get_default "KeyState" VNone metadata) (VStr "Enabled")
      | _ => false
      end
  | Raise _ => false
  end.

(** The configuration that goes to [create_guardrail]. *)
Definition submitted_config (self : manager) (w : world)
    (guardrail_name : option string) (kms_key_id : string) : dict :=
  dict_set "kmsKeyId" (VStr kms_key_id)
    (assemble_config self (effective_name self w guardrail_name)).

(** The record written to guardrail_details.json. *)
Definition details_record (self : manager) (w : world)
    (guardrail_name : option string) (guardrail_id : value) (response : dict)
    : dict :=
  [ ("guardrail_id", guardrail_id);
    ("name", VStr (effective_name self w guardrail_name));
    ("region", VStr (region self));
    ("created_at", VStr (clock_iso w));
    ("arn", dict_get_default "guardrailArn" VNone response) ].

(** The three policy groups that the getters return are mappings. *)
Definition groups_are_mappings (self : manager) : bool :=
  isinstance_dict (_get_content_policy_config self)
  && isinstance_dict (_get_word_policy_config self)
  && isinstance_dict (_get_topic_policy_config self).

End CreationSpec.

Module CreationFixtures.

(** The key exists but is disabled. *)
Definition with_disabled_key : world :=
  {| getenv := getenv Fixtures.with_key;
     clock_compact := clock_compact Fixtures.with_key;
     clock_text := clock_text Fixtures.with_key;
     clock_iso := clock_iso Fixtures.with_key;
     uuid4 := uuid4 Fixtures.with_key;
     write_file := write_file Fixtures.with_key;
     kms_describe_key := fun _ =>
       Return [ ("KeyMetadata",
                 VDict [ ("Arn", VStr Fixtures.key_arn);
                         ("KeyState", VStr "Disabled") ]) ];
     kms_encrypt := kms_encrypt Fixtures.with_key;
     kms_decrypt := kms_decrypt Fixtures.with_key;
     bedrock_create_guardrail := bedrock_create_guardrail Fixtures.with_key;
     bedrock_get_guardrail := bedrock_get_guardrail Fixtures.with_key;
     bedrock_create_guardrail_version :=
       bedrock_create_guardrail_version Fixtures.with_key;
     bedrock_update_guardrail := bedrock_update_guardrail Fixtures.with_key;
     json_encode_room := json_encode_room Fixtures.with_key;
     json_decode_room := json_decode_room Fixtures.with_key |}.

(** As [with_key], on a disk that cannot be written. *)
Definition read_only_disk : world :=
  {| getenv := getenv Fixtures.with_key;
     clock_compact := clock_compact Fixtures.with_key;
     clock_text := clock_text Fixtures.with_key;
     clock_iso := clock_iso Fixtures.with_key;
     uuid4 := uuid4 Fixtures.with_key;
     write_file := fun _ _ => Raise (OtherError "PermissionError" "read-only file system");
     kms_describe_key := kms_describe_key Fixtures.with_key;
     kms_encrypt := kms_encrypt Fixtures.with_key;
     kms_decrypt := kms_decrypt Fixtures.with_key;
     bedrock_create_guardrail := bedrock_create_guardrail Fixtures.with_key;
     bedrock_get_guardrail := bedrock_get_guardrail Fixtures.with_key;
     bedrock_create_guardrail_version :=
       bedrock_create_guardrail_version Fixtures.with_key;
     bedrock_update_guardrail := bedrock_update_guardrail Fixtures.with_key;
     json_encode_room := json_encode_room Fixtures.with_key;
     json_decode_room := json_decode_room Fixtures.with_key |}.

(** An enabled key, but a policy service out of reach. *)
Definition bedrock_down : world :=
  {| getenv := getenv Fixtures.with_key;
     clock_compact := clock_compact Fixtures.with_key;
     clock_text := clock_text Fixtures.with_key;
     clock_iso := clock_iso Fixtures.with_key;
     uuid4 := uuid4 Fixtures.with_key;
     write_file := write_file Fixtures.with_key;
     kms_describe_key := kms_describe_key Fixtures.with_key;
     kms_encrypt := kms_encrypt Fixtures.with_key;
     kms_decrypt := kms_decrypt Fixtures.with_key;
     bedrock_create_guardrail := bedrock_create_guardrail Fixtures.offline;
     bedrock_get_guardrail := bedrock_get_guardrail Fixtures.offline;
     bedrock_create_guardrail_version :=
       bedrock_create_guardrail_version Fixtures.offline;
     bedrock_update_guardrail := bedrock_update_guardrail Fixtures.offline;
     json_encode_room := json_encode_room Fixtures.with_key;
     json_decode_room := json_decode_room Fixtures.with_key |}.

End CreationFixtures.

(** ** Vocabulary: deployment runs *)

Module DeploySpec.
Import deploy_guardrail PollSpec.

Definition update_event (config : dict) : event :=
  EvCall "bedrock" "update_guardrail" config.

Definition version_calls (t : trace) : nat :=
  count_calls "create_guardrail_version" t.

Definition update_calls (t : trace) : nat := count_calls "update_guardrail" t.

(** The sort key of a version entry, [v.get('createdAt', '')], when the
    entry is a mapping and the key a string. *)
Definition created_at (v : value) : option string :=
  match v with
  | VDict d =>
      match dict_get_default "createdAt" (VStr "") d with
      | VStr s => Some s
      | _ => None
      end
  | _ => None
  end.

Definition dated (v : value) : bool :=
  match created_at v with Some _ => true | None => false end.

Definition stamp (v : value) : string :=
  match created_at v with Some s => s | None => "" end.

(** The entries of the sorted list carry the key of their version. *)
Definition keyed (l : list (value * value)) : Prop :=
  Forall (fun kv => dated (snd kv) = true /\ fst kv = VStr (stamp (snd kv))) l.

(** Nothing in the list is newer than its head. *)
Definition topped (l : list (value * value)) : Prop :=
  match l with
  | [] => True
  | (_, v) :: _ =>
      forall x, In x l -> String.ltb (stamp v) (stamp (snd x)) = false
  end.

(** The three fields of the remote guardrail that the activation request
    reads. *)
Definition same_name_and_messages (a b : dict) : Prop :=
  dict_get "name" a = dict_get "name" b
  /\ dict_get "blockedInputMessaging" a = dict_get "blockedInputMessaging" b
  /\ dict_get "blockedOutputsMessaging" a = dict_get "blockedOutputsMessaging" b.

End DeploySpec.

Module DeployFixtures.

Definition version_entry (version created : string) : value :=
  VDict [ ("version", VStr version); ("createdAt", VStr created);
          ("status", VStr "DRAFT") ].

Definition three_versions : list value :=
  [ version_entry "1" "2024-01-10T08:00:00";
    version_entry "3" "2024-03-02T17:45:00";
    version_entry "2" "2024-02-20T11:30:00" ].

(** The service of [RemoteFixtures.serving], refusing every update. *)
Definition frozen (status_at : nat -> string) : world :=
  let w := RemoteFixtures.serving status_at in
  {| getenv := getenv w;
     clock_compact := clock_compact w;
     clock_text := clock_text w;
     clock_iso := clock_iso w;
     uuid4 := uuid4 w;
     write_file := write_file w;
     kms_describe_key := kms_describe_key w;
     kms_encrypt := kms_encrypt w;
     kms_decrypt := kms_decrypt w;
     bedrock_create_guardrail := bedrock_create_guardrail w;
     bedrock_get_guardrail := bedrock_get_guardrail w;
     bedrock_create_guardrail_version :=
       fun _ => Raise (ClientError "ConflictException" "guardrail is being updated");
     bedrock_update_guardrail :=
       fun _ => Raise (ClientError "ValidationException" "rejected");
     json_encode_room := json_encode_room w;
     json_decode_room := json_decode_room w |}.

(** A service whose guardrail carries no name. *)
Definition nameless : world :=
  let w := RemoteFixtures.serving (fun _ => "READY") in
  {| getenv := getenv w;
     clock_compact := clock_compact w;
     clock_text := clock_text w;
     clock_iso := clock_iso w;
     uuid4 := uuid4 w;
     write_file := write_file w;
     kms_describe_key := kms_describe_key w;
     kms_encrypt := kms_encrypt w;
     kms_decrypt := kms_decrypt w;
     bedrock_create_guardrail := bedrock_create_guardrail w;
     bedrock_get_guardrail :=
       fun _ _ => Return [ ("guardrailId", VStr "gr-0001");
                           ("status", VStr "READY") ];
     bedrock_create_guardrail_version := bedrock_create_guardrail_version w;
     bedrock_update_guardrail := bedrock_update_guardrail w;
     json_encode_room := json_encode_room w;
     json_decode_room := json_decode_room w |}.

End DeployFixtures.

(** ** Vocabulary: cutting a version *)

Module VersioningSpec.
Import create_guardrail_version.

(** The request for a new version, with the token drawn at this point of
    the run. *)
Definition version_request (w : world) (guardrail_id : string)
    (version_description : option string) (t : trace) : dict :=
  version_params (uuid4 w (count_calls "create_guardrail_version" t))
    guardrail_id version_description.

(** What create_guardrail_version_from_config returns for a version. *)
Definition report (guardrail_id : string) (version_id status : value) : dict :=
  [ ("guardrail_id", VStr guardrail_id);
    ("version_id", version_id);
    ("status", status) ].

(** The name under which the guardrail is updated. *)
Definition name_of (guardrail_id : string) (guardrail : dict) : value :=
  dict_get_default "name" (VStr guardrail_id) guardrail.

End VersioningSpec.

Module VersioningFixtures.

(** The service of [RemoteFixtures.serving], with a guardrail whose active
    version stays 1 while new versions get the number 2. *)
Definition pinned : world :=
  let w := RemoteFixtures.serving (fun _ => "ACTIVE") in
  {| getenv := getenv w;
     clock_compact := clock_compact w;
     clock_text := clock_text w;
     clock_iso := clock_iso w;
     uuid4 := uuid4 w;
     write_file := write_file w;
     kms_describe_key := kms_describe_key w;
     kms_encrypt := kms_encrypt w;
     kms_decrypt := kms_decrypt w;
     bedrock_create_guardrail := bedrock_create_guardrail w;
     bedrock_get_guardrail :=
       fun _ _ => Return (dict_set "version" (VStr "1")
                            (RemoteFixtures.remote_guardrail "ACTIVE"));
     bedrock_create_guardrail_version := fun _ => Return [("version", VStr "2")];
     bedrock_update_guardrail := bedrock_update_guardrail w;
     json_encode_room := json_encode_room w;
     json_decode_room := json_decode_room w |}.

(** A version can be created, the update is refused. *)
Definition update_refused : world :=
  let w := RemoteFixtures.serving (fun _ => "READY") in
  {| getenv := getenv w;
     clock_compact := clock_compact w;
     clock_text := clock_text w;
     clock_iso := clock_iso w;
     uuid4 := uuid4 w;
     write_file := write_file w;
     kms_describe_key := kms_describe_key w;
     kms_encrypt := kms_encrypt w;
     kms_decrypt := kms_decrypt w;
     bedrock_create_guardrail := bedrock_create_guardrail w;
     bedrock_get_guardrail := bedrock_get_guardrail w;
     bedrock_create_guardrail_version := bedrock_create_guardrail_version w;
     bedrock_update_guardrail :=
       fun _ => Raise (ClientError "ValidationException" "rejected");
     json_encode_room := json_encode_room w;
     json_decode_room := json_decode_room w |}.

End VersioningFixtures.

(** ** The configuration validator *)

Module ValidatorProofs.
Import create_guardrail ValidatorSpec.

Lemma filter_nil_forall {A} (f : A -> bool) (l : list A) :
  filter f l = [] -> forall x, In x l -> f x = false.
Proof.
  induction l as [|a l IH]; simpl; intros H x Hx; [contradiction|].
  destruct (f a) eqn:Ha; [discriminate|].
  destruct Hx as [<-|Hx]; auto.
Qed.

Lemma filter_cons_exists {A} (f : A -> bool) (l : list A) a rest :
  filter f l = a :: rest -> In a l /\ f a = true.
Proof.
  intros H. apply filter_In. rewrite H. now left.
Qed.

Lemma dict_has_get k d :
  dict_has k d = true -> exists v, dict_get k d = Some v.
Proof.
  unfold dict_has. destruct (dict_get k d) as [v|]; [eauto|discriminate].
Qed.

Lemma get_default_of_get k d v dflt :
  dict_get k d = Some v -> dict_get_default k dflt d = v.
Proof. unfold dict_get_default. now intros ->. Qed.

(** All required fields present: the verdict is decided by the shape of
    the three groups. *)
Lemma validate_when_complete config :
  (forall field, In field required_fields -> dict_has field config = true) ->
  fst (_validate_guardrail_config config) = false <-> group_not_mapping config.
Proof.
  intros Hall.
  assert (Hf : filter (fun field => negb (dict_has field config)) required_fields = []).
  { destruct (filter _ required_fields) as [|a rest] eqn:E; [reflexivity|].
    apply filter_cons_exists in E as [Hin Ha].
    rewrite (Hall a Hin) in Ha. discriminate. }
  unfold _validate_guardrail_config. rewrite Hf.
  destruct (dict_has_get "contentPolicyConfig" config) as [vc Hc];
    [apply Hall; simpl; tauto|].
  destruct (dict_has_get "wordPolicyConfig" config) as [vw Hw];
    [apply Hall; simpl; tauto|].
  destruct (dict_has_get "topicPolicyConfig" config) as [vt Ht];
    [apply Hall; simpl; tauto|].
  rewrite (get_default_of_get _ _ _ _ Hc), (get_default_of_get _ _ _ _ Hw),
    (get_default_of_get _ _ _ _ Ht).
  split.
  - intros H.
    destruct (isinstance_dict vc) eqn:Ec; simpl in H.
    + destruct (isinstance_dict vw) eqn:Ew; simpl in H.
      * destruct (isinstance_dict vt) eqn:Et; simpl in H; [discriminate|].
        exists "topicPolicyConfig", vt. simpl. tauto.
      * exists "wordPolicyConfig", vw. simpl. tauto.
    + exists "contentPolicyConfig", vc. simpl. tauto.
  - intros (g & v & Hin & Hg & Hv).
    simpl in Hin.
    destruct Hin as [<-|[<-|[<-|[]]]]; rewrite Hg in *.
    + injection Hc as <-. now rewrite Hv.
    + injection Hw as <-. rewrite Hv.
      now destruct (isinstance_dict vc).
    + injection Ht as <-. rewrite Hv.
      now destruct (isinstance_dict vc), (isinstance_dict vw).
Qed.

Lemma validate_when_missing config :
  missing_required config -> fst (_validate_guardrail_config config) = false.
Proof.
  intros (field & Hin & Hmiss).
  unfold _validate_guardrail_config.
  destruct (filter _ required_fields) as [|a rest] eqn:E; [|reflexivity].
  pose proof (filter_nil_forall _ _ E field Hin) as H.
  simpl in H. rewrite Hmiss in H. discriminate.
Qed.

Lemma complete_or_missing config :
  (forall field, In field required_fields -> dict_has field config = true)
  \/ missing_required config.
Proof.
  destruct (forallb (fun field => dict_has field config) required_fields) eqn:E.
  - left. now apply forallb_forall.
  - right.
    assert (H : existsb (fun field => negb (dict_has field config)) required_fields = true).
    { clear -E. induction required_fields as [|a l IH]; simpl in *; [discriminate|].
      destruct (dict_has a config); simpl in *; auto. }
    apply existsb_exists in H as (field & Hin & Hneg).
    exists field. split; [assumption|]. now destruct (dict_has field config).
Qed.

(** C1, as the code has it: the validator returns Invalid exactly when a
    required top-level field is absent or one of the three policy groups
    (content, word, topic) is not a mapping.  The PROMPT_ATTACK
    strength/direction rule plays no part in the verdict. *)
Theorem validate_invalid_iff config :
  fst (_validate_guardrail_config config) = false
  <-> (missing_required config \/ group_not_mapping config).
Proof.
  destruct (complete_or_missing config) as [Hall|Hmiss].
  - rewrite (validate_when_complete config Hall). split; [tauto|].
    intros [(field & Hin & Hf)|H]; [|assumption].
    rewrite (Hall field Hin) in Hf. discriminate.
  - split; [tauto|]. intros _. now apply validate_when_missing.
Qed.

(** C1, as stated, fails on a compiled document whose PROMPT_ATTACK filter
    has output strength HIGH with the output direction disabled: the rule
    is violated, yet the validator accepts the document. *)
Lemma validate_ignores_prompt_attack_rule :
  prompt_attack_violation Fixtures.prompt_attack_config = true
  /\ _validate_guardrail_config Fixtures.prompt_attack_config = (true, "")
  /\ ~ invalid_iff_missing_or_prompt_attack Fixtures.prompt_attack_config.
Proof.
  split; [vm_compute; reflexivity|].
  split; [vm_compute; reflexivity|].
  intros [_ H].
  assert (E : fst (_validate_guardrail_config Fixtures.prompt_attack_config) = true)
    by (vm_compute; reflexivity).
  rewrite H in E; [discriminate|].
  right. vm_compute. reflexivity.
Qed.

(** The catalog as shipped passes the validator and respects the rule. *)
Lemma banking_config_valid name :
  fst (_validate_guardrail_config
         (assemble_config Fixtures.banking_manager name)) = true
  /\ prompt_attack_violation (assemble_config Fixtures.banking_manager name) = false.
Proof. split; reflexivity. Qed.

End ValidatorProofs.

(** ** The order of events in create_banking_guardrail *)

Module OrderProofs.
Import create_guardrail OrderSpec.

Ltac run_step :=
  unfold Run.try_except, Run.bind, Run.call, Run.lift, Run.emit, Run.ret,
    Run.raise in *; simpl in *.

(** The KMS verification leaves exactly one event, the describe call. *)
Lemma kms_verified_config_trace w kms_key_id config t :
  snd (kms_verified_config w kms_key_id config t)
  = (t ++ [describe_key_call kms_key_id])%list.
Proof.
  unfold kms_verified_config. run_step.
  destruct (kms_describe_key w _) as [key_info|e]; simpl; [|reflexivity].
  destruct (subscript "KeyMetadata" key_info) as [md|e]; simpl; [|reflexivity].
  destruct (item md "Arn") as [arn|e]; simpl; [|reflexivity].
  destruct (item md "KeyState") as [st|e]; simpl; [|reflexivity].
  destruct st; try reflexivity.
  destruct (String.eqb s "Enabled") eqn:E.
  - apply String.eqb_eq in E. subst. reflexivity.
  - destruct s as [|a1 s]; [reflexivity|].
    repeat (match goal with
            | |- context [match ?x with EmptyString => _ | String _ _ => _ end] =>
                destruct x
            | |- context [match ?a with Ascii _ _ _ _ _ _ _ _ => _ end] =>
                destruct a as [[] [] [] [] [] [] [] []]
            end; try reflexivity).
Qed.

Lemma submit_config_trace self w name config t :
  let t' := snd (submit_config self w name config t) in
  t' = (t ++ [create_guardrail_call config])%list
  \/ exists details,
       t' = (t ++ [create_guardrail_call config;
                   EvWriteFile "guardrail_details.json" details])%list.
Proof.
  unfold submit_config. run_step.
  destruct (bedrock_create_guardrail w config) as [response|e]; simpl; [|now left].
  destruct (dict_get "guardrailId" response) as [gid|]; simpl; [|now left].
  right. eexists.
  destruct (write_file w _ _); simpl; rewrite <- app_assoc; reflexivity.
Qed.

(** C2, as the code has it: the configuration is submitted to the remote
    policy service (create_guardrail) only after the local validation has
    accepted it, and a rejected configuration is never submitted; the one
    remote call that comes before the validation is the KMS describe_key
    verification. *)
Theorem creation_trace_shape self w guardrail_name :
  creation_trace (snd (create_banking_guardrail self w guardrail_name [])).
Proof.
  unfold create_banking_guardrail.
  set (name := match guardrail_name with
               | Some (String c s) => String c s
               | _ => _ end).
  unfold Run.try_except at 1.
  destruct (getenv w "KMS_KEY_ID") as [[|c s]|]; try (simpl; constructor).
  unfold Run.bind at 1.
  pose proof (kms_verified_config_trace w (String c s)
                (assemble_config self name) []) as Hk.
  destruct (kms_verified_config w (String c s) (assemble_config self name) [])
    as [[config|e] t1]; simpl in Hk; subst t1; [|simpl; constructor].
  destruct (_validate_guardrail_config config) as [is_valid msg] eqn:V.
  unfold Run.bind at 1, Run.emit at 1. simpl app.
  destruct is_valid; cbn [negb].
  - pose proof (submit_config_trace self w name config
                  [describe_key_call (String c s); EvValidate true]) as Hs.
    simpl in Hs.
    assert (Ht : forall o t',
               snd (match o : outcome (option value) with
                    | Return a => (Return a, t')
                    | Raise _ => Run.ret None t'
                    end) = t') by (intros [a|e] t'; reflexivity).
    destruct (submit_config self w name config
                [describe_key_call (String c s); EvValidate true])
      as [o t2] eqn:Es.
    rewrite Ht. simpl in Hs.
    destruct Hs as [->|[details ->]]; simpl;
      (constructor; [now rewrite V | eauto]).
  - unfold Run.raise. simpl. constructor.
Qed.

(** C2, as stated, fails: with a KMS key configured, the describe_key call
    goes out before the validator runs, also when the validator then
    rejects the configuration. *)
Lemma describe_key_precedes_validation :
  snd (create_banking_guardrail Fixtures.misshapen_manager Fixtures.with_key None [])
  = [describe_key_call Fixtures.key_arn; EvValidate false]
  /\ ~ no_remote_call_before_validation
         (snd (create_banking_guardrail Fixtures.misshapen_manager
                 Fixtures.with_key None [])).
Proof.
  assert (E : snd (create_banking_guardrail Fixtures.misshapen_manager
                     Fixtures.with_key None [])
              = [describe_key_call Fixtures.key_arn; EvValidate false])
    by (vm_compute; reflexivity).
  split; [exact E|].
  intros H. rewrite E in H.
  specialize (H [describe_key_call Fixtures.key_arn] false [] eq_refl).
  discriminate H.
Qed.

End OrderProofs.

(** ** The contextual grounding checks *)

Module GroundingProofs.
Import create_guardrail ContextualGroundingCheck GroundingSpec.

Lemma string_in_In x l : string_in x l = true <-> In x l.
Proof.
  induction l as [|a l IH]; simpl; [split; [discriminate|tauto]|].
  rewrite orb_true_iff, IH, String.eqb_eq. split; intros [H|H]; auto.
Qed.

Lemma issubset_incl a b :
  issubset a b = true <-> (forall x, In x a -> In x b).
Proof.
  unfold issubset. rewrite forallb_forall.
  split; intros H x Hx; apply string_in_In; auto.
Qed.

Lemma introduced_term_none terms response context :
  (forall term, In term terms ->
     contains term (Re.lower response) = true ->
     contains term (Re.lower context) = true) ->
  introduced_term terms response context = None.
Proof.
  induction terms as [|term rest IH]; simpl; intros H; [reflexivity|].
  destruct (contains term (Re.lower response)) eqn:E; simpl.
  - rewrite (H term (or_introl eq_refl) E). simpl. apply IH. auto.
  - apply IH. auto.
Qed.

Lemma introduced_term_some terms response context term :
  In term terms ->
  contains term (Re.lower response) = true ->
  contains term (Re.lower context) = false ->
  introduced_term terms response context <> None.
Proof.
  induction terms as [|t rest IH]; simpl; [tauto|].
  intros [->|Hin] Hr Hc.
  - rewrite Hr, Hc. discriminate.
  - destruct (contains t (Re.lower response) && negb (contains t (Re.lower context)));
      [discriminate|auto].
Qed.

Lemma factual_passes response context :
  (forall x, In x (numbers response) -> In x (numbers context)) ->
  terms_grounded response context ->
  check_factual_consistency response context = (true, "").
Proof.
  intros Hn Ht. unfold check_factual_consistency.
  apply issubset_incl in Hn. unfold numbers in Hn. rewrite Hn.
  rewrite andb_false_r.
  now rewrite (introduced_term_none _ _ _ Ht).
Qed.

Lemma temporal_passes response context :
  (forall x, In x (dates response) -> In x (dates context)) ->
  check_temporal_consistency response context = (true, "").
Proof.
  intros Hd. unfold check_temporal_consistency.
  apply issubset_incl in Hd. unfold dates in Hd. rewrite Hd.
  now rewrite andb_false_r.
Qed.

Lemma grounded_when_both_pass response context :
  both_checks_pass response context -> grounded response context.
Proof.
  unfold both_checks_pass, grounded, check_grounding. intros [Hf Ht].
  destruct (check_factual_consistency response context) as [f fr].
  destruct (check_temporal_consistency response context) as [t tr].
  simpl in Hf, Ht. subst. reflexivity.
Qed.

Lemma empty_response_terms context : terms_grounded "" context.
Proof.
  intros term Hin H. simpl in Hin.
  repeat (destruct Hin as [<-|Hin]; [discriminate H|]). contradiction.
Qed.

(** C6, as the code has it: when every numeric token and every date token
    extracted from the response is also extracted from the context, and no
    listed financial term occurs in the lower-cased response without
    occurring in the lower-cased context, both checks pass and the verdict
    is grounded; an empty response passes both checks against any
    context. *)
Theorem grounded_tokens_and_terms_pass :
  (forall response context,
     tokens_grounded response context ->
     terms_grounded response context ->
     both_checks_pass response context /\ grounded response context)
  /\ (forall context, both_checks_pass "" context /\ grounded "" context).
Proof.
  assert (main : forall response context,
     tokens_grounded response context ->
     terms_grounded response context ->
     both_checks_pass response context /\ grounded response context).
  { intros response context [Hn Hd] Ht.
    assert (P : both_checks_pass response context).
    { split.
      - now rewrite (factual_passes _ _ Hn Ht).
      - now rewrite (temporal_passes _ _ Hd). }
    split; [exact P|now apply grounded_when_both_pass]. }
  split; [exact main|].
  intros context. apply main.
  - split; intros x Hx; vm_compute in Hx; contradiction.
  - apply empty_response_terms.
Qed.

(** The example of the specification, used as the witness of C6. *)
Lemma grounded_tokens_and_terms_pass_witness :
  tokens_grounded "The fee is 25 and due by 2024-01-15"
                  "Our fee is 25, due by 2024-01-15"
  /\ terms_grounded "The fee is 25 and due by 2024-01-15"
                    "Our fee is 25, due by 2024-01-15"
  /\ both_checks_pass "The fee is 25 and due by 2024-01-15"
                      "Our fee is 25, due by 2024-01-15"
  /\ grounded "The fee is 25 and due by 2024-01-15"
              "Our fee is 25, due by 2024-01-15".
Proof.
  assert (Hk : tokens_grounded "The fee is 25 and due by 2024-01-15"
                               "Our fee is 25, due by 2024-01-15").
  { split; intros x Hx; vm_compute in Hx |- *; tauto. }
  assert (Ht : terms_grounded "The fee is 25 and due by 2024-01-15"
                              "Our fee is 25, due by 2024-01-15").
  { intros term Hin H. simpl in Hin.
    repeat (destruct Hin as [<-|Hin];
            [first [reflexivity | vm_compute in H; discriminate H]|]).
    contradiction. }
  split; [exact Hk|]. split; [exact Ht|].
  exact (proj1 grounded_tokens_and_terms_pass _ _ Hk Ht).
Defined.

(** C6, as stated, fails: the response "fee" has no numeric and no date
    token, so its tokens are trivially found in the empty context, yet the
    factual check rejects it for the term it introduces. *)
Lemma ungrounded_term_fails_factual_check :
  tokens_grounded "fee" ""
  /\ check_factual_consistency "fee" ""
     = (false, "Response introduces financial term 'fee' not in context")
  /\ ~ (tokens_grounded "fee" "" -> both_checks_pass "fee" "").
Proof.
  assert (Hk : tokens_grounded "fee" "").
  { split; intros x Hx; vm_compute in Hx; contradiction. }
  split; [exact Hk|]. split; [vm_compute; reflexivity|].
  intros H. destruct (H Hk) as [Hf _]. vm_compute in Hf. discriminate.
Qed.

Lemma lower_char_not (c : ascii) :
  Re.is_upper "A" = true /\ Re.lower_char c <> "A"%char.
Proof.
  split; [reflexivity|].
  destruct c as [[] [] [] [] [] [] [] []]; vm_compute; discriminate.
Qed.

(** A term that starts with a capital A is never found in lower-cased
    text. *)
Lemma capital_term_not_in_lower rest text :
  contains (String "A" rest) (Re.lower text) = false.
Proof.
  induction text as [|c text IH]; [reflexivity|].
  cbn [Re.lower contains String.prefix].
  destruct (ascii_dec "A" (Re.lower_char c)) as [E|_].
  - exfalso. exact (proj2 (lower_char_not c) (eq_sym E)).
  - exact IH.
Qed.

(** For the terms written in lower case the check does what C7 says. *)
Lemma lowercase_term_detected response context term :
  In term ["interest rate"; "fee"; "penalty"; "balance"; "withdrawal"; "deposit"] ->
  contains term (Re.lower response) = true ->
  contains term (Re.lower context) = false ->
  fst (check_factual_consistency response context) = false.
Proof.
  intros Hin Hr Hc. unfold check_factual_consistency.
  destruct (_ && _); [reflexivity|].
  destruct (introduced_term financial_terms response context) eqn:E;
    [reflexivity|].
  exfalso. revert E. apply introduced_term_some with term; auto.
  simpl in Hin |- *. tauto.
Qed.

(** C7 on the failing inputs: a response that introduces "APR" (in either
    letter case) against a context without it passes the factual check,
    because the listed terms APR and APY are compared, in upper case,
    with lower-cased text, where they can never occur. *)
Theorem capital_terms_never_detected :
  check_factual_consistency "The APR is low" "" = (true, "")
  /\ check_factual_consistency "The apr is low" "" = (true, "")
  /\ (forall text, contains "APR" (Re.lower text) = false)
  /\ (forall text, contains "APY" (Re.lower text) = false).
Proof.
  split; [vm_compute; reflexivity|].
  split; [vm_compute; reflexivity|].
  split; intros text; apply capital_term_not_in_lower.
Qed.

End GroundingProofs.

(** ** The poll loop of deploy_guardrail *)

Module PollProofs.
Import deploy_guardrail PollSpec.

Lemma count_calls_app op (t1 t2 : trace) :
  count_calls op (t1 ++ t2)%list = count_calls op t1 + count_calls op t2.
Proof. unfold count_calls. now rewrite filter_app, length_app. Qed.

(** One status query: one [get_guardrail] call, whose failure is turned
    into [None]. *)
Lemma get_guardrail_status_detailed w guardrail_id t :
  get_guardrail_status w guardrail_id true t
  = (match reply w guardrail_id (get_calls t) with
     | Return info => Return (VDict info)
     | Raise _ => Return VNone
     end, (t ++ [get_event guardrail_id])%list).
Proof.
  unfold get_guardrail_status, client_get_guardrail, Run.try_except, Run.bind,
    Run.call, Run.ret, reply, get_calls, get_params. simpl.
  now destruct (bedrock_get_guardrail w _ _).
Qed.

Lemma get_calls_after_poll guardrail_id t :
  get_calls (t ++ [get_event guardrail_id])%list = S (get_calls t).
Proof.
  unfold get_calls. rewrite count_calls_app.
  change (count_calls "get_guardrail" [get_event guardrail_id]) with 1. lia.
Qed.

Lemma get_calls_after_sleep t n :
  get_calls (t ++ [EvSleep n])%list = get_calls t.
Proof.
  unfold get_calls. rewrite count_calls_app.
  change (count_calls "get_guardrail" [EvSleep n]) with 0. lia.
Qed.

Lemma verdict_in_progress answer :
  in_progress answer = true <-> verdict answer = None.
Proof.
  unfold in_progress, verdict, status_of.
  destruct answer as [info|e]; [|split; discriminate].
  destruct (terminal _); simpl; split; (discriminate || reflexivity).
Qed.

(** The loop, one iteration unfolded. *)
Lemma wait_for_activation_step w guardrail_id n t :
  wait_for_activation w guardrail_id (S n) t
  = match verdict (reply w guardrail_id (get_calls t)) with
    | Some r => (r, (t ++ [get_event guardrail_id])%list)
    | None =>
        wait_for_activation w guardrail_id n
          ((t ++ [get_event guardrail_id]) ++ [EvSleep 5])%list
    end.
Proof.
  cbn [wait_for_activation]. unfold Run.bind at 1.
  rewrite get_guardrail_status_detailed. unfold verdict.
  destruct (reply w guardrail_id (get_calls t)) as [info|e]; [|reflexivity].
  unfold Run.bind, Run.lift, Run.ret, Run.emit. cbn [method_get].
  set (status := dict_get_default "status" VNone info).
  unfold terminal, successful.
  destruct (value_eqb status (VStr "ACTIVE")) eqn:Ea; [reflexivity|].
  destruct (value_eqb status (VStr "FAILED") || value_eqb status (VStr "ERROR")) eqn:Ef.
  - destruct (value_eqb status (VStr "READY")) eqn:Er.
    + destruct status; try discriminate. simpl in *.
      apply String.eqb_eq in Er. subst. discriminate.
    + simpl. rewrite Ef. reflexivity.
  - apply orb_false_iff in Ef as [-> ->].
    destruct (value_eqb status (VStr "READY")); reflexivity.
Qed.

(** The polls never exceed the bound. *)
Lemma wait_for_activation_bound w guardrail_id n : forall t,
  get_calls t <= get_calls (snd (wait_for_activation w guardrail_id n t))
  /\ polls t (snd (wait_for_activation w guardrail_id n t)) <= n.
Proof.
  unfold polls.
  induction n as [|n IH]; intros t; [simpl; lia|].
  rewrite wait_for_activation_step.
  destruct (verdict _).
  - simpl. rewrite get_calls_after_poll. lia.
  - specialize (IH ((t ++ [get_event guardrail_id]) ++ [EvSleep 5])%list).
    rewrite get_calls_after_sleep, get_calls_after_poll in IH. lia.
Qed.

(** Only non-terminal statuses: every attempt is used and the loop falls
    through to [return False]. *)
Lemma wait_for_activation_exhausted w guardrail_id n : forall t,
  never_settles w guardrail_id t n ->
  fst (wait_for_activation w guardrail_id n t) = Return false
  /\ get_calls (snd (wait_for_activation w guardrail_id n t)) = get_calls t + n.
Proof.
  induction n as [|n IH]; intros t H; [simpl; split; [reflexivity|lia]|].
  rewrite wait_for_activation_step.
  assert (H0 : verdict (reply w guardrail_id (get_calls t)) = None).
  { apply verdict_in_progress. specialize (H 0). rewrite Nat.add_0_r in H.
    apply H. lia. }
  rewrite H0.
  destruct (IH ((t ++ [get_event guardrail_id]) ++ [EvSleep 5])%list) as [Hr Hc].
  - intros i Hi. rewrite get_calls_after_sleep, get_calls_after_poll.
    replace (S (get_calls t) + i) with (get_calls t + S i) by lia.
    apply H. lia.
  - rewrite Hr, Hc, get_calls_after_sleep, get_calls_after_poll.
    split; [reflexivity|lia].
Qed.

(** The first poll that is not in progress ends the loop. *)
Lemma wait_for_activation_stops w guardrail_id k : forall n t r,
  k < n ->
  never_settles w guardrail_id t k ->
  verdict (reply w guardrail_id (get_calls t + k)) = Some r ->
  fst (wait_for_activation w guardrail_id n t) = r
  /\ get_calls (snd (wait_for_activation w guardrail_id n t)) = get_calls t + S k.
Proof.
  induction k as [|k IH]; intros n t r Hk Hbefore Hv;
    (destruct n as [|n]; [lia|]); rewrite wait_for_activation_step.
  - rewrite Nat.add_0_r in Hv. rewrite Hv. simpl.
    rewrite get_calls_after_poll. split; [reflexivity|lia].
  - assert (H0 : verdict (reply w guardrail_id (get_calls t)) = None).
    { apply verdict_in_progress. specialize (Hbefore 0).
      rewrite Nat.add_0_r in Hbefore. apply Hbefore. lia. }
    rewrite H0.
    destruct (IH n ((t ++ [get_event guardrail_id]) ++ [EvSleep 5])%list r)
      as [Hr Hc].
    + lia.
    + intros i Hi. rewrite get_calls_after_sleep, get_calls_after_poll.
      replace (S (get_calls t) + i) with (get_calls t + S i) by lia.
      apply Hbefore. lia.
    + rewrite get_calls_after_sleep, get_calls_after_poll.
      replace (S (get_calls t) + k) with (get_calls t + S k) by lia. exact Hv.
    + rewrite Hr, Hc, get_calls_after_sleep, get_calls_after_poll.
      split; [reflexivity|lia].
Qed.

Lemma verdict_terminal answer status :
  status_of answer = Some status -> terminal status = true ->
  verdict answer = Some (Return (successful status)).
Proof.
  unfold status_of, verdict. destruct answer as [info|e]; [|discriminate].
  intros [= <-] ->. reflexivity.
Qed.

(** The loop with [attempts] attempts: it makes at most that many polls,
    stops at the first terminal status with success exactly for ACTIVE
    and READY, and uses every attempt when no terminal status is seen. *)
Lemma wait_for_activation_polls
    (w : world) (guardrail_id : string) (attempts : nat) (t : trace) :
  let run := wait_for_activation w guardrail_id attempts t in
  let answer i := reply w guardrail_id (get_calls t + i) in
  polls t (snd run) <= attempts
  /\ (forall k status,
        k < attempts ->
        (forall i, i < k -> in_progress (answer i) = true) ->
        status_of (answer k) = Some status ->
        terminal status = true ->
        polls t (snd run) = S k /\ fst run = Return (successful status))
  /\ ((forall i, i < attempts -> in_progress (answer i) = true) ->
      polls t (snd run) = attempts /\ fst run = Return false).
Proof.
  intros run answer.
  split; [apply wait_for_activation_bound|].
  split.
  - intros k status Hk Hbefore Hs Ht.
    destruct (wait_for_activation_stops w guardrail_id k attempts t
                (Return (successful status)) Hk Hbefore
                (verdict_terminal _ _ Hs Ht)) as [Hr Hc].
    unfold polls, run. rewrite Hr, Hc. split; [lia|reflexivity].
  - intros H.
    destruct (wait_for_activation_exhausted w guardrail_id attempts t H) as [Hr Hc].
    unfold polls, run. rewrite Hr, Hc. split; [lia|reflexivity].
Qed.

End PollProofs.

(** ** deploy_guardrail: the bound and the outcome of the wait *)

Module DeployProofs.
Import deploy_guardrail PollSpec PollProofs.


Lemma get_calls_after_update guardrail_id config :
  get_calls [get_event guardrail_id; EvCall "bedrock" "update_guardrail" config]
  = get_calls [get_event guardrail_id].
Proof. reflexivity. Qed.




End DeployProofs.

(** ** The requests of activation and of version creation *)

Module RequestProofs.
Import RequestSpec.

Lemma dict_get_set_same k v d : dict_get k (dict_set k v d) = Some v.
Proof.
  induction d as [|[k' v'] d IH]; simpl.
  - now rewrite String.eqb_refl.
  - destruct (String.eqb k' k) eqn:E; simpl.
    + now rewrite String.eqb_refl.
    + now rewrite E.
Qed.

Lemma dict_get_set_other k k' v d :
  k <> k' -> dict_get k (dict_set k' v d) = dict_get k d.
Proof.
  intros Hne. induction d as [|[k0 v0] d IH]; simpl.
  - destruct (String.eqb_spec k' k); [congruence|reflexivity].
  - destruct (String.eqb_spec k0 k') as [->|Hk]; simpl.
    + destruct (String.eqb_spec k' k); [congruence|reflexivity].
    + destruct (String.eqb_spec k0 k); [reflexivity|exact IH].
Qed.

(** The loop over the optional fields: a listed field that the current
    configuration has is copied, everything else is left as it was. *)
Lemma copy_optional_get fields current field : forall acc,
  dict_get field (create_guardrail_version.copy_optional fields current acc)
  = if string_in field fields
    then match dict_get field current with
         | Some v => Some v
         | None => dict_get field acc
         end
    else dict_get field acc.
Proof.
  induction fields as [|f fields IH]; intros acc; simpl; [reflexivity|].
  destruct (String.eqb_spec field f) as [->|Hne]; simpl.
  - destruct (dict_get f current) as [v|] eqn:E; rewrite IH.
    + rewrite dict_get_set_same. now destruct (string_in f fields).
    + now destruct (string_in f fields).
  - destruct (dict_get f current) as [v|] eqn:E; rewrite IH;
      [rewrite (dict_get_set_other _ _ _ _ Hne)|]; reflexivity.
Qed.

(** What create_guardrail_version_from_config does carry forward: the
    five listed optional fields. *)
Lemma listed_fields_carried_forward guardrail_id name version_id current field :
  In field create_guardrail_version.optional_fields ->
  carried_forward field current
    (create_guardrail_version.update_params guardrail_id name version_id current).
Proof.
  intros Hin. unfold carried_forward, create_guardrail_version.update_params.
  rewrite copy_optional_get.
  simpl in Hin.
  repeat (destruct Hin as [<-|Hin];
          [simpl; now destruct (dict_get _ current)|]).
  contradiction.
Qed.

(** C3 on a failing input, a guardrail that carries the banking policies.
    [deploy_guardrail] writes fixed placeholder policies (DefaultTopic, a
    single HATE filter of strength LOW, a single RELEVANCE filter) and a
    new description instead of what it read, drops the word policy and
    names no version at all; create_guardrail_version_from_config drops the
    topic policy and the contextual grounding policy. *)
Theorem activation_does_not_carry_policy_forward :
  let remote := RemoteFixtures.remote_guardrail "READY" in
  (exists request,
     deploy_guardrail.activation_config RemoteFixtures.activating "gr-0001" remote
     = Return request
     /\ ~ carried_forward "topicPolicyConfig" remote request
     /\ ~ carried_forward "contentPolicyConfig" remote request
     /\ ~ carried_forward "contextualGroundingPolicyConfig" remote request
     /\ ~ carried_forward "wordPolicyConfig" remote request
     /\ ~ carried_forward "description" remote request
     /\ dict_get "version" request = None)
  /\ (let request :=
        create_guardrail_version.update_params "gr-0001"
          (VStr "BankingVoiceBotGuardrail-20240115093000") (VStr "1") remote in
      ~ carried_forward "topicPolicyConfig" remote request
      /\ ~ carried_forward "contextualGroundingPolicyConfig" remote request
      /\ dict_get "version" request = Some (VStr "1")).
Proof.
  split.
  - eexists. split; [reflexivity|].
    repeat split; try (intros H; vm_compute in H; discriminate H).
  - repeat split; try (intros H; vm_compute in H; discriminate H).
Qed.

(** Whatever the remote resource holds, the topic policy that
    [deploy_guardrail] sends is the DefaultTopic placeholder. *)
Lemma activation_topic_policy_is_fixed w guardrail_id info request :
  deploy_guardrail.activation_config w guardrail_id info = Return request ->
  dict_get "topicPolicyConfig" request
  = Some (VDict [ ("topicsConfig", VList [
            VDict [ ("name", VStr "DefaultTopic");
                    ("definition", VStr "General purpose topic for testing");
                    ("type", VStr "DENY");
                    ("inputAction", VStr "BLOCK");
                    ("outputAction", VStr "BLOCK");
                    ("inputEnabled", VBool true);
                    ("outputEnabled", VBool true) ] ]) ]).
Proof.
  unfold deploy_guardrail.activation_config.
  destruct (subscript "name" info) as [name|e]; [|discriminate].
  intros [= <-]. cbn [filter snd].
  repeat match goal with
         | |- context [negb (value_eqb ?v VNone)] =>
             destruct (negb (value_eqb v VNone))
         end; reflexivity.
Qed.

(** C8 on the failing path: the request that
    [GuardrailDeployer.create_guardrail_version] sends carries no client
    request token, for any guardrail, while the request of
    create_guardrail_version_from_config carries the drawn token; a
    deployment of a guardrail without versions issues the token-less
    request. *)
Theorem deployer_version_request_lacks_token :
  (forall w guardrail_id,
     has_request_token (deploy_guardrail.create_version_params w guardrail_id)
     = false)
  /\ (forall token guardrail_id description,
        dict_get "clientRequestToken"
          (create_guardrail_version.version_params token guardrail_id description)
        = Some (VStr token))
  /\ In (create_version_call
           (deploy_guardrail.create_version_params RemoteFixtures.activating "gr-0001"))
        (snd (deploy_guardrail.deploy_guardrail RemoteFixtures.activating
                "gr-0001" VNone [])).
Proof.
  split; [reflexivity|].
  split.
  - intros token guardrail_id [[|c s]|]; reflexivity.
  - vm_compute. tauto.
Qed.

End RequestProofs.

(** ** The KMS envelope: failures *)

Module EnvelopeFailureProofs.
Import create_guardrail EnvelopeSpec.

(** The handler of the two envelope helpers: [logger] is no local, no
    module-level name of create_guardrail.py and no builtin. *)
Lemma handler_raises_name_error {A} e t :
  (@Names.log_error_and_reraise A
     ["self"; "data"; "data_str"; "encrypted"; "e"] module_globals e t
   = (Raise (NameError "logger"), t))
  /\ (@Names.log_error_and_reraise A
        ["self"; "encrypted_data"; "decrypted"; "e"] module_globals e t
      = (Raise (NameError "logger"), t)).
Proof. split; reflexivity. Qed.

(** In kms_manager.py the name is bound, and the handler re-raises. *)
Lemma kms_manager_handler_reraises {A} locals e t :
  @Names.log_error_and_reraise A locals kms_manager.module_globals e t
  = (Raise e, t).
Proof.
  unfold Names.log_error_and_reraise, Names.resolve, Run.bind, Run.lift.
  replace (string_in "logger" kms_manager.module_globals) with true by reflexivity.
  now rewrite orb_true_r.
Qed.

Lemma encrypt_data_raises w key_id text context e t :
  kms_encrypt w (kms_manager.encrypt_params key_id text context) = Raise e ->
  fst (kms_manager.encrypt_data w key_id text context t) = Raise e.
Proof.
  intros H. unfold kms_manager.encrypt_data, Run.try_except, Run.bind at 1,
    Run.call. rewrite H.
  destruct (kms_manager.is_client_error e);
    [rewrite kms_manager_handler_reraises|]; reflexivity.
Qed.

Lemma decrypt_data_raises w h blob context e t :
  Hex.fromhex h = Return blob ->
  kms_decrypt w (kms_manager.decrypt_params (VBytes blob) context) = Raise e ->
  fst (kms_manager.decrypt_data w (VStr h) context t) = Raise e.
Proof.
  intros Hh H. unfold kms_manager.decrypt_data, Run.try_except, Run.bind at 1,
    Run.lift, kms_manager.bytes_fromhex. rewrite Hh.
  unfold Run.bind at 1, Run.call. rewrite H.
  destruct (kms_manager.is_client_error e);
    [rewrite kms_manager_handler_reraises|]; reflexivity.
Qed.

Lemma seal_failure self w t data text e :
  data_text w data = Return text ->
  kms_encrypt w (kms_manager.encrypt_params (key_alias w) text
                   (Some (encryption_context self))) = Raise e ->
  fst (_encrypt_sensitive_data self w data t) = Raise (NameError "logger").
Proof.
  intros Htext Hkms.
  pose proof (encrypt_data_raises w (key_alias w) text
                (Some (encryption_context self)) e t Hkms) as H.
  unfold _encrypt_sensitive_data, Run.try_except, Run.bind at 1, Run.lift.
  rewrite Htext. unfold Run.bind at 1. fold (key_alias w).
  destruct (kms_manager.encrypt_data w (key_alias w) text
              (Some (encryption_context self)) t) as [r t'].
  cbn [fst] in H. subst r. reflexivity.
Qed.

Lemma open_failure self w t encrypted_data h blob e :
  dict_get "data" encrypted_data = Some (VStr h) ->
  Hex.fromhex h = Return blob ->
  kms_decrypt w (kms_manager.decrypt_params (VBytes blob)
                   (Some (encryption_context self))) = Raise e ->
  fst (_decrypt_data self w encrypted_data t) = Raise (NameError "logger").
Proof.
  intros Hdata Hhex Hkms.
  pose proof (decrypt_data_raises w h blob (Some (encryption_context self))
                e t Hhex Hkms) as H.
  unfold _decrypt_data, Run.try_except, Run.bind at 1, Run.lift, subscript.
  rewrite Hdata. unfold Run.bind at 1.
  destruct (kms_manager.decrypt_data w (VStr h)
              (Some (encryption_context self)) t) as [r t'].
  cbn [fst] in H. subst r. reflexivity.
Qed.

(** C10: when the key-service call inside [_encrypt_sensitive_data] or
    [_decrypt_data] raises, the handler's [logger.error] raises NameError
    (no [logger] is defined in create_guardrail.py), and that NameError is
    what the caller receives in place of the original error. *)
Theorem envelope_failure_surfaces_as_name_error
    (self : manager) (w : world) (t : trace) :
  (forall data text e,
     data_text w data = Return text ->
     kms_encrypt w (kms_manager.encrypt_params (key_alias w) text
                      (Some (encryption_context self))) = Raise e ->
     fst (_encrypt_sensitive_data self w data t) = Raise (NameError "logger"))
  /\ (forall encrypted_data h blob e,
        dict_get "data" encrypted_data = Some (VStr h) ->
        Hex.fromhex h = Return blob ->
        kms_decrypt w (kms_manager.decrypt_params (VBytes blob)
                         (Some (encryption_context self))) = Raise e ->
        fst (_decrypt_data self w encrypted_data t) = Raise (NameError "logger")).
Proof.
  split.
  - intros data text e. apply seal_failure.
  - intros encrypted_data h blob e. apply open_failure.
Qed.

(** A key service that is out of reach: the caller of
    [_encrypt_sensitive_data] sees the NameError, not the ClientError. *)
Lemma envelope_failure_surfaces_as_name_error_witness :
  kms_encrypt Fixtures.offline
    (kms_manager.encrypt_params (key_alias Fixtures.offline) "4111 1111 1111 1111"
       (Some (encryption_context Fixtures.banking_manager)))
  = Raise (ClientError "NotFoundException" "no key")
  /\ fst (_encrypt_sensitive_data Fixtures.banking_manager Fixtures.offline
            (Text "4111 1111 1111 1111") [])
     = Raise (NameError "logger").
Proof.
  split; [reflexivity|].
  exact (proj1 (envelope_failure_surfaces_as_name_error
                  Fixtures.banking_manager Fixtures.offline [])
           (Text "4111 1111 1111 1111") "4111 1111 1111 1111"
           (ClientError "NotFoundException" "no key") eq_refl eq_refl).
Defined.

End EnvelopeFailureProofs.

(** ** The JSON model: the parser never lacks fuel *)

Module JsonFuelProofs.
Import Json JsonSpec.

Lemma skip_ws_length s : String.length (skip_ws s) <= String.length s.
Proof.
  induction s as [|c s IH]; simpl; [lia|].
  destruct (is_ws c); simpl; lia.
Qed.

Lemma skip_ws_cons s c r :
  skip_ws s = String c r -> String.length r < String.length s.
Proof.
  intros H. pose proof (skip_ws_length s) as L. rewrite H in L. simpl in L. lia.
Qed.

Lemma drop_length n s : String.length (drop n s) <= String.length s.
Proof.
  revert s. induction n as [|n IH]; intros [|c s]; simpl; try lia.
  specialize (IH s). lia.
Qed.

Lemma cons_result_some pre r x rest :
  cons_result pre r = Some (x, rest) ->
  exists x', r = Some (x', rest).
Proof.
  destruct r as [[x' rest']|]; simpl; [|discriminate].
  intros [= _ <-]. eauto.
Qed.

(** The text behind a scanned string is what was left of the input. *)
Lemma scan_string_length_bounded n : forall s x rest,
  String.length s <= n ->
  scan_string s = Some (x, rest) -> String.length rest < String.length s.
Proof.
  induction n as [|n IH]; intros s x rest Hn H.
  - destruct s; [discriminate|simpl in Hn; lia].
  - destruct s as [|c s1]; [discriminate|].
    cbn [scan_string] in H. simpl in Hn.
    repeat match type of H with
           | (if ?b then _ else _) = _ => destruct b eqn:?
           | match ?u with EmptyString => _ | String _ _ => _ end = _ =>
               destruct u eqn:?; try discriminate
           | match ?u with Some _ => _ | None => _ end = _ =>
               destruct u eqn:?; try discriminate
           end;
      try discriminate;
      try (injection H as <- <-; simpl; lia);
      try (apply cons_result_some in H as [x' H];
           apply IH in H; simpl in *; lia).
Qed.

Lemma scan_string_length s x rest :
  scan_string s = Some (x, rest) -> String.length rest < String.length s.
Proof. apply (scan_string_length_bounded (String.length s)). lia. Qed.

Lemma take_digits_length s :
  String.length (snd (take_digits s)) <= String.length s.
Proof.
  induction s as [|c s IH]; simpl; [lia|].
  destruct (digit_of c); [|simpl; lia].
  destruct (take_digits s) as [ds rest]. simpl in *. lia.
Qed.

Lemma scan_uint_length s d rest :
  scan_uint s = Some (d, rest) -> String.length rest <= String.length s.
Proof.
  unfold scan_uint. destruct s as [|c s]; [discriminate|].
  destruct (Ascii.eqb c "0"); [intros [= _ <-]; simpl; lia|].
  destruct (digit_of c); [|discriminate].
  intros H.
  assert (H' : take_digits (String c s) = (d, rest)) by congruence.
  pose proof (take_digits_length (String c s)) as L.
  rewrite H' in L. exact L.
Qed.

Lemma scan_frac_length s : String.length (snd (scan_frac s)) <= String.length s.
Proof.
  unfold scan_frac. destruct s as [|c s]; [simpl; lia|].
  destruct (Ascii.eqb c ".") eqn:E.
  - apply Ascii.eqb_eq in E. subst c.
    pose proof (take_digits_length s) as L.
    destruct (take_digits s) as [[] rest]; simpl in *; lia.
  - assert (H : scan_frac (String c s) = (EmptyString, String c s)).
    { unfold scan_frac.
      destruct c as [[] [] [] [] [] [] [] []]; try reflexivity; discriminate. }
    unfold scan_frac in H. rewrite H. simpl. lia.
Qed.

Lemma scan_exp_length s : String.length (snd (scan_exp s)) <= String.length s.
Proof.
  unfold scan_exp. destruct s as [|e s]; [simpl; lia|].
  destruct (Ascii.eqb e "e" || Ascii.eqb e "E"); [|simpl; lia].
  assert (L : forall u, String.length (snd (take_digits u)) <= String.length u)
    by apply take_digits_length.
  destruct s as [|g t].
  - simpl. lia.
  - destruct (Ascii.eqb g "-" || Ascii.eqb g "+").
    + specialize (L t). destruct (take_digits t) as [[] rest]; simpl in *; lia.
    + specialize (L (String g t)).
      destruct (take_digits (String g t)) as [[] rest]; simpl in *; lia.
Qed.

Lemma scan_number_length s v rest :
  scan_number s = Some (v, rest) -> String.length rest <= String.length s.
Proof.
  unfold scan_number.
  assert (Hs : String.length (snd (split_sign s)) <= String.length s).
  { unfold split_sign. destruct s as [|c s']; [simpl; lia|].
    destruct (Ascii.eqb c "-"); simpl; lia. }
  destruct (split_sign s) as [negative s1]. simpl in Hs.
  destruct (scan_uint s1) as [[d s2]|] eqn:Eu; [|discriminate].
  apply scan_uint_length in Eu.
  pose proof (scan_frac_length s2) as Lf.
  destruct (scan_frac s2) as [frac s3]. simpl in Lf.
  pose proof (scan_exp_length s3) as Le.
  destruct (scan_exp s3) as [exp s4]. simpl in Le.
  destruct frac, exp; intros [= _ <-]; lia.
Qed.

Lemma converted_parsed v rest v' rest' :
  converted v rest = Parsed v' rest' -> v' = v /\ rest' = rest.
Proof.
  unfold converted. destruct v; try (intros [= <- <-]; auto).
  destruct (oversized z); [discriminate|]. intros [= <- <-]. auto.
Qed.

Lemma converted_uses_no_fuel v rest : converted v rest <> OutOfFuel.
Proof.
  unfold converted. destruct v; try discriminate.
  destruct (oversized z); discriminate.
Qed.

Lemma scan_atom_shrinks : shrinks scan_atom.
Proof.
  intros s v rest. unfold scan_atom.
  destruct (String.prefix "null" s); [intros [= _ <-]; exact (drop_length 4 s)|].
  destruct (String.prefix "true" s); [intros [= _ <-]; exact (drop_length 4 s)|].
  destruct (String.prefix "false" s); [intros [= _ <-]; exact (drop_length 5 s)|].
  destruct (scan_number s) as [[v' rest']|] eqn:E.
  - intros H. apply converted_parsed in H as [_ ->].
    eapply scan_number_length; eauto.
  - destruct (String.prefix "NaN" s);
      [intros [= _ <-]; exact (drop_length 3 s)|].
    destruct (String.prefix "Infinity" s);
      [intros [= _ <-]; exact (drop_length 8 s)|].
    destruct (String.prefix "-Infinity" s);
      [intros [= _ <-]; exact (drop_length 9 s)|].
    discriminate.
Qed.

Lemma value_step_shrinks room elements members :
  (forall acc, shrinks (elements acc)) ->
  (forall acc, shrinks (members acc)) ->
  shrinks (value_step room elements members).
Proof.
  intros HE HM s v rest. unfold value_step.
  destruct s as [|c s1]; [discriminate|].
  destruct (Ascii.eqb c dquote).
  { destruct (scan_string s1) as [[str r]|] eqn:E; [|discriminate].
    intros [= _ <-]. apply scan_string_length in E. simpl. lia. }
  destruct (Ascii.eqb c "{").
  { destruct room as [|room]; [discriminate|].
    destruct (skip_ws s1) as [|c2 s3] eqn:E; [discriminate|].
    apply skip_ws_cons in E.
    destruct (Ascii.eqb c2 "}"); [intros [= _ <-]; simpl; lia|].
    destruct (Ascii.eqb c2 dquote); [|discriminate].
    intros H. apply HM in H. simpl. lia. }
  destruct (Ascii.eqb c "[").
  { destruct room as [|room]; [discriminate|].
    destruct (skip_ws s1) as [|c2 s3] eqn:E; [discriminate|].
    pose proof (skip_ws_length s1) as L. rewrite E in L.
    destruct (Ascii.eqb c2 "]"); [intros [= _ <-]; simpl in *; lia|].
    intros H. apply HE in H. simpl in *. lia. }
  apply scan_atom_shrinks.
Qed.

Lemma elements_step_shrinks value_at elements :
  shrinks value_at ->
  (forall acc, shrinks (elements acc)) ->
  forall acc, shrinks (elements_step value_at elements acc).
Proof.
  intros HV HE acc s v rest. unfold elements_step.
  destruct (value_at s) as [v1 r1| | |] eqn:E1; try discriminate.
  apply HV in E1.
  destruct (skip_ws r1) as [|c r] eqn:E2; [discriminate|].
  apply skip_ws_cons in E2.
  destruct (Ascii.eqb c "]"); [intros [= _ <-]; lia|].
  destruct (Ascii.eqb c ","); [|discriminate].
  intros H. apply HE in H. pose proof (skip_ws_length r). lia.
Qed.

Lemma members_step_shrinks value_at members :
  shrinks value_at ->
  (forall acc, shrinks (members acc)) ->
  forall acc, shrinks (members_step value_at members acc).
Proof.
  intros HV HM acc s v rest. unfold members_step.
  destruct (scan_string s) as [[key r0]|] eqn:E0; [|discriminate].
  apply scan_string_length in E0.
  destruct (skip_ws r0) as [|c r] eqn:E1; [discriminate|].
  apply skip_ws_cons in E1.
  destruct (Ascii.eqb c ":"); [|discriminate].
  destruct (value_at (skip_ws r)) as [v2 r2| | |] eqn:E2; try discriminate.
  apply HV in E2. pose proof (skip_ws_length r) as L2.
  destruct (skip_ws r2) as [|c2 r3] eqn:E3; [discriminate|].
  apply skip_ws_cons in E3.
  destruct (Ascii.eqb c2 "}"); [intros [= _ <-]; lia|].
  destruct (Ascii.eqb c2 ","); [|discriminate].
  destruct (skip_ws r3) as [|c3 r4] eqn:E4; [discriminate|].
  apply skip_ws_cons in E4.
  destruct (Ascii.eqb c3 dquote); [|discriminate].
  intros H. apply HM in H. lia.
Qed.

Lemma parse_shrinks fuel : forall room,
  shrinks (parse_value fuel room)
  /\ (forall acc, shrinks (parse_elements fuel room acc))
  /\ (forall acc, shrinks (parse_members fuel room acc)).
Proof.
  induction fuel as [|fuel IH]; intros room.
  - repeat split; intros; intros s v rest H; discriminate.
  - destruct (IH room) as (IHv & IHe & IHm).
    destruct (IH (Nat.pred room)) as (_ & IHe' & IHm').
    split; [|split]; intros; cbn [parse_value parse_elements parse_members].
    + now apply value_step_shrinks.
    + now apply elements_step_shrinks.
    + now apply members_step_shrinks.
Qed.


Lemma value_step_total room elements members s :
  (forall acc s', String.length s' < String.length s ->
                  elements acc s' <> OutOfFuel) ->
  (forall acc s', String.length s' + 1 < String.length s ->
                  members acc s' <> OutOfFuel) ->
  value_step room elements members s <> OutOfFuel.
Proof.
  intros HE HM. unfold value_step.
  destruct s as [|c s1]; [discriminate|].
  destruct (Ascii.eqb c dquote).
  { destruct (scan_string s1) as [[str r]|]; discriminate. }
  destruct (Ascii.eqb c "{").
  { destruct room as [|room]; [discriminate|].
    destruct (skip_ws s1) as [|c2 s3] eqn:E; [discriminate|].
    apply skip_ws_cons in E.
    destruct (Ascii.eqb c2 "}"); [discriminate|].
    destruct (Ascii.eqb c2 dquote); [|discriminate].
    apply HM. simpl. lia. }
  destruct (Ascii.eqb c "[").
  { destruct room as [|room]; [discriminate|].
    destruct (skip_ws s1) as [|c2 s3] eqn:E; [discriminate|].
    pose proof (skip_ws_length s1) as L. rewrite E in L.
    destruct (Ascii.eqb c2 "]"); [discriminate|].
    apply HE. simpl in *. lia. }
  unfold scan_atom.
  repeat match goal with
         | |- (if ?b then _ else _) <> _ => destruct b; [discriminate|]
         end.
  destruct (scan_number (String c s1)) as [[v rest]|];
    [apply converted_uses_no_fuel|].
  repeat match goal with
         | |- (if ?b then _ else _) <> _ => destruct b; [discriminate|]
         end.
  discriminate.
Qed.

Lemma elements_step_total value_at elements acc s :
  shrinks value_at ->
  value_at s <> OutOfFuel ->
  (forall acc s', String.length s' < String.length s ->
                  elements acc s' <> OutOfFuel) ->
  elements_step value_at elements acc s <> OutOfFuel.
Proof.
  intros HS HV HE. unfold elements_step.
  destruct (value_at s) as [v1 r1| | |] eqn:E1;
    [|discriminate|discriminate|contradiction].
  apply HS in E1.
  destruct (skip_ws r1) as [|c r] eqn:E2; [discriminate|].
  apply skip_ws_cons in E2.
  destruct (Ascii.eqb c "]"); [discriminate|].
  destruct (Ascii.eqb c ","); [|discriminate].
  apply HE. pose proof (skip_ws_length r). lia.
Qed.

Lemma members_step_total value_at members acc s :
  shrinks value_at ->
  (forall s', String.length s' < String.length s -> value_at s' <> OutOfFuel) ->
  (forall acc s', String.length s' + 1 < String.length s ->
                  members acc s' <> OutOfFuel) ->
  members_step value_at members acc s <> OutOfFuel.
Proof.
  intros HS HV HM. unfold members_step.
  destruct (scan_string s) as [[key r0]|] eqn:E0; [|discriminate].
  apply scan_string_length in E0.
  destruct (skip_ws r0) as [|c r] eqn:E1; [discriminate|].
  apply skip_ws_cons in E1.
  destruct (Ascii.eqb c ":"); [|discriminate].
  pose proof (skip_ws_length r) as L2.
  destruct (value_at (skip_ws r)) as [v2 r2| | |] eqn:E2;
    [|discriminate|discriminate|].
  - apply HS in E2.
    destruct (skip_ws r2) as [|c2 r3] eqn:E3; [discriminate|].
    apply skip_ws_cons in E3.
    destruct (Ascii.eqb c2 "}"); [discriminate|].
    destruct (Ascii.eqb c2 ","); [|discriminate].
    destruct (skip_ws r3) as [|c3 r4] eqn:E4; [discriminate|].
    apply skip_ws_cons in E4.
    destruct (Ascii.eqb c3 dquote); [|discriminate].
    apply HM. lia.
  - exfalso. revert E2. apply HV. lia.
Qed.

(** Fuel beyond twice the length of the text is never used up. *)
Lemma parse_fuel_enough fuel : forall room,
  (forall s, 2 * String.length s < fuel -> parse_value fuel room s <> OutOfFuel)
  /\ (forall acc s, 2 * String.length s + 1 < fuel ->
                    parse_elements fuel room acc s <> OutOfFuel)
  /\ (forall acc s, 2 * String.length s + 1 < fuel ->
                    parse_members fuel room acc s <> OutOfFuel).
Proof.
  induction fuel as [|fuel IH]; intros room.
  - repeat split; intros; lia.
  - destruct (IH room) as (IHv & IHe' & IHm').
    destruct (IH (Nat.pred room)) as (_ & IHe & IHm).
    pose proof (parse_shrinks fuel room) as (Sv & _ & _).
    split; [|split]; intros; cbn [parse_value parse_elements parse_members].
    + apply value_step_total; intros; [apply IHe|apply IHm]; lia.
    + apply elements_step_total; [exact Sv|apply IHv; lia|].
      intros; apply IHe'; lia.
    + apply members_step_total; [exact Sv| |];
        intros; [apply IHv|apply IHm']; lia.
Qed.

Theorem decode_total room s : decode room s <> OutOfFuel.
Proof.
  unfold decode.
  destruct (parse_value _ _ _) as [v rest| | |] eqn:E.
  - destruct (skip_ws rest); discriminate.
  - discriminate.
  - discriminate.
  - exfalso. revert E. apply (proj1 (parse_fuel_enough _ _)).
    pose proof (skip_ws_length s). lia.
Qed.

(** [json.loads] returns, rejects the text as malformed, or stops at one
    of the two limits: the fuel of the model plays no part. *)
Corollary loads_returns_or_rejects room s :
  (exists v, loads room s = Return v)
  \/ loads room s = Raise JSONDecodeError
  \/ (exists e, decode room s = Refused e /\ loads room s = Raise e).
Proof.
  unfold loads. pose proof (decode_total room s) as H.
  destruct (decode room s); [eauto|tauto|eauto|contradiction].
Qed.

(** *** More fuel changes nothing *)

Lemma at_most_refl r : at_most r r.
Proof. now right. Qed.

Lemma value_step_mono room elements elements' members members' s :
  (forall acc s', at_most (elements acc s') (elements' acc s')) ->
  (forall acc s', at_most (members acc s') (members' acc s')) ->
  at_most (value_step room elements members s)
          (value_step room elements' members' s).
Proof.
  intros HE HM. unfold value_step.
  destruct s as [|c s1]; [apply at_most_refl|].
  destruct (Ascii.eqb c dquote); [apply at_most_refl|].
  destruct (Ascii.eqb c "{").
  { destruct room as [|room]; [apply at_most_refl|].
    destruct (skip_ws s1) as [|c2 s3]; [apply at_most_refl|].
    destruct (Ascii.eqb c2 "}"); [apply at_most_refl|].
    destruct (Ascii.eqb c2 dquote); [apply HM|apply at_most_refl]. }
  destruct (Ascii.eqb c "[").
  { destruct room as [|room]; [apply at_most_refl|].
    destruct (skip_ws s1) as [|c2 s3]; [apply at_most_refl|].
    destruct (Ascii.eqb c2 "]"); [apply at_most_refl|apply HE]. }
  apply at_most_refl.
Qed.

Lemma elements_step_mono value_at value_at' elements elements' acc s :
  (forall s', at_most (value_at s') (value_at' s')) ->
  (forall acc s', at_most (elements acc s') (elements' acc s')) ->
  at_most (elements_step value_at elements acc s)
          (elements_step value_at' elements' acc s).
Proof.
  intros HV HE. unfold elements_step.
  destruct (HV s) as [-> | <-]; [now left|].
  destruct (value_at s) as [v1 r1| | |]; try apply at_most_refl.
  destruct (skip_ws r1) as [|c r]; [apply at_most_refl|].
  destruct (Ascii.eqb c "]"); [apply at_most_refl|].
  destruct (Ascii.eqb c ","); [apply HE|apply at_most_refl].
Qed.

Lemma members_step_mono value_at value_at' members members' acc s :
  (forall s', at_most (value_at s') (value_at' s')) ->
  (forall acc s', at_most (members acc s') (members' acc s')) ->
  at_most (members_step value_at members acc s)
          (members_step value_at' members' acc s).
Proof.
  intros HV HM. unfold members_step.
  destruct (scan_string s) as [[key r0]|]; [|apply at_most_refl].
  destruct (skip_ws r0) as [|c r]; [apply at_most_refl|].
  destruct (Ascii.eqb c ":"); [|apply at_most_refl].
  destruct (HV (skip_ws r)) as [-> | <-]; [now left|].
  destruct (value_at (skip_ws r)) as [v2 r2| | |]; try apply at_most_refl.
  destruct (skip_ws r2) as [|c2 r3]; [apply at_most_refl|].
  destruct (Ascii.eqb c2 "}"); [apply at_most_refl|].
  destruct (Ascii.eqb c2 ","); [|apply at_most_refl].
  destruct (skip_ws r3) as [|c3 r4]; [apply at_most_refl|].
  destruct (Ascii.eqb c3 dquote); [apply HM|apply at_most_refl].
Qed.

Lemma parse_more_fuel fuel : forall room,
  (forall s, at_most (parse_value fuel room s) (parse_value (S fuel) room s))
  /\ (forall acc s, at_most (parse_elements fuel room acc s)
                            (parse_elements (S fuel) room acc s))
  /\ (forall acc s, at_most (parse_members fuel room acc s)
                            (parse_members (S fuel) room acc s)).
Proof.
  induction fuel as [|fuel IH]; intros room.
  - repeat split; intros; now left.
  - destruct (IH room) as (IHv & IHe & IHm).
    destruct (IH (Nat.pred room)) as (_ & IHe' & IHm').
    split; [|split]; intros.
    + apply value_step_mono; assumption.
    + apply elements_step_mono; assumption.
    + apply members_step_mono; assumption.
Qed.

Lemma parse_value_mono fuel fuel' room s r :
  parse_value fuel room s = r -> r <> OutOfFuel -> fuel <= fuel' ->
  parse_value fuel' room s = r.
Proof.
  intros H Hr Hle. induction Hle as [|m Hle IH]; [exact H|].
  destruct (proj1 (parse_more_fuel m room) s) as [E|E]; congruence.
Qed.

(** A value parsed from the whole text with some fuel is what [loads]
    returns. *)
Lemma loads_of_parse fuel room s v rest :
  parse_value fuel room (skip_ws s) = Parsed v rest ->
  skip_ws rest = EmptyString ->
  loads room s = Return v.
Proof.
  intros H Hrest.
  set (own := S (2 * String.length s)).
  set (big := Nat.max fuel own).
  assert (Hbig : parse_value big room (skip_ws s) = Parsed v rest)
    by (apply (parse_value_mono fuel); [exact H|discriminate|lia]).
  assert (Hown : parse_value own room (skip_ws s) = Parsed v rest).
  { rewrite <- Hbig. symmetry.
    apply (parse_value_mono own); [reflexivity| |lia].
    apply (proj1 (parse_fuel_enough _ _)).
    pose proof (skip_ws_length s). unfold own. lia. }
  unfold loads, decode. fold own. rewrite Hown, Hrest. reflexivity.
Qed.

(** A refusal met with some fuel is the error that [loads] raises. *)
Lemma loads_of_refusal fuel room s e :
  parse_value fuel room (skip_ws s) = Refused e ->
  loads room s = Raise e.
Proof.
  intros H.
  set (own := S (2 * String.length s)).
  set (big := Nat.max fuel own).
  assert (Hbig : parse_value big room (skip_ws s) = Refused e)
    by (apply (parse_value_mono fuel); [exact H|discriminate|lia]).
  assert (Hown : parse_value own room (skip_ws s) = Refused e).
  { rewrite <- Hbig. symmetry.
    apply (parse_value_mono own); [reflexivity| |lia].
    apply (proj1 (parse_fuel_enough _ _)).
    pose proof (skip_ws_length s). unfold own. lia. }
  unfold loads, decode. fold own. now rewrite Hown.
Qed.

End JsonFuelProofs.

(** ** The JSON model: what [dumps] writes, [loads] reads back *)

Module JsonRoundTripProofs.
Import Json JsonSpec JsonFuelProofs EnvelopeSpec.

Lemma append_assoc_s (a b c : string) : (a ++ b) ++ c = a ++ (b ++ c).
Proof. induction a as [|x a IH]; simpl; [reflexivity|now rewrite IH]. Qed.

Lemma closes_cases rest :
  closes rest = true ->
  rest = EmptyString
  \/ exists r, rest = String "," r \/ rest = String "]" r \/ rest = String "}" r.
Proof.
  destruct rest as [|c r]; [now left|]. simpl. intros H. right. exists r.
  apply orb_true_iff in H as [H|H]; [apply orb_true_iff in H as [H|H]|];
    apply Ascii.eqb_eq in H; subst; auto.
Qed.

Ltac closes_split H :=
  apply closes_cases in H as [->|[r [->|[->| ->]]]].

(** *** Strings *)

Lemma scan_escape_char c tail :
  scan_string (escape_char c ++ tail)
  = cons_result (String c EmptyString) (scan_string tail).
Proof. destruct c as [[] [] [] [] [] [] [] []]; reflexivity. Qed.

Lemma scan_string_escape s rest :
  scan_string (escape s ++ String dquote rest) = Some (s, rest).
Proof.
  induction s as [|c s IH].
  - reflexivity.
  - cbn [escape]. rewrite append_assoc_s, scan_escape_char, IH. reflexivity.
Qed.

Lemma dump_string_unfold s rest :
  dump_string s ++ rest = String dquote (escape s ++ String dquote rest).
Proof. unfold dump_string. simpl. now rewrite append_assoc_s. Qed.

(** *** Integers *)

Lemma take_digits_closes rest :
  closes rest = true -> take_digits rest = (Decimal.Nil, rest).
Proof. intros H. closes_split H; reflexivity. Qed.

Lemma take_digits_uint d rest :
  closes rest = true ->
  take_digits (NilEmpty.string_of_uint d ++ rest) = (d, rest).
Proof.
  intros H. induction d; simpl; try (rewrite IHd; reflexivity).
  now apply take_digits_closes.
Qed.

Lemma scan_frac_closes rest :
  closes rest = true -> scan_frac rest = (EmptyString, rest).
Proof. intros H. closes_split H; reflexivity. Qed.

Lemma scan_exp_closes rest :
  closes rest = true -> scan_exp rest = (EmptyString, rest).
Proof. intros H. closes_split H; reflexivity. Qed.

(** The decimal digits of a positive number do not start with a zero. *)
Lemma to_uint_head p :
  match Pos.to_uint p with
  | Decimal.Nil | Decimal.D0 _ => False
  | _ => True
  end.
Proof.
  pose proof (DecimalPos.Unsigned.to_of (Pos.to_uint p)) as H.
  rewrite DecimalPos.Unsigned.of_to in H. simpl in H.
  pose proof (DecimalPos.Unsigned.to_uint_nonnil p) as Hnil.
  pose proof (DecimalPos.Unsigned.to_uint_nonzero p) as Hzero.
  pose proof (DecimalFacts.nzhead_nonzero (Pos.to_uint p)) as Hnz.
  unfold Decimal.unorm in H.
  destruct (Decimal.nzhead (Pos.to_uint p)) eqn:E;
    rewrite H in *; try exact I.
  - congruence.
  - exfalso. eapply Hnz. reflexivity.
Qed.

(** The text of a positive number: read as the digits it was written
    from, and taken for nothing else. *)
Lemma scan_positive p rest :
  closes rest = true ->
  let text := NilEmpty.string_of_uint (Pos.to_uint p) ++ rest in
  scan_uint text = Some (Pos.to_uint p, rest)
  /\ (forall room elements members,
        value_step room elements members text = scan_atom text)
  /\ String.prefix "null" text = false
  /\ String.prefix "true" text = false
  /\ String.prefix "false" text = false
  /\ split_sign text = (false, text)
  /\ is_ws (match text with String c _ => c | EmptyString => " "%char end) = false
  /\ Ascii.eqb (match text with String c _ => c | EmptyString => "]"%char end) "]"
     = false.
Proof.
  intros H text. subst text.
  pose proof (to_uint_head p) as Hh.
  pose proof (take_digits_uint (Pos.to_uint p) rest H) as Ht.
  destruct (Pos.to_uint p) as [|d|d|d|d|d|d|d|d|d|d]; try contradiction;
    (split; [rewrite <- Ht; reflexivity
            | repeat split; intros; reflexivity ]).
Qed.

(** The text of an integer is read as that integer, and then converted
    within the limit on its digits. *)
Lemma value_step_int_converted room elements members z rest :
  closes rest = true ->
  value_step room elements members (dump_int z ++ rest)
  = converted (VInt z) rest.
Proof.
  intros H. destruct z as [|p|p].
  - change (dump_int 0) with "0".
    change (value_step room elements members ("0" ++ rest))
      with (match (let '(frac, s3) := scan_frac rest in
                   let '(exp, s4) := scan_exp s3 in
                   match frac, exp with
                   | EmptyString, EmptyString => Some (VInt 0, s4)
                   | _, _ => Some (VFloat ("0" ++ frac ++ exp), s4)
                   end) with
            | Some (v, r) => converted v r
            | None => @Malformed value
            end).
    now rewrite (scan_frac_closes _ H), (scan_exp_closes _ H).
  - assert (E : dump_int (Z.pos p) = NilEmpty.string_of_uint (Pos.to_uint p)).
    { unfold dump_int. simpl.
      pose proof (DecimalPos.Unsigned.to_uint_nonnil p).
      destruct (Pos.to_uint p); [contradiction|reflexivity..]. }
    rewrite E.
    destruct (scan_positive p rest H) as (Hu & Hv & Hn & Ht & Hf & Hs & _).
    rewrite Hv. unfold scan_atom. rewrite Hn, Ht, Hf.
    unfold scan_number. rewrite Hs, Hu.
    rewrite (scan_frac_closes _ H), (scan_exp_closes _ H).
    change (Decimal.Pos (Pos.to_uint p)) with (Z.to_int (Z.pos p)).
    now rewrite DecimalZ.of_to.
  - assert (E : dump_int (Z.neg p)
                = String "-" (NilEmpty.string_of_uint (Pos.to_uint p))).
    { unfold dump_int. simpl.
      pose proof (DecimalPos.Unsigned.to_uint_nonnil p).
      destruct (Pos.to_uint p); [contradiction|reflexivity..]. }
    rewrite E.
    destruct (scan_positive p rest H) as (Hu & _).
    cbn [append].
    set (text := NilEmpty.string_of_uint (Pos.to_uint p) ++ rest) in *.
    change (value_step room elements members (String "-" text))
      with (match scan_number (String "-" text) with
            | Some (v, r) => converted v r
            | None =>
                if String.prefix "NaN" (String "-" text)
                then Parsed (VFloat "NaN") (drop 3 (String "-" text))
                else if String.prefix "Infinity" (String "-" text)
                then Parsed (VFloat "Infinity") (drop 8 (String "-" text))
                else if String.prefix "-Infinity" (String "-" text)
                then Parsed (VFloat "-Infinity") (drop 9 (String "-" text))
                else Malformed
            end).
    unfold scan_number.
    change (split_sign (String "-" text)) with (true, text). cbv beta iota.
    rewrite Hu, (scan_frac_closes _ H), (scan_exp_closes _ H).
    change (Decimal.Neg (Pos.to_uint p)) with (Z.to_int (Z.neg p)).
    now rewrite DecimalZ.of_to.
Qed.

Lemma value_step_int room elements members z rest :
  oversized z = false ->
  closes rest = true ->
  value_step room elements members (dump_int z ++ rest) = Parsed (VInt z) rest.
Proof.
  intros Hz H. rewrite (value_step_int_converted _ _ _ _ _ H).
  unfold converted. now rewrite Hz.
Qed.

(** *** The first character of a text *)

(** The text of a value starts with a character that is neither white
    space nor a closing bracket. *)
Lemma dump_head v rest :
  json_native v = true ->
  exists c s', dump v ++ rest = String c s'
               /\ is_ws c = false /\ Ascii.eqb c "]" = false.
Proof.
  destruct v as [|[]|z|lit|s|b|l|d]; try discriminate; intros _;
    try (eexists; eexists; split; [reflexivity|split; reflexivity]).
  destruct z as [|p|p].
  - eexists; eexists; split; [reflexivity|split; reflexivity].
  - cbn [dump]. unfold dump_int. simpl.
    pose proof (to_uint_head p) as Hh.
    destruct (Pos.to_uint p); try contradiction;
      (eexists; eexists; split; [reflexivity|split; reflexivity]).
  - eexists; eexists; split; [reflexivity|split; reflexivity].
Qed.

Lemma skip_ws_dump v rest :
  json_native v = true -> skip_ws (dump v ++ rest) = dump v ++ rest.
Proof.
  intros H. destruct (dump_head v rest H) as (c & s' & -> & Hw & _).
  simpl. now rewrite Hw.
Qed.


(** *** Sequences and mappings *)

Lemma concat_elements x l rest :
  (String.concat ", " (map dump (x :: l)) ++ "]") ++ rest
  = dump x ++ elements_tail l rest.
Proof.
  revert x. induction l as [|y l IH]; intros x.
  - simpl. now rewrite append_assoc_s.
  - change (String.concat ", " (map dump (x :: y :: l)))
      with (dump x ++ ", " ++ String.concat ", " (map dump (y :: l))).
    cbn [elements_tail]. rewrite <- (IH y).
    now rewrite !append_assoc_s.
Qed.

Lemma member_dump_text kv tail :
  member_dump kv ++ tail
  = String dquote (member_text (fst kv) (snd kv) tail).
Proof.
  unfold member_dump, member_text.
  rewrite append_assoc_s, dump_string_unfold. now rewrite append_assoc_s.
Qed.

Lemma concat_members kv d rest :
  (String.concat ", " (map member_dump (kv :: d)) ++ "}") ++ rest
  = String dquote (member_text (fst kv) (snd kv) (members_tail d rest)).
Proof.
  revert kv. induction d as [|kv' d IH]; intros kv.
  - change (String.concat ", " (map member_dump [kv])) with (member_dump kv).
    rewrite append_assoc_s, member_dump_text. reflexivity.
  - change (String.concat ", " (map member_dump (kv :: kv' :: d)))
      with (member_dump kv ++ ", "
              ++ String.concat ", " (map member_dump (kv' :: d))).
    cbn [members_tail]. rewrite <- (IH kv').
    rewrite !append_assoc_s, member_dump_text. reflexivity.
Qed.

Lemma closes_elements_tail l rest : closes (elements_tail l rest) = true.
Proof. destruct l; reflexivity. Qed.

Lemma closes_members_tail d rest : closes (members_tail d rest) = true.
Proof. destruct d; reflexivity. Qed.

Lemma parse_elements_dump l : forall x acc fuel room rest,
  reads_back x -> Forall reads_back l ->
  json_native x = true -> forallb json_native l = true ->
  fits x room = true -> forallb (fun y => fits y room) l = true ->
  closes rest = true ->
  elements_cost (x :: l) <= fuel ->
  parse_elements fuel room acc (dump x ++ elements_tail l rest)
  = Parsed (VList (acc ++ x :: l)) rest.
Proof.
  induction l as [|y l IH];
    intros x acc fuel room rest Hx Hl Nx Nl Fx Fl Hc Hf;
    (destruct fuel as [|fuel]; [simpl in Hf; lia|]);
    cbn [parse_elements]; unfold elements_step;
    cbn [elements_cost fold_right] in Hf.
  - rewrite (Hx Nx room); [|exact Fx|reflexivity|lia]. reflexivity.
  - rewrite (Hx Nx room);
      [|exact Fx|apply closes_elements_tail|fold (elements_cost l) in Hf; lia].
    cbn [elements_tail]. simpl in Nl. apply andb_true_iff in Nl as [Ny Nl].
    simpl in Fl. apply andb_true_iff in Fl as [Fy Fl].
    change (skip_ws (", " ++ dump y ++ elements_tail l rest))
      with (String "," (String " " (dump y ++ elements_tail l rest))).
    change (Ascii.eqb "," "]") with false. change (Ascii.eqb "," ",") with true.
    cbv iota.
    change (skip_ws (String " " (dump y ++ elements_tail l rest)))
      with (skip_ws (dump y ++ elements_tail l rest)).
    rewrite (skip_ws_dump _ _ Ny).
    inversion Hl as [|? ? Hy Hl']; subst.
    rewrite (IH y (acc ++ [x])%list fuel room rest Hy Hl' Ny Nl Fy Fl Hc).
    + now rewrite <- app_assoc.
    + cbn [elements_cost fold_right]. fold (elements_cost l) in Hf |- *. lia.
Qed.

Lemma string_in_app_cons k l1 l2 :
  distinct (l1 ++ k :: l2) = true -> string_in k l1 = false.
Proof.
  induction l1 as [|a l1 IH]; simpl; [reflexivity|].
  intros H. apply andb_true_iff in H as [Ha Hd].
  rewrite (IH Hd), orb_false_r.
  destruct (String.eqb_spec k a) as [->|]; [|reflexivity].
  exfalso. apply negb_true_iff in Ha.
  assert (Hin : string_in a (l1 ++ a :: l2) = true).
  { clear. induction l1 as [|b l1 IH]; simpl.
    - now rewrite String.eqb_refl.
    - now rewrite IH, orb_true_r. }
  congruence.
Qed.

(** A key that the mapping does not hold yet goes to its end. *)
Lemma dict_set_fresh k v (acc : dict) :
  string_in k (map fst acc) = false -> dict_set k v acc = (acc ++ [(k, v)])%list.
Proof.
  induction acc as [|[k' v'] acc IH]; simpl; [reflexivity|].
  intros H. apply orb_false_iff in H as [Hk Hrest].
  rewrite String.eqb_sym, Hk. now rewrite IH.
Qed.

Lemma parse_members_dump d : forall k v acc fuel room rest,
  reads_back v -> Forall (fun kv => reads_back (snd kv)) d ->
  json_native v = true -> forallb (fun kv => json_native (snd kv)) d = true ->
  fits v room = true -> forallb (fun kv => fits (snd kv) room) d = true ->
  distinct (map fst (acc ++ (k, v) :: d)) = true ->
  closes rest = true ->
  members_cost ((k, v) :: d) <= fuel ->
  parse_members fuel room acc (member_text k v (members_tail d rest))
  = Parsed (VDict (acc ++ (k, v) :: d)) rest.
Proof.
  induction d as [|[k' v'] d IH];
    intros k v acc fuel room rest Hv Hd Nv Nd Fv Fd Hk Hc Hf;
    (destruct fuel as [|fuel]; [simpl in Hf; lia|]);
    cbn [parse_members]; unfold members_step, member_text;
    rewrite scan_string_escape;
    cbn [members_cost fold_right snd] in Hf;
    change (skip_ws (": " ++ dump v ++ ?t)) with (String ":" (String " " (dump v ++ t)));
    change (Ascii.eqb ":" ":") with true; cbv iota;
    assert (Hfresh : dict_set k v acc = (acc ++ [(k, v)])%list)
      by (apply dict_set_fresh; rewrite map_app in Hk;
          exact (string_in_app_cons _ _ _ Hk)).
  - change (skip_ws (String " " (dump v ++ members_tail [] rest)))
      with (skip_ws (dump v ++ members_tail [] rest)).
    rewrite (skip_ws_dump _ _ Nv).
    rewrite (Hv Nv room); [|exact Fv|reflexivity|lia].
    cbn [members_tail]. rewrite Hfresh. reflexivity.
  - change (skip_ws (String " " (dump v ++ members_tail ((k', v') :: d) rest)))
      with (skip_ws (dump v ++ members_tail ((k', v') :: d) rest)).
    rewrite (skip_ws_dump _ _ Nv).
    rewrite (Hv Nv room);
      [|exact Fv|apply closes_members_tail|fold (members_cost d) in Hf; lia].
    cbn [members_tail fst snd]. rewrite Hfresh.
    change (skip_ws (", " ++ String dquote ?t)) with (String "," (String " " (String dquote t))).
    change (Ascii.eqb "," "}") with false. change (Ascii.eqb "," ",") with true.
    cbv iota.
    change (skip_ws (String " " (String dquote ?t))) with (String dquote t).
    change (Ascii.eqb dquote dquote) with true. cbv iota.
    simpl in Nd. apply andb_true_iff in Nd as [Nv' Nd].
    simpl in Fd. apply andb_true_iff in Fd as [Fv' Fd].
    inversion Hd as [|? ? Hv' Hd']; subst. simpl in Hv'.
    rewrite (IH k' v' (acc ++ [(k, v)])%list fuel room rest Hv' Hd' Nv' Nd
               Fv' Fd).
    + now rewrite <- app_assoc.
    + now rewrite <- app_assoc.
    + exact Hc.
    + cbn [members_cost fold_right snd]. fold (members_cost d) in Hf |- *. lia.
Qed.

Lemma prefix_empty s : String.prefix EmptyString s = true.
Proof. now destruct s. Qed.

Lemma value_step_constant room elements members rest :
  value_step room elements members ("null" ++ rest) = Parsed VNone rest
  /\ value_step room elements members ("true" ++ rest) = Parsed (VBool true) rest
  /\ value_step room elements members ("false" ++ rest)
     = Parsed (VBool false) rest.
Proof.
  repeat split; unfold value_step; simpl; unfold scan_atom; simpl;
    now rewrite prefix_empty.
Qed.

(** The text that [dumps] writes for a JSON-native value parses back to
    that value. *)
Lemma parse_dump v : reads_back v.
Proof.
  induction v as [|b|z|lit|s|b|l IH|d IH] using value_ind_nested;
    intros N room fuel rest F Hc Hf;
    try discriminate N;
    (destruct fuel as [|fuel]; [simpl in Hf; lia|]); cbn [parse_value].
  - apply value_step_constant.
  - destruct b; apply value_step_constant.
  - apply value_step_int; [|exact Hc].
    cbn [fits] in F. now apply negb_true_iff in F.
  - cbn [dump]. rewrite dump_string_unfold. unfold value_step.
    change (Ascii.eqb dquote dquote) with true. cbv iota.
    now rewrite scan_string_escape.
  - cbn [dump json_native] in *.
    destruct room as [|room]; [discriminate F|]. cbn [fits Nat.pred] in *.
    destruct l as [|x l].
    + reflexivity.
    + change (("[" ++ String.concat ", " (map dump (x :: l)) ++ "]") ++ rest)
        with (String "[" ((String.concat ", " (map dump (x :: l)) ++ "]") ++ rest)).
      rewrite concat_elements. unfold value_step.
      change (Ascii.eqb "[" dquote) with false.
      change (Ascii.eqb "[" "{") with false.
      change (Ascii.eqb "[" "[") with true. cbv iota.
      simpl in N. apply andb_true_iff in N as [Nx Nl].
      rewrite (skip_ws_dump _ _ Nx).
      destruct (dump_head x (elements_tail l rest) Nx) as (c & s' & E & _ & Hb).
      rewrite E, Hb, <- E.
      inversion IH as [|? ? Hx Hl]; subst.
      simpl in F. apply andb_true_iff in F as [Fx Fl].
      apply (parse_elements_dump l x [] fuel room rest Hx Hl Nx Nl Fx Fl Hc).
      cbn [cost] in Hf. fold (elements_cost (x :: l)) in Hf. lia.
  - cbn [dump json_native] in *.
    destruct room as [|room]; [discriminate F|]. cbn [fits Nat.pred] in *.
    destruct d as [|[k v] d].
    + reflexivity.
    + change (map (fun kv => dump_string (fst kv) ++ ": " ++ dump (snd kv)))
        with (map member_dump).
      change (("{" ++ String.concat ", " (map member_dump ((k, v) :: d)) ++ "}") ++ rest)
        with (String "{" ((String.concat ", " (map member_dump ((k, v) :: d)) ++ "}") ++ rest)).
      rewrite concat_members. unfold value_step.
      change (Ascii.eqb "{" dquote) with false.
      change (Ascii.eqb "{" "{") with true. cbv iota.
      change (skip_ws (String dquote ?t)) with (String dquote t).
      change (Ascii.eqb dquote "}") with false.
      change (Ascii.eqb dquote dquote) with true. cbv iota.
      apply andb_true_iff in N as [Nk N].
      simpl in N. apply andb_true_iff in N as [Nv Nd].
      inversion IH as [|? ? Hv Hd]; subst. simpl in Hv.
      simpl in F. apply andb_true_iff in F as [Fv Fd].
      apply (parse_members_dump d k v [] fuel room rest Hv Hd Nv Nd Fv Fd Nk Hc).
      cbn [cost] in Hf. fold (members_cost ((k, v) :: d)) in Hf. lia.
Qed.

Lemma append_empty_r (s : string) : s ++ EmptyString = s.
Proof. induction s as [|c s IH]; simpl; [reflexivity|now rewrite IH]. Qed.

(** [json.loads(json.dumps(v, ensure_ascii=False)) == v] for a JSON-native
    value within the limits of the decoder. *)
Theorem loads_dump room v :
  json_native v = true -> fits v room = true ->
  loads room (dump v) = Return v.
Proof.
  intros N F.
  apply (loads_of_parse (cost v) room (dump v) v EmptyString); [|reflexivity].
  pose proof (skip_ws_dump v EmptyString N) as Hs.
  rewrite append_empty_r in Hs. rewrite Hs.
  rewrite <- (append_empty_r (dump v)) at 1.
  now apply parse_dump.
Qed.

(** The encoder meets no error in a JSON-native value within its
    limits. *)
Lemma encode_error_fits v : forall room,
  json_native v = true -> fits v room = true -> encode_error v room = None.
Proof.
  induction v as [|b|z|lit|s|b|l IH|d IH] using value_ind_nested;
    intros room N F; try reflexivity; try discriminate N.
  - cbn [encode_error fits] in *. apply negb_true_iff in F. now rewrite F.
  - destruct room as [|room]; [discriminate F|].
    cbn [encode_error fits json_native] in *.
    induction l as [|x l IHl]; [reflexivity|].
    simpl in N, F. apply andb_true_iff in N as [Nx Nl].
    apply andb_true_iff in F as [Fx Fl].
    inversion IH as [|? ? Hx Hl]; subst.
    rewrite (Hx room Nx Fx). now apply IHl.
  - destruct room as [|room]; [discriminate F|].
    cbn [encode_error fits json_native] in *.
    apply andb_true_iff in N as [_ N].
    induction d as [|kv d IHd]; [reflexivity|].
    simpl in N, F. apply andb_true_iff in N as [Nv Nd].
    apply andb_true_iff in F as [Fv Fd].
    inversion IH as [|? ? Hv Hd]; subst.
    rewrite (Hv room Nv Fv). now apply IHd.
Qed.

(** An encoder that meets no error has walked a value within the
    limits. *)
Lemma encode_error_none v : forall room,
  encode_error v room = None -> serializable v = true /\ fits v room = true.
Proof.
  induction v as [|b|z|lit|s|b|l IH|d IH] using value_ind_nested;
    intros room E; try (split; reflexivity); try discriminate E.
  - cbn [encode_error fits serializable] in *.
    destruct (oversized z); [discriminate|]. now split.
  - destruct room as [|room]; [discriminate E|].
    cbn [encode_error fits serializable] in *.
    induction l as [|x l IHl]; [now split|].
    inversion IH as [|? ? Hx Hl]; subst.
    destruct (encode_error x room) eqn:Ex; [discriminate|].
    destruct (Hx room Ex) as [Sx Fx]. destruct (IHl Hl E) as [Sl Fl].
    simpl. now rewrite Sx, Fx, Sl, Fl.
  - destruct room as [|room]; [discriminate E|].
    cbn [encode_error fits serializable] in *.
    induction d as [|kv d IHd]; [now split|].
    inversion IH as [|? ? Hv Hd]; subst.
    destruct (encode_error (snd kv) room) eqn:Ev; [discriminate|].
    destruct (Hv room Ev) as [Sv Fv]. destruct (IHd Hd E) as [Sd Fd].
    simpl. now rewrite Sv, Fv, Sd, Fd.
Qed.

(** What [dumps] returns is the text of the value, and the value was
    within the limits of the encoder. *)
Lemma dumps_returns room v text :
  dumps room v = Return text ->
  text = dump v /\ serializable v = true /\ fits v room = true.
Proof.
  unfold dumps. destruct (encode_error v room) eqn:E; [discriminate|].
  intros [= <-]. split; [reflexivity|]. now apply encode_error_none.
Qed.

(** A value that holds [bytes] is not encoded. *)
Lemma dumps_unserializable room v :
  serializable v = false -> exists e, dumps room v = Raise e.
Proof.
  intros H. unfold dumps. destruct (encode_error v room) as [e|] eqn:E;
    [eauto|].
  apply encode_error_none in E as [S _]. congruence.
Qed.

Lemma json_native_serializable v : json_native v = true -> serializable v = true.
Proof.
  induction v as [|b|z|lit|s|b|l IH|d IH] using value_ind_nested;
    try reflexivity; try discriminate; cbn [json_native serializable]; intros N.
  - apply forallb_forall. intros x Hx.
    rewrite Forall_forall in IH. apply IH; [exact Hx|].
    rewrite forallb_forall in N. now apply N.
  - apply andb_true_iff in N as [_ N].
    apply forallb_forall. intros kv Hkv.
    rewrite Forall_forall in IH. apply IH; [exact Hkv|].
    rewrite forallb_forall in N. now apply N.
Qed.

Corollary loads_dumps encode_room decode_room v :
  json_native v = true ->
  fits v encode_room = true -> fits v decode_room = true ->
  exists text,
    dumps encode_room v = Return text /\ loads decode_room text = Return v.
Proof.
  intros N Fe Fd. exists (dump v). unfold dumps.
  rewrite (encode_error_fits v encode_room N Fe). split; [reflexivity|].
  now apply loads_dump.
Qed.

(** The text of an integer of more than [int_max_str_digits] digits is
    not read back: [loads] raises the ValueError of the conversion, which
    is no JSONDecodeError. *)
Lemma loads_oversized room z :
  oversized z = true ->
  loads room (dump_int z) = Raise (too_many_digits_to_read (int_digits z)).
Proof.
  intros Hz. apply (loads_of_refusal 1).
  pose proof (skip_ws_dump (VInt z) EmptyString eq_refl) as Hs.
  cbn [dump] in Hs. rewrite append_empty_r in Hs. rewrite Hs.
  cbn [parse_value]. rewrite <- (append_empty_r (dump_int z)).
  rewrite value_step_int_converted by reflexivity.
  unfold converted. now rewrite Hz.
Qed.

End JsonRoundTripProofs.

(** ** The KMS envelope: sealing and opening *)

Module EnvelopeProofs.
Import create_guardrail EnvelopeSpec Json JsonSpec JsonFuelProofs
  JsonRoundTripProofs.

Lemma fromhex_hex b : Hex.fromhex (Hex.hex b) = Return b.
Proof.
  induction b as [|c b IH]; [reflexivity|].
  cbn [Hex.hex].
  destruct c as [[] [] [] [] [] [] [] []];
    cbn [Hex.fromhex]; simpl; rewrite IH; reflexivity.
Qed.

Lemma subscript_has k d :
  dict_has k d = true -> exists v, subscript k d = Return v.
Proof.
  unfold dict_has, subscript. destruct (dict_get k d); [eauto|discriminate].
Qed.

Lemma subscript_get k d v : dict_get k d = Some v -> subscript k d = Return v.
Proof. unfold subscript. now intros ->. Qed.

(** [encrypt_data] on a key service that answers: the blob in hex. *)
Lemma encrypt_data_returns w key_id text context encrypted blob t :
  kms_encrypt w (kms_manager.encrypt_params key_id text context) = Return encrypted ->
  dict_get "CiphertextBlob" encrypted = Some (VBytes blob) ->
  dict_has "KeyId" encrypted = true ->
  exists key algorithm t',
    kms_manager.encrypt_data w key_id text context t
    = (Return [ ("CiphertextBlob", VStr (Hex.hex blob));
                ("KeyId", key);
                ("EncryptionAlgorithm", algorithm) ], t').
Proof.
  intros Hk Hb Hid.
  destruct (subscript_has _ _ Hid) as [key Hkey].
  unfold kms_manager.encrypt_data, Run.try_except, Run.bind at 1, Run.call.
  rewrite Hk. unfold Run.bind at 1, Run.lift.
  rewrite (subscript_get _ _ _ Hb).
  unfold Run.bind at 1. cbn [kms_manager.bytes_hex].
  unfold Run.bind at 1. rewrite Hkey. unfold Run.ret.
  eauto.
Qed.

(** [decrypt_data] on a key service that answers: the plaintext as text. *)
Lemma decrypt_data_returns w blob context decrypted text t :
  kms_decrypt w (kms_manager.decrypt_params (VBytes blob) context) = Return decrypted ->
  dict_get "Plaintext" decrypted = Some (VBytes text) ->
  dict_has "KeyId" decrypted = true ->
  exists key algorithm t',
    kms_manager.decrypt_data w (VStr (Hex.hex blob)) context t
    = (Return [ ("Plaintext", VStr text);
                ("KeyId", key);
                ("EncryptionAlgorithm", algorithm) ], t').
Proof.
  intros Hk Hp Hid.
  destruct (subscript_has _ _ Hid) as [key Hkey].
  unfold kms_manager.decrypt_data, Run.try_except, Run.bind at 1, Run.lift,
    kms_manager.bytes_fromhex.
  rewrite fromhex_hex. unfold Run.bind at 1, Run.call. rewrite Hk.
  unfold Run.bind at 1. rewrite (subscript_get _ _ _ Hp).
  unfold Run.bind at 1. cbn [kms_manager.bytes_decode].
  unfold Run.bind at 1. rewrite Hkey. unfold Run.ret.
  eauto.
Qed.

(** The inner [try] on a decrypted text, followed by the handler of the
    outer one. *)
Lemma parse_or_raw_opened w text key algorithm t :
  fst (Run.try_except
         (Run.lift
            (parse_or_raw w [ ("Plaintext", VStr text); ("KeyId", key);
                              ("EncryptionAlgorithm", algorithm) ]))
         (fun e =>
            Names.log_error_and_reraise
              ["self"; "encrypted_data"; "decrypted"; "e"] module_globals e) t)
  = opened w text.
Proof.
  unfold Run.try_except, Run.lift, parse_or_raw, opened.
  change (subscript "Plaintext" _) with (@Return value (VStr text)).
  cbn [json_loads].
  destruct (loads (json_decode_room w) text) as [v|e]; [reflexivity|].
  destruct e; cbn [is_json_decode_error]; try reflexivity;
    now rewrite (proj2 (EnvelopeFailureProofs.handler_raises_name_error _ t)).
Qed.


Lemma seal_returns self w data text blob t :
  data_text w data = Return text ->
  key_service_seals w (encryption_context self) text blob ->
  exists key algorithm t',
    _encrypt_sensitive_data self w data t
    = (Return [ ("encrypted", VBool true);
                ("data", VStr (Hex.hex blob));
                ("key_id", key);
                ("algorithm", algorithm) ], t').
Proof.
  intros Htext (encrypted & decrypted & He & Hb & Hid & _).
  destruct (encrypt_data_returns w (key_alias w) text
              (Some (encryption_context self)) encrypted blob t He Hb Hid)
    as (key & algorithm & t' & E).
  unfold _encrypt_sensitive_data, Run.try_except, Run.bind at 1, Run.lift.
  rewrite Htext. unfold Run.bind at 1. fold (key_alias w). rewrite E.
  exists key, algorithm, t'. reflexivity.
Qed.

Lemma open_returns self w text blob key algorithm t :
  key_service_seals w (encryption_context self) text blob ->
  fst (_decrypt_data self w
         [ ("encrypted", VBool true); ("data", VStr (Hex.hex blob));
           ("key_id", key); ("algorithm", algorithm) ] t)
  = opened w text.
Proof.
  intros (encrypted & decrypted & _ & _ & _ & Hd & Hp & Hid).
  destruct (decrypt_data_returns w blob (Some (encryption_context self))
              decrypted text t Hd Hp Hid) as (key' & algorithm' & t' & E).
  rewrite <- (parse_or_raw_opened w text key' algorithm' t').
  unfold _decrypt_data, Run.try_except, Run.bind at 1, Run.lift at 1.
  change (subscript "data" _) with (@Return value (VStr (Hex.hex blob))).
  unfold Run.bind at 1. rewrite E. reflexivity.
Qed.

Lemma opened_structured w data text :
  structured data = true ->
  data_text w data = Return text ->
  json_native (payload_value data) = true ->
  fits (payload_value data) (json_decode_room w) = true ->
  opened w text = Return (payload_value data).
Proof.
  intros Hs Htext Hn Hf. unfold opened.
  assert (Et : text = Json.dump (payload_value data)).
  { destruct data as [s|d|l]; [discriminate| |];
      cbn [data_text payload_value] in Htext |- *;
      now apply dumps_returns in Htext as [-> _]. }
  rewrite Et. now rewrite (loads_dump _ _ Hn Hf).
Qed.

Lemma open_refused other w blob key algorithm t :
  key_service_refuses w (encryption_context other) blob ->
  fst (_decrypt_data other w
         [ ("encrypted", VBool true); ("data", VStr (Hex.hex blob));
           ("key_id", key); ("algorithm", algorithm) ] t)
  = Raise (NameError "logger").
Proof.
  intros [e He].
  apply (EnvelopeFailureProofs.open_failure other w t _ (Hex.hex blob) blob e);
    [reflexivity|apply fromhex_hex|exact He].
Qed.

(** Sealing, then opening.  When the key service seals the text of the
    payload under the manager's encryption context, opening the sealed
    envelope under that context gives what the decoder makes of the text:
    a mapping or sequence of JSON-native values within the limits of the
    decoder comes back as it was, a string that is not JSON text comes
    back as it was, a string that is JSON text comes back as the parsed
    value, and a string on which the decoder stops for another reason
    (an integer of too many digits, nesting beyond the recursion limit)
    makes the opening raise the NameError of the handler.  Opening under
    a context for which the key service refuses to decrypt raises that
    NameError too and returns no value. *)
Theorem sealed_payload_opens
    (self : manager) (w : world) (data : payload) (text blob : string) :
  data_text w data = Return text ->
  key_service_seals w (encryption_context self) text blob ->
  exists envelope t,
    _encrypt_sensitive_data self w data [] = (Return envelope, t)
    /\ fst (_decrypt_data self w envelope t) = opened w text
    /\ (structured data = true ->
        json_native (payload_value data) = true ->
        fits (payload_value data) (json_decode_room w) = true ->
        fst (_decrypt_data self w envelope t) = Return (payload_value data))
    /\ (forall s, data = Text s ->
          Json.loads (json_decode_room w) s = Raise JSONDecodeError ->
          fst (_decrypt_data self w envelope t) = Return (VStr s))
    /\ (forall s v, data = Text s ->
          Json.loads (json_decode_room w) s = Return v ->
          fst (_decrypt_data self w envelope t) = Return v)
    /\ (forall s e, data = Text s ->
          Json.loads (json_decode_room w) s = Raise e ->
          e <> JSONDecodeError ->
          fst (_decrypt_data self w envelope t) = Raise (NameError "logger"))
    /\ (forall other,
          key_service_refuses w (encryption_context other) blob ->
          fst (_decrypt_data other w envelope t) = Raise (NameError "logger")).
Proof.
  intros Htext Hseal.
  destruct (seal_returns self w data text blob [] Htext Hseal)
    as (key & algorithm & t & E).
  eexists. exists t. split; [exact E|].
  pose proof (open_returns self w text blob key algorithm t Hseal) as Hopen.
  split; [exact Hopen|].
  split; [|split; [|split; [|split]]].
  - intros Hs Hn Hf. rewrite Hopen. now apply opened_structured.
  - intros s -> Hl. assert (Et : text = s) by (cbn in Htext; congruence).
    rewrite Hopen. unfold opened. now rewrite Et, Hl.
  - intros s v -> Hl. assert (Et : text = s) by (cbn in Htext; congruence).
    rewrite Hopen. unfold opened. now rewrite Et, Hl.
  - intros s e -> Hl He. assert (Et : text = s) by (cbn in Htext; congruence).
    rewrite Hopen. unfold opened. rewrite Et, Hl.
    destruct e; try reflexivity. contradiction.
  - intros other Hr. now apply open_refused.
Qed.

Lemma vault_seals_audit_snapshot :
  key_service_seals EnvelopeFixtures.vault
    (encryption_context EnvelopeFixtures.development)
    EnvelopeFixtures.audit_text EnvelopeFixtures.audit_blob.
Proof.
  eexists. eexists.
  split; [reflexivity|]. split; [reflexivity|]. split; [reflexivity|].
  split; [vm_compute; reflexivity|]. split; reflexivity.
Qed.

(** An audit snapshot sealed in the development environment: opened there
    it comes back as it was; the production manager, with another
    encryption context, gets an error. *)
Lemma sealed_payload_opens_witness :
  exists envelope t,
    _encrypt_sensitive_data EnvelopeFixtures.development EnvelopeFixtures.vault
      EnvelopeFixtures.audit_snapshot [] = (Return envelope, t)
    /\ fst (_decrypt_data EnvelopeFixtures.development EnvelopeFixtures.vault
              envelope t)
       = Return (payload_value EnvelopeFixtures.audit_snapshot)
    /\ fst (_decrypt_data EnvelopeFixtures.production EnvelopeFixtures.vault
              envelope t)
       = Raise (NameError "logger").
Proof.
  destruct (sealed_payload_opens EnvelopeFixtures.development
              EnvelopeFixtures.vault EnvelopeFixtures.audit_snapshot
              EnvelopeFixtures.audit_text EnvelopeFixtures.audit_blob
              eq_refl vault_seals_audit_snapshot)
    as (envelope & t & Hseal & _ & Hopen & _ & _ & _ & Hrefused).
  exists envelope, t.
  split; [exact Hseal|].
  split; [apply Hopen; reflexivity|].
  apply Hrefused. eexists. vm_compute. reflexivity.
Defined.



(** A string payload that is the text of an integer of more than 4300
    digits is sealed, but opening it raises: the decoder's ValueError is
    no JSONDecodeError, so the text is not handed back. *)
Lemma oversized_integer_text_does_not_open w z :
  Json.oversized z = true ->
  opened w (Json.dump_int z) = Raise (NameError "logger").
Proof.
  intros Hz. unfold opened. now rewrite (loads_oversized _ _ Hz).
Qed.


End EnvelopeProofs.

(** ** More on the grounding checks *)

Module GroundingMoreProofs.
Import create_guardrail ContextualGroundingCheck GroundingSpec VerdictSpec.

Lemma issubset_false a b :
  issubset a b = false <-> exists x, In x a /\ ~ In x b.
Proof.
  split.
  - intros H. unfold issubset in H.
    induction a as [|y a IH]; simpl in H; [discriminate|].
    destruct (string_in y b) eqn:E; simpl in H.
    + destruct (IH H) as (x & Hx & Hn). exists x. simpl. tauto.
    + exists y. split; [now left|].
      intros Hin. apply GroundingProofs.string_in_In in Hin. congruence.
  - intros (x & Hx & Hn).
    destruct (issubset a b) eqn:E; [|reflexivity].
    exfalso. apply Hn. exact (proj1 (GroundingProofs.issubset_incl a b) E x Hx).
Qed.

Lemma nonempty_of_In {x : string} {a} : In x a -> nonempty a = true.
Proof. destruct a; [contradiction|reflexivity]. Qed.

Lemma introduced_term_none_iff terms response context :
  introduced_term terms response context = None
  <-> (forall term, In term terms ->
         contains term (Re.lower response) = true ->
         contains term (Re.lower context) = true).
Proof.
  split; [|apply GroundingProofs.introduced_term_none].
  induction terms as [|t rest IH]; simpl; [tauto|].
  destruct (contains t (Re.lower response)) eqn:Er;
    destruct (contains t (Re.lower context)) eqn:Ec; simpl;
    try discriminate; intros H term [<-|Hin] Hc; auto; congruence.
Qed.

(** The factual check passes exactly when every numeric token of the
    response is a numeric token of the context and no listed term is
    introduced. *)
Theorem factual_check_passes_iff response context :
  fst (check_factual_consistency response context) = true
  <-> ((forall x, In x (numbers response) -> In x (numbers context))
       /\ terms_grounded response context).
Proof.
  split.
  - unfold check_factual_consistency. fold (numbers response) (numbers context).
    destruct (issubset (numbers response) (numbers context)) eqn:Es.
    + rewrite andb_false_r.
      destruct (introduced_term financial_terms response context) eqn:Et;
        [discriminate|]. intros _.
      split; [now apply GroundingProofs.issubset_incl|].
      exact (proj1 (introduced_term_none_iff _ _ _) Et).
    + destruct (nonempty (numbers response)) eqn:En; [discriminate|].
      destruct (numbers response); [|discriminate]. discriminate Es.
  - intros [Hn Ht]. now rewrite (GroundingProofs.factual_passes _ _ Hn Ht).
Qed.

(** The temporal check passes exactly when every date of the response is
    a date of the context. *)
Theorem temporal_check_passes_iff response context :
  fst (check_temporal_consistency response context) = true
  <-> (forall x, In x (dates response) -> In x (dates context)).
Proof.
  split.
  - unfold check_temporal_consistency. fold (dates response) (dates context).
    destruct (issubset (dates response) (dates context)) eqn:Es.
    + intros _. now apply GroundingProofs.issubset_incl.
    + destruct (nonempty (dates response)) eqn:En; [discriminate|].
      destruct (dates response); [|discriminate]. discriminate Es.
  - intros Hd. now rewrite (GroundingProofs.temporal_passes _ _ Hd).
Qed.

(** A numeric token that the context lacks decides the factual check: it
    fails with the reason about numbers, whatever the financial terms. *)
Theorem ungrounded_number_fails response context x :
  In x (numbers response) -> ~ In x (numbers context) ->
  check_factual_consistency response context
  = (false, "Response contains numbers not present in context").
Proof.
  intros Hx Hn. unfold check_factual_consistency.
  fold (numbers response) (numbers context).
  rewrite (nonempty_of_In Hx).
  assert (E : issubset (numbers response) (numbers context) = false)
    by (apply issubset_false; eauto).
  now rewrite E.
Qed.

Lemma ungrounded_number_fails_witness :
  check_factual_consistency "The rate is 5.5%" "Our rate is 5%"
  = (false, "Response contains numbers not present in context").
Proof.
  apply (ungrounded_number_fails _ _ "5.5").
  - vm_compute. tauto.
  - vm_compute. intros [H|[]]. discriminate H.
Defined.

(** A date that the context lacks makes the temporal check fail. *)
Theorem ungrounded_date_fails response context x :
  In x (dates response) -> ~ In x (dates context) ->
  check_temporal_consistency response context
  = (false, "Response introduces dates not present in context").
Proof.
  intros Hx Hn. unfold check_temporal_consistency.
  fold (dates response) (dates context).
  rewrite (nonempty_of_In Hx).
  assert (E : issubset (dates response) (dates context) = false)
    by (apply issubset_false; eauto).
  now rewrite E.
Qed.

Lemma ungrounded_date_fails_witness :
  check_temporal_consistency "Due on Jan 5, 2024" "Due on 2024-01-05"
  = (false, "Response introduces dates not present in context").
Proof.
  apply (ungrounded_date_fails _ _ "Jan 5, 2024").
  - vm_compute. tauto.
  - vm_compute. tauto.
Defined.

(** Any text is grounded in itself. *)
Theorem response_grounded_in_itself text :
  both_checks_pass text text /\ grounded text text.
Proof.
  assert (P : both_checks_pass text text).
  { split.
    - rewrite (GroundingProofs.factual_passes text text); [reflexivity|auto|].
      intros term _ H. exact H.
    - now rewrite (GroundingProofs.temporal_passes text text). }
  split; [exact P|now apply GroundingProofs.grounded_when_both_pass].
Qed.

(** The verdict of [check_grounding]: grounded exactly when both checks
    pass, one entry per check in the order factual, temporal, and one
    warning per failed check. *)
Theorem check_grounding_verdict response context :
  let '(fact, fact_reason) := check_factual_consistency response context in
  let '(temp, temp_reason) := check_temporal_consistency response context in
  check_grounding response context
  = [ ("is_grounded", VBool (fact && temp));
      ("checks", VList [ check_entry "factual_consistency" fact fact_reason;
                         check_entry "temporal_consistency" temp temp_reason ]);
      ("warnings", VList (warning_of "Factual" fact fact_reason
                            ++ warning_of "Temporal" temp temp_reason)) ].
Proof.
  unfold check_grounding.
  destruct (check_factual_consistency response context) as [[] fr];
    destruct (check_temporal_consistency response context) as [[] tr];
    reflexivity.
Qed.

End GroundingMoreProofs.

(** ** More on the validator and on create_banking_guardrail *)

Module CreationProofs.
Import create_guardrail ValidatorSpec OrderSpec CreationSpec.

(** Whatever the policy getters return, the assembled configuration has
    the seven required fields, with and without the KMS key. *)
Lemma assembled_config_complete self name field :
  In field required_fields ->
  dict_has field (assemble_config self name) = true
  /\ forall key, dict_has field
                   (dict_set "kmsKeyId" (VStr key) (assemble_config self name)) = true.
Proof.
  intros Hin. unfold assemble_config.
  destruct (_get_automated_reasoning_policy_config self); simpl in Hin;
    repeat (destruct Hin as [<-|Hin]; [split; [reflexivity|intros; reflexivity]|]);
    contradiction.
Qed.

(** The validator on an assembled configuration with its key: the two
    loops, evaluated. *)
Lemma validate_assembled self name kms_key_id :
  fst (_validate_guardrail_config
         (dict_set "kmsKeyId" (VStr kms_key_id) (assemble_config self name)))
  = groups_are_mappings self.
Proof.
  unfold groups_are_mappings, assemble_config, _validate_guardrail_config.
  destruct (_get_automated_reasoning_policy_config self); cbn;
    destruct (isinstance_dict (_get_content_policy_config self));
    destruct (isinstance_dict (_get_word_policy_config self));
    destruct (isinstance_dict (_get_topic_policy_config self)); reflexivity.
Qed.

(** The validation step of [create_banking_guardrail] rejects the assembled
    configuration exactly when one of the content, word and topic getters
    returns something that is not a mapping. *)
Theorem assembled_config_valid_iff self w guardrail_name kms_key_id :
  fst (_validate_guardrail_config
         (submitted_config self w guardrail_name kms_key_id))
  = groups_are_mappings self.
Proof.
  unfold submitted_config, groups_are_mappings, assemble_config,
    _validate_guardrail_config.
  destruct (_get_automated_reasoning_policy_config self); cbn;
    destruct (isinstance_dict (_get_content_policy_config self));
    destruct (isinstance_dict (_get_word_policy_config self));
    destruct (isinstance_dict (_get_topic_policy_config self)); reflexivity.
Qed.

(** The required scalar fields are only required to be present: any
    values do, and the three groups may be empty mappings. *)
Theorem validator_checks_presence_only (name description blocked_in blocked_out : value) :
  _validate_guardrail_config
    [ ("name", name); ("description", description);
      ("blockedInputMessaging", blocked_in);
      ("blockedOutputsMessaging", blocked_out);
      ("contentPolicyConfig", VDict []);
      ("wordPolicyConfig", VDict []);
      ("topicPolicyConfig", VDict []) ]
  = (true, "").
Proof. reflexivity. Qed.

(** The message for missing fields names all of them, in the order of the
    list of required fields. *)
Theorem missing_fields_all_reported config :
  missing_required config ->
  exists missing,
    _validate_guardrail_config config
    = (false, "Missing required fields: " ++ String.concat ", " missing)
    /\ (forall field,
          In field missing
          <-> (In field required_fields /\ dict_has field config = false)).
Proof.
  intros (field & Hin & Hmiss).
  exists (filter (fun f => negb (dict_has f config)) required_fields).
  split.
  - unfold _validate_guardrail_config.
    destruct (filter _ required_fields) as [|a rest] eqn:E; [|reflexivity].
    pose proof (ValidatorProofs.filter_nil_forall _ _ E field Hin) as H.
    simpl in H. rewrite Hmiss in H. discriminate.
  - intros f. rewrite filter_In, negb_true_iff. tauto.
Qed.

Lemma missing_fields_all_reported_witness :
  exists missing,
    _validate_guardrail_config [ ("name", VStr "g"); ("wordPolicyConfig", VDict []) ]
    = (false, "Missing required fields: " ++ String.concat ", " missing)
    /\ (forall field,
          In field missing
          <-> (In field required_fields
               /\ dict_has field [ ("name", VStr "g"); ("wordPolicyConfig", VDict []) ]
                  = false)).
Proof.
  apply missing_fields_all_reported.
  exists "description". split; [simpl; tauto|reflexivity].
Defined.

(** *** The run, case by case *)

Lemma enabled_match {A} (state : value) (a b : A) :
  match state with
  | VStr "Enabled" => a
  | _ => b
  end = if value_eqb state (VStr "Enabled") then a else b.
Proof.
  destruct state; try reflexivity. cbn [value_eqb].
  destruct (String.eqb_spec s "Enabled") as [->|Hne]; [reflexivity|].
  destruct s as [|a1 s]; [reflexivity|].
  repeat (match goal with
          | |- context [match ?x with EmptyString => _ | String _ _ => _ end] =>
              destruct x
          | |- context [match ?c with Ascii _ _ _ _ _ _ _ _ => _ end] =>
              destruct c as [[] [] [] [] [] [] [] []]
          end; try reflexivity; try (exfalso; apply Hne; reflexivity)).
Qed.

(** The verification of the key: the configuration with the key added,
    or a ValueError, after exactly one describe call. *)
Lemma kms_verified_config_result w kms_key_id config t :
  kms_verified_config w kms_key_id config t
  = (if key_usable w kms_key_id
     then Return (dict_set "kmsKeyId" (VStr kms_key_id) config)
     else Raise (ValueError ("Error accessing KMS key " ++ kms_key_id)),
     (t ++ [describe_key_call kms_key_id])%list).
Proof.
  unfold kms_verified_config, key_usable, Run.try_except, Run.bind, Run.call,
    Run.lift, describe_key_call.
  destruct (kms_describe_key w _) as [key_info|e]; [|reflexivity].
  unfold subscript.
  destruct (dict_get "KeyMetadata" key_info) as [metadata|]; [|reflexivity].
  destruct metadata; try reflexivity.
  cbn [item]. unfold subscript, dict_has, dict_get_default.
  destruct (dict_get "Arn" d) as [arn|]; [|reflexivity].
  destruct (dict_get "KeyState" d) as [state|]; [|reflexivity].
  rewrite enabled_match. cbn [andb].
  destruct (value_eqb state (VStr "Enabled")); reflexivity.
Qed.

(** What [submit_config] does with the answer of [create_guardrail]. *)
Lemma submit_config_result self w name config t :
  submit_config self w name config t
  = match bedrock_create_guardrail w config with
    | Raise _ => (Return None, (t ++ [create_guardrail_call config])%list)
    | Return response =>
        match dict_get "guardrailId" response with
        | None => (Return None, (t ++ [create_guardrail_call config])%list)
        | Some guardrail_id =>
            let details :=
              [ ("guardrail_id", guardrail_id); ("name", VStr name);
                ("region", VStr (region self));
                ("created_at", VStr (clock_iso w));
                ("arn", dict_get_default "guardrailArn" VNone response) ] in
            (match write_file w "guardrail_details.json" details with
             | Return _ => Return (Some guardrail_id)
             | Raise _ => Return None
             end,
             (t ++ [create_guardrail_call config;
                    EvWriteFile "guardrail_details.json" details])%list)
        end
    end.
Proof.
  unfold submit_config, Run.try_except, Run.bind, Run.call, Run.emit, Run.lift,
    Run.ret, create_guardrail_call.
  destruct (bedrock_create_guardrail w config) as [response|e]; [|reflexivity].
  destruct (dict_get "guardrailId" response) as [gid|]; [|reflexivity].
  cbv zeta. rewrite <- app_assoc.
  destruct (write_file w _ _); reflexivity.
Qed.

(** The whole run when a key is configured. *)
Lemma create_banking_guardrail_with_key self w guardrail_name c s :
  getenv w "KMS_KEY_ID" = Some (String c s) ->
  let kms_key_id := String c s in
  let config := submitted_config self w guardrail_name kms_key_id in
  create_banking_guardrail self w guardrail_name []
  = if key_usable w kms_key_id then
      if groups_are_mappings self then
        submit_config self w (effective_name self w guardrail_name) config
          [describe_key_call kms_key_id; EvValidate true]
      else (Return None, [describe_key_call kms_key_id; EvValidate false])
    else (Return None, [describe_key_call kms_key_id]).
Proof.
  intros Hkey kms_key_id config.
  unfold create_banking_guardrail. fold (effective_name self w guardrail_name).
  unfold Run.try_except at 1. rewrite Hkey.
  unfold Run.bind at 1. rewrite kms_verified_config_result. fold kms_key_id.
  destruct (key_usable w kms_key_id); [|reflexivity].
  fold (submitted_config self w guardrail_name kms_key_id). fold config.
  pose proof (validate_assembled self (effective_name self w guardrail_name)
                kms_key_id) as V.
  fold (submitted_config self w guardrail_name kms_key_id) in V.
  fold config in V.
  destruct (_validate_guardrail_config config) as [is_valid msg].
  simpl in V. subst is_valid.
  unfold Run.bind at 1, Run.emit at 1. cbn [app].
  destruct (groups_are_mappings self); cbn [negb]; [|reflexivity].
  rewrite submit_config_result.
  destruct (bedrock_create_guardrail w config) as [response|e]; [|reflexivity].
  destruct (dict_get "guardrailId" response); [|reflexivity].
  cbv zeta. destruct (write_file w _ _); reflexivity.
Qed.

(** [create_banking_guardrail] never raises: every failure ends as
    [None]. *)
Theorem create_banking_guardrail_never_raises self w guardrail_name t :
  exists result,
    fst (create_banking_guardrail self w guardrail_name t) = Return result.
Proof.
  unfold create_banking_guardrail, Run.try_except.
  match goal with
  | |- context [match ?m t with _ => _ end] => destruct (m t) as [[r|e] t']
  end; eexists; reflexivity.
Qed.

(** Without a KMS key in the environment (unset or empty) nothing is
    called and the result is [None]. *)
Theorem no_key_no_call self w guardrail_name :
  getenv w "KMS_KEY_ID" = None \/ getenv w "KMS_KEY_ID" = Some EmptyString ->
  create_banking_guardrail self w guardrail_name [] = (Return None, []).
Proof.
  intros [H|H]; unfold create_banking_guardrail, Run.try_except; rewrite H;
    reflexivity.
Qed.

Lemma no_key_no_call_witness :
  create_banking_guardrail Fixtures.banking_manager Fixtures.offline None []
  = (Return None, []).
Proof. apply no_key_no_call. left. reflexivity. Defined.

(** A key that cannot be described, has no ARN or is not Enabled stops the
    run after the describe call: nothing is validated or submitted. *)
Theorem unusable_key_stops_creation self w guardrail_name c s :
  getenv w "KMS_KEY_ID" = Some (String c s) ->
  key_usable w (String c s) = false ->
  create_banking_guardrail self w guardrail_name []
  = (Return None, [describe_key_call (String c s)]).
Proof.
  intros Hkey Hbad.
  rewrite (create_banking_guardrail_with_key self w guardrail_name c s Hkey).
  cbv zeta. now rewrite Hbad.
Qed.

Lemma unusable_key_stops_creation_witness :
  create_banking_guardrail Fixtures.banking_manager
    CreationFixtures.with_disabled_key None []
  = (Return None, [describe_key_call Fixtures.key_arn]).
Proof.
  exact (unusable_key_stops_creation Fixtures.banking_manager
           CreationFixtures.with_disabled_key None _ _ eq_refl eq_refl).
Defined.

(** With a usable key, well-shaped groups and an answer that carries a
    guardrail id, the id is returned; the configuration submitted is the
    assembled one plus the key, and the details record is written last. *)
Theorem creation_returns_remote_id self w guardrail_name c s response guardrail_id :
  getenv w "KMS_KEY_ID" = Some (String c s) ->
  key_usable w (String c s) = true ->
  groups_are_mappings self = true ->
  let config := submitted_config self w guardrail_name (String c s) in
  let details := details_record self w guardrail_name guardrail_id response in
  bedrock_create_guardrail w config = Return response ->
  dict_get "guardrailId" response = Some guardrail_id ->
  write_file w "guardrail_details.json" details = Return tt ->
  create_banking_guardrail self w guardrail_name []
  = (Return (Some guardrail_id),
     [ describe_key_call (String c s); EvValidate true;
       create_guardrail_call config;
       EvWriteFile "guardrail_details.json" details ]).
Proof.
  intros Hkey Hok Hshape config details Hcreate Hid Hwrite.
  rewrite (create_banking_guardrail_with_key self w guardrail_name c s Hkey).
  cbv zeta. rewrite Hok, Hshape, submit_config_result.
  fold config. rewrite Hcreate, Hid. cbv zeta.
  unfold details, details_record in Hwrite. rewrite Hwrite. reflexivity.
Qed.

Lemma creation_returns_remote_id_witness :
  fst (create_banking_guardrail Fixtures.banking_manager Fixtures.with_key None [])
  = Return (Some (VStr "gr-0001")).
Proof.
  exact (f_equal fst
           (creation_returns_remote_id Fixtures.banking_manager Fixtures.with_key
              None _ _ _ (VStr "gr-0001")
              eq_refl eq_refl eq_refl eq_refl eq_refl eq_refl)).
Defined.

(** When the details file cannot be written, the result is [None] although
    the guardrail has been created remotely. *)
Theorem unwritable_record_hides_created_guardrail
    self w guardrail_name c s response guardrail_id e :
  getenv w "KMS_KEY_ID" = Some (String c s) ->
  key_usable w (String c s) = true ->
  groups_are_mappings self = true ->
  let config := submitted_config self w guardrail_name (String c s) in
  let details := details_record self w guardrail_name guardrail_id response in
  bedrock_create_guardrail w config = Return response ->
  dict_get "guardrailId" response = Some guardrail_id ->
  write_file w "guardrail_details.json" details = Raise e ->
  create_banking_guardrail self w guardrail_name []
  = (Return None,
     [ describe_key_call (String c s); EvValidate true;
       create_guardrail_call config;
       EvWriteFile "guardrail_details.json" details ]).
Proof.
  intros Hkey Hok Hshape config details Hcreate Hid Hwrite.
  rewrite (create_banking_guardrail_with_key self w guardrail_name c s Hkey).
  cbv zeta. rewrite Hok, Hshape, submit_config_result.
  fold config. rewrite Hcreate, Hid. cbv zeta.
  unfold details, details_record in Hwrite. rewrite Hwrite. reflexivity.
Qed.

Lemma unwritable_record_hides_created_guardrail_witness :
  fst (create_banking_guardrail Fixtures.banking_manager
         CreationFixtures.read_only_disk None [])
  = Return None.
Proof.
  exact (f_equal fst
           (unwritable_record_hides_created_guardrail Fixtures.banking_manager
              CreationFixtures.read_only_disk None _ _ _ (VStr "gr-0001") _
              eq_refl eq_refl eq_refl eq_refl eq_refl eq_refl)).
Defined.

(** A rejected submission, or an answer without a guardrail id, gives
    [None], and no details record is written. *)
Theorem rejected_submission_writes_nothing self w guardrail_name c s :
  getenv w "KMS_KEY_ID" = Some (String c s) ->
  key_usable w (String c s) = true ->
  groups_are_mappings self = true ->
  let config := submitted_config self w guardrail_name (String c s) in
  (match bedrock_create_guardrail w config with
   | Raise _ => True
   | Return response => dict_get "guardrailId" response = None
   end) ->
  create_banking_guardrail self w guardrail_name []
  = (Return None,
     [ describe_key_call (String c s); EvValidate true;
       create_guardrail_call config ]).
Proof.
  intros Hkey Hok Hshape config Hcreate.
  rewrite (create_banking_guardrail_with_key self w guardrail_name c s Hkey).
  cbv zeta. rewrite Hok, Hshape, submit_config_result. fold config.
  destruct (bedrock_create_guardrail w config) as [response|e]; [|reflexivity].
  now rewrite Hcreate.
Qed.

Lemma rejected_submission_writes_nothing_witness :
  create_banking_guardrail Fixtures.banking_manager
    CreationFixtures.bedrock_down (Some "RetailGuardrail") []
  = (Return None,
     [ describe_key_call Fixtures.key_arn; EvValidate true;
       create_guardrail_call
         (submitted_config Fixtures.banking_manager CreationFixtures.bedrock_down
            (Some "RetailGuardrail") Fixtures.key_arn) ]).
Proof.
  exact (rejected_submission_writes_nothing Fixtures.banking_manager
           CreationFixtures.bedrock_down (Some "RetailGuardrail") _ _
           eq_refl eq_refl eq_refl I).
Defined.

End CreationProofs.

(** ** More on the key manager and the envelope helpers *)

Module KeyManagerProofs.
Import create_guardrail EnvelopeSpec.

(** [KMSKeyManager] hands the error of the key service on unchanged, from
    [encrypt_data] and from [decrypt_data]. *)
Theorem key_manager_reraises w t :
  (forall key_id text context e,
     kms_encrypt w (kms_manager.encrypt_params key_id text context) = Raise e ->
     fst (kms_manager.encrypt_data w key_id text context t) = Raise e)
  /\ (forall h blob context e,
        Hex.fromhex h = Return blob ->
        kms_decrypt w (kms_manager.decrypt_params (VBytes blob) context) = Raise e ->
        fst (kms_manager.decrypt_data w (VStr h) context t) = Raise e).
Proof.
  split.
  - intros. now apply EnvelopeFailureProofs.encrypt_data_raises.
  - intros. now apply EnvelopeFailureProofs.decrypt_data_raises with blob.
Qed.

Lemma key_manager_reraises_witness :
  fst (kms_manager.encrypt_data Fixtures.offline "alias/bedrock-guardrail-key"
         "secret" None [])
  = Raise (ClientError "NotFoundException" "no key").
Proof.
  exact (proj1 (key_manager_reraises Fixtures.offline [])
           "alias/bedrock-guardrail-key" "secret" None _ eq_refl).
Defined.

(** A ciphertext that is not hexadecimal is refused before the key service
    is called. *)
Theorem malformed_ciphertext_makes_no_call w h context t e :
  Hex.fromhex h = Raise e ->
  kms_manager.decrypt_data w (VStr h) context t = (Raise e, t).
Proof.
  intros H. unfold kms_manager.decrypt_data, Run.try_except, Run.bind, Run.lift,
    kms_manager.bytes_fromhex. rewrite H.
  destruct (kms_manager.is_client_error e);
    [rewrite EnvelopeFailureProofs.kms_manager_handler_reraises|]; reflexivity.
Qed.

Lemma malformed_ciphertext_makes_no_call_witness :
  kms_manager.decrypt_data EnvelopeFixtures.vault (VStr "0g") None []
  = (Raise (ValueError "non-hexadecimal number found in fromhex() arg"), []).
Proof. exact (malformed_ciphertext_makes_no_call _ "0g" None [] _ eq_refl). Defined.

(** The blob survives the hexadecimal form: what [decrypt_data] sends to
    the key service for the output of [encrypt_data] is the blob that the
    key service had produced. *)
Theorem ciphertext_survives_hex w key_id text context encrypted blob t :
  kms_encrypt w (kms_manager.encrypt_params key_id text context) = Return encrypted ->
  dict_get "CiphertextBlob" encrypted = Some (VBytes blob) ->
  dict_has "KeyId" encrypted = true ->
  exists sealed t1,
    kms_manager.encrypt_data w key_id text context t = (Return sealed, t1)
    /\ forall context' t2,
         snd (kms_manager.decrypt_data w
                (dict_get_default "CiphertextBlob" VNone sealed) context' t2)
         = (t2 ++ [EvCall "kms" "decrypt"
                     (kms_manager.decrypt_params (VBytes blob) context')])%list.
Proof.
  intros He Hb Hid.
  destruct (EnvelopeProofs.encrypt_data_returns w key_id text context encrypted
              blob t He Hb Hid) as (key & algorithm & t1 & E).
  eexists. exists t1. split; [exact E|].
  intros context' t2.
  replace (dict_get_default "CiphertextBlob" VNone _)
    with (VStr (Hex.hex blob)) by reflexivity.
  unfold kms_manager.decrypt_data, Run.try_except, Run.bind at 1, Run.lift,
    kms_manager.bytes_fromhex.
  rewrite EnvelopeProofs.fromhex_hex.
  unfold Run.bind at 1, Run.call.
  destruct (kms_decrypt w (kms_manager.decrypt_params (VBytes blob) context'))
    as [response|e].
  - unfold Run.bind, Run.lift, Run.ret.
    destruct (subscript "Plaintext" response) as [p|e1]; cbn;
      [destruct (kms_manager.bytes_decode p) as [x|e2]; cbn;
       [destruct (subscript "KeyId" response) as [k|e3]; cbn|]|];
      try reflexivity;
      match goal with
      | |- context [kms_manager.is_client_error ?e] =>
          destruct (kms_manager.is_client_error e);
          [rewrite EnvelopeFailureProofs.kms_manager_handler_reraises|];
          reflexivity
      end.
  - destruct (kms_manager.is_client_error e);
      [rewrite EnvelopeFailureProofs.kms_manager_handler_reraises|]; reflexivity.
Qed.

Lemma ciphertext_survives_hex_witness :
  exists sealed t1,
    kms_manager.encrypt_data EnvelopeFixtures.vault "alias/bedrock-guardrail-key"
      "secret" None [] = (Return sealed, t1)
    /\ forall context' t2,
         snd (kms_manager.decrypt_data EnvelopeFixtures.vault
                (dict_get_default "CiphertextBlob" VNone sealed) context' t2)
         = (t2 ++ [EvCall "kms" "decrypt"
                     (kms_manager.decrypt_params
                        (VBytes (EnvelopeFixtures.seal_tag (VDict []) ++ "secret"))
                        context')])%list.
Proof.
  exact (ciphertext_survives_hex EnvelopeFixtures.vault
           "alias/bedrock-guardrail-key" "secret" None _ _ []
           eq_refl eq_refl eq_refl).
Defined.

(** A payload that JSON cannot express (it holds bytes) is never sent to
    the key service; the caller gets the NameError of the handler. *)
Theorem unserializable_payload_makes_no_call self w data t :
  structured data = true ->
  Json.serializable (payload_value data) = false ->
  _encrypt_sensitive_data self w data t = (Raise (NameError "logger"), t).
Proof.
  intros Hs Hn.
  unfold _encrypt_sensitive_data, Run.try_except, Run.bind, Run.lift.
  destruct data as [s|d|l]; [discriminate| |];
    cbn [data_text payload_value] in *;
    destruct (JsonRoundTripProofs.dumps_unserializable (json_encode_room w) _ Hn)
      as [e ->];
    reflexivity.
Qed.

Lemma unserializable_payload_makes_no_call_witness :
  _encrypt_sensitive_data EnvelopeFixtures.development EnvelopeFixtures.vault
    (Sequence [VStr "card"; VBytes "4111"]) []
  = (Raise (NameError "logger"), []).
Proof.
  exact (unserializable_payload_makes_no_call _ _
           (Sequence [VStr "card"; VBytes "4111"]) [] eq_refl eq_refl).
Defined.

(** An envelope without its [data] entry is not sent to the key service
    either. *)
Theorem envelope_without_data_makes_no_call self w envelope t :
  dict_get "data" envelope = None ->
  _decrypt_data self w envelope t = (Raise (NameError "logger"), t).
Proof.
  intros H. unfold _decrypt_data, Run.try_except, Run.bind, Run.lift, subscript.
  rewrite H. reflexivity.
Qed.

Lemma envelope_without_data_makes_no_call_witness :
  _decrypt_data EnvelopeFixtures.development EnvelopeFixtures.vault
    [("encrypted", VBool true)] []
  = (Raise (NameError "logger"), []).
Proof.
  exact (envelope_without_data_makes_no_call _ _ [("encrypted", VBool true)] []
           eq_refl).
Defined.

End KeyManagerProofs.

(** ** More on deploy_guardrail.py *)

Module DeployMoreProofs.
Import deploy_guardrail PollSpec PollProofs DeploySpec.

(** *** The latest version *)

Lemma ascii_compare_lt_trans a b c :
  Ascii.compare a b = Lt -> Ascii.compare b c = Lt -> Ascii.compare a c = Lt.
Proof.
  unfold Ascii.compare. rewrite !N.compare_lt_iff. lia.
Qed.

Lemma string_compare_lt_trans : forall a b c,
  String.compare a b = Lt -> String.compare b c = Lt -> String.compare a c = Lt.
Proof.
  induction a as [|x a IH]; intros [|y b] [|z c]; simpl; try congruence.
  destruct (Ascii.compare x y) eqn:Exy; try discriminate.
  - apply Ascii.compare_eq_iff in Exy. subst y.
    destruct (Ascii.compare x z); try congruence. apply IH.
  - intros _. destruct (Ascii.compare y z) eqn:Eyz; try discriminate.
    + apply Ascii.compare_eq_iff in Eyz. subst z. now rewrite Exy.
    + intros _. now rewrite (ascii_compare_lt_trans _ _ _ Exy Eyz).
Qed.

Lemma ltb_trans a b c :
  String.ltb a b = true -> String.ltb b c = true -> String.ltb a c = true.
Proof.
  unfold String.ltb.
  destruct (String.compare a b) eqn:Eab; try discriminate.
  destruct (String.compare b c) eqn:Ebc; try discriminate.
  now rewrite (string_compare_lt_trans _ _ _ Eab Ebc).
Qed.

Lemma ltb_irrefl a : String.ltb a a = false.
Proof.
  unfold String.ltb. destruct (String.compare a a) eqn:E; try reflexivity.
  pose proof (String.compare_antisym a a) as H. rewrite E in H. discriminate.
Qed.

(** Nothing below [a] is above something above [a]. *)
Lemma ltb_above a b c :
  String.ltb a b = true -> String.ltb a c = false -> String.ltb b c = false.
Proof.
  intros Hab Hac. destruct (String.ltb b c) eqn:Hbc; [|reflexivity].
  now rewrite (ltb_trans _ _ _ Hab Hbc) in Hac.
Qed.

Lemma insert_desc_keyed v (Hv : dated v = true) : forall acc,
  keyed acc ->
  exists acc',
    insert_desc (VStr (stamp v)) v acc = Return acc'
    /\ keyed acc'
    /\ (forall x, In x acc' <-> x = (VStr (stamp v), v) \/ In x acc)
    /\ match acc with
       | [] => acc' = [(VStr (stamp v), v)]
       | (k', v') :: _ =>
           exists rest,
             acc' = (if String.ltb (stamp v') (stamp v)
                     then (VStr (stamp v), v) else (k', v')) :: rest
       end.
Proof.
  induction acc as [|[k' v'] acc IH]; intros Hk.
  - exists [(VStr (stamp v), v)]. repeat split.
    + constructor; [now split|constructor].
    + intros [<-|[]]. now left.
    + intros [->|[]]. now left.
  - inversion Hk as [|? ? [Hd' Hk'] Hrest]; subst. simpl in Hk'. subst k'.
    cbn [insert_desc key_lt].
    destruct (String.ltb (stamp v') (stamp v)) eqn:E.
    + eexists. split; [reflexivity|]. split; [|split].
      * constructor; [now split|exact Hk].
      * intros x. split;
          [intros [<-|H]; [now left|now right]
          |intros [->|H]; [now left|now right]].
      * eauto.
    + destruct (IH Hrest) as (rest' & -> & Hkr & Hin & _).
      eexists. split; [reflexivity|]. split; [|split].
      * constructor; [now split|exact Hkr].
      * intros x. simpl. rewrite Hin. tauto.
      * eauto.
Qed.

Lemma insert_desc_topped v acc acc' :
  dated v = true -> keyed acc -> topped acc ->
  insert_desc (VStr (stamp v)) v acc = Return acc' ->
  topped acc' /\ acc' <> [].
Proof.
  intros Hv Hk Ht Hi.
  destruct (insert_desc_keyed v Hv acc Hk) as (acc0 & E & _ & Hin & Hhead).
  rewrite E in Hi. injection Hi as <-.
  destruct acc as [|[k' v'] acc].
  - subst acc0. split; [|discriminate].
    intros x [<-|[]]. apply ltb_irrefl.
  - destruct Hhead as [rest Hhead]. rewrite Hhead. split; [|discriminate].
    rewrite <- Hhead. simpl in Ht.
    destruct (String.ltb (stamp v') (stamp v)) eqn:El; cbn [topped].
    + rewrite Hhead. cbn [topped]. rewrite <- Hhead.
      intros x Hx. apply Hin in Hx as [->|Hx]; [apply ltb_irrefl|].
      apply (ltb_above (stamp v')); [exact El|now apply Ht].
    + rewrite Hhead. cbn [topped]. rewrite <- Hhead.
      intros x Hx. apply Hin in Hx as [->|Hx]; [exact El|now apply Ht].
Qed.

Lemma sort_desc_topped : forall versions acc,
  forallb dated versions = true -> keyed acc -> topped acc ->
  exists sorted,
    sort_desc versions acc = Return sorted
    /\ keyed sorted /\ topped sorted
    /\ (forall v, In v (map snd sorted) <-> In v versions \/ In v (map snd acc))
    /\ (sorted = [] -> versions = [] /\ acc = []).
Proof.
  induction versions as [|v versions IH]; intros acc Hd Hk Ht.
  - exists acc. repeat split; try assumption; simpl; tauto.
  - simpl in Hd. apply andb_true_iff in Hd as [Hv Hd].
    cbn [sort_desc].
    assert (Ekey : method_get v "createdAt" (VStr "") = Return (VStr (stamp v))).
    { unfold dated, stamp, created_at in *. destruct v; try discriminate.
      cbn [method_get]. now destruct (dict_get_default _ _ _). }
    rewrite Ekey.
    destruct (insert_desc_keyed v Hv acc Hk) as (acc' & E & Hk' & Hin & _).
    destruct (insert_desc_topped v acc acc' Hv Hk Ht E) as [Ht' Hne].
    rewrite E.
    destruct (IH acc' Hd Hk' Ht') as (sorted & Es & Hks & Hts & Hins & Hnil).
    exists sorted. split; [exact Es|]. split; [exact Hks|].
    split; [exact Hts|]. split.
    + intros x. rewrite Hins. simpl. rewrite !in_map_iff.
      split.
      * intros [H|([k y] & <- & H)]; [tauto|].
        apply Hin in H as [[= -> ->]|H]; [tauto|].
        right. exists (k, y). now split.
      * intros [[<-|H]|([k y] & <- & H)]; [| tauto |].
        -- right. exists (VStr (stamp v), v). split; [reflexivity|].
           apply Hin. now left.
        -- right. exists (k, y). split; [reflexivity|]. apply Hin. now right.
    + intros Hs. destruct (Hnil Hs) as [_ Hacc]. contradiction.
Qed.

(** With versions whose creation times are strings, the version that
    [deploy_guardrail] picks belongs to an entry of the list than which no
    entry is newer. *)
Theorem latest_version_is_newest versions :
  versions <> [] ->
  forallb dated versions = true ->
  exists v,
    In v versions
    /\ latest_version versions = method_get v "version" VNone
    /\ forall v', In v' versions -> String.ltb (stamp v) (stamp v') = false.
Proof.
  intros Hne Hd.
  destruct (sort_desc_topped versions [] Hd (Forall_nil _) I)
    as (sorted & Es & Hk & Ht & Hin & Hnil).
  unfold latest_version. rewrite Es.
  destruct sorted as [|[k v] sorted].
  - destruct (Hnil eq_refl) as [-> _]. contradiction.
  - exists v. split; [|split].
    + destruct (proj1 (Hin v)) as [H|[]]; [now left|exact H].
    + reflexivity.
    + intros v' Hv'. cbn [topped] in Ht.
      assert (H : In v' (map snd ((k, v) :: sorted))) by (apply Hin; now left).
      apply in_map_iff in H as (x & <- & Hx). now apply Ht.
Qed.

Lemma latest_version_is_newest_witness :
  exists v,
    In v DeployFixtures.three_versions
    /\ latest_version DeployFixtures.three_versions
       = method_get v "version" VNone
    /\ forall v', In v' DeployFixtures.three_versions ->
         String.ltb (stamp v) (stamp v') = false.
Proof.
  apply (latest_version_is_newest DeployFixtures.three_versions);
    [discriminate|reflexivity].
Defined.

End DeployMoreProofs.

Module DeployRunProofs.
Import deploy_guardrail PollSpec PollProofs DeploySpec RequestSpec.

Lemma version_calls_app t1 t2 :
  version_calls (t1 ++ t2)%list = version_calls t1 + version_calls t2.
Proof. apply count_calls_app. Qed.

Lemma update_calls_app t1 t2 :
  update_calls (t1 ++ t2)%list = update_calls t1 + update_calls t2.
Proof. apply count_calls_app. Qed.

Lemma client_get_guardrail_eq w guardrail_id t :
  client_get_guardrail w guardrail_id t
  = (reply w guardrail_id (get_calls t), (t ++ [get_event guardrail_id])%list).
Proof. reflexivity. Qed.

(** The wait adds polls and sleeps to the trace, nothing else. *)
Lemma wait_for_activation_events w guardrail_id n : forall t,
  exists t',
    snd (wait_for_activation w guardrail_id n t) = (t ++ t')%list
    /\ version_calls t' = 0 /\ update_calls t' = 0.
Proof.
  induction n as [|n IH]; intros t.
  - exists []. simpl. rewrite app_nil_r. auto.
  - rewrite wait_for_activation_step. destruct (verdict _).
    + exists [get_event guardrail_id]. simpl. auto.
    + destruct (IH ((t ++ [get_event guardrail_id]) ++ [EvSleep 5])%list)
        as (t' & E & Hv & Hu).
      exists ([get_event guardrail_id; EvSleep 5] ++ t')%list. rewrite E.
      split; [now rewrite <- !app_assoc|].
      rewrite version_calls_app, update_calls_app, Hv, Hu.
      split; reflexivity.
Qed.

(** A wait that answers [True] ends with a poll whose answer was ACTIVE or
    READY. *)
Lemma wait_for_activation_true w guardrail_id n : forall t,
  fst (wait_for_activation w guardrail_id n t) = Return true ->
  exists between info,
    snd (wait_for_activation w guardrail_id n t)
    = (t ++ between ++ [get_event guardrail_id])%list
    /\ reply w guardrail_id (get_calls (t ++ between)%list) = Return info
    /\ successful (dict_get_default "status" VNone info) = true.
Proof.
  induction n as [|n IH]; intros t; [discriminate|].
  rewrite wait_for_activation_step.
  destruct (verdict (reply w guardrail_id (get_calls t))) as [r|] eqn:Ev.
  - cbn [fst snd]. intros ->. unfold verdict in Ev.
    destruct (reply w guardrail_id (get_calls t)) as [info|e] eqn:Er;
      [|discriminate].
    destruct (terminal _); [|discriminate].
    exists [], info. rewrite app_nil_r. cbn [app].
    split; [reflexivity|]. split; [exact Er|congruence].
  - intros H. destruct (IH _ H) as (between & info & Et & Er & Hs).
    exists ([get_event guardrail_id; EvSleep 5] ++ between)%list, info.
    split; [|split; [|exact Hs]].
    + rewrite Et. now rewrite <- !app_assoc.
    + rewrite <- Er. f_equal. now rewrite <- !app_assoc.
Qed.

(** [deploy_guardrail], step by step: every failure before the wait ends
    the run with [False]. *)
Lemma deploy_guardrail_run w guardrail_id version_id t :
  deploy_guardrail w guardrail_id version_id t
  = let t1 := (t ++ [get_event guardrail_id])%list in
    match reply w guardrail_id (get_calls t) with
    | Raise _ => (Return false, t1)
    | Return info =>
        match choose_version w guardrail_id version_id info t1 with
        | (Raise _, t2) | (Return None, t2) => (Return false, t2)
        | (Return (Some _), t2) =>
            match activation_config w guardrail_id info with
            | Raise _ => (Return false, t2)
            | Return config =>
                let t3 := (t2 ++ [update_event config])%list in
                match bedrock_update_guardrail w config with
                | Raise _ => (Return false, t3)
                | Return _ =>
                    match wait_for_activation w guardrail_id max_attempts t3
                    with
                    | (Return b, t4) => (Return b, t4)
                    | (Raise _, t4) => (Return false, t4)
                    end
                end
            end
        end
    end.
Proof.
  unfold deploy_guardrail, Run.try_except, Run.bind at 1, client_get_guardrail,
    Run.call at 1.
  fold (get_calls t). fold (get_params guardrail_id).
  fold (reply w guardrail_id (get_calls t)). fold (get_event guardrail_id).
  cbv zeta.
  destruct (reply w guardrail_id (get_calls t)) as [info|e]; [|reflexivity].
  unfold Run.bind at 1.
  destruct (choose_version w guardrail_id version_id info _) as [[[v|]|e] t2];
    try reflexivity.
  unfold Run.bind at 1, Run.lift.
  destruct (activation_config w guardrail_id info) as [config|e];
    [|reflexivity].
  unfold Run.bind at 1, Run.call, update_event.
  destruct (bedrock_update_guardrail w config); reflexivity.
Qed.

Lemma choose_version_given w guardrail_id version_id info t :
  truthy version_id = true ->
  choose_version w guardrail_id version_id info t = (Return (Some version_id), t).
Proof. intros H. unfold choose_version. now rewrite H. Qed.

(** Choosing a version makes no [update_guardrail] call. *)
Lemma choose_version_updates_nothing w guardrail_id version_id info t :
  update_calls (snd (choose_version w guardrail_id version_id info t))
  = update_calls t.
Proof.
  unfold choose_version.
  destruct (negb (truthy version_id)); [|reflexivity].
  destruct (negb (truthy _)).
  - unfold create_guardrail_version, Run.try_except, Run.bind, Run.call,
      Run.ret.
    destruct (bedrock_create_guardrail_version w _) as [response|e].
    + destruct (truthy (dict_get_default "version" VNone response)) eqn:E;
        cbn [fst snd]; rewrite ?E; cbn [fst snd negb truthy];
        rewrite update_calls_app; cbn; lia.
    + cbn [fst snd negb truthy]. rewrite update_calls_app. cbn. lia.
  - destruct (dict_get_default "versions" (VList []) info); try reflexivity.
    unfold Run.bind, Run.lift. now destruct (latest_version _).
Qed.

(** A deployment answers [True] only when its run ends with a
    [get_guardrail] request made after an [update_guardrail] request that
    the service accepted, and the answer to that last request showed the
    status ACTIVE or READY. *)
Theorem reported_success_was_observed w guardrail_id version_id t :
  fst (deploy_guardrail w guardrail_id version_id t) = Return true ->
  exists config before between info,
    snd (deploy_guardrail w guardrail_id version_id t)
    = (before ++ update_event config :: between
         ++ [get_event guardrail_id])%list
    /\ is_raise (bedrock_update_guardrail w config) = false
    /\ reply w guardrail_id
         (get_calls (before ++ update_event config :: between)%list)
       = Return info
    /\ successful (dict_get_default "status" VNone info) = true.
Proof.
  rewrite deploy_guardrail_run. cbv zeta.
  destruct (reply w guardrail_id (get_calls t)) as [info|e]; [|discriminate].
  destruct (choose_version w guardrail_id version_id info _) as [[[v|]|e] t2];
    try discriminate.
  destruct (activation_config w guardrail_id info) as [config|e];
    [|discriminate].
  destruct (bedrock_update_guardrail w config) as [response|e] eqn:Eu;
    [|discriminate].
  destruct (wait_for_activation w guardrail_id max_attempts
              (t2 ++ [update_event config])%list) as [[b|e] t4] eqn:Ew;
    [|discriminate].
  cbn [fst snd] in *. intros [= ->].
  destruct (wait_for_activation_true w guardrail_id max_attempts
              (t2 ++ [update_event config])%list) as (between & last & Et & Er & Hs).
  { now rewrite Ew. }
  rewrite Ew in Et. cbn [snd] in Et.
  exists config, t2, between, last.
  split; [|split; [|split]].
  - rewrite Et. now rewrite <- app_assoc.
  - now rewrite Eu.
  - rewrite <- Er. f_equal. now rewrite <- app_assoc.
  - exact Hs.
Qed.

Lemma reported_success_was_observed_witness :
  exists config before between info,
    snd (deploy_guardrail RemoteFixtures.activating "gr-0001" (VStr "1") [])
    = (before ++ update_event config :: between ++ [get_event "gr-0001"])%list
    /\ is_raise (bedrock_update_guardrail RemoteFixtures.activating config) = false
    /\ reply RemoteFixtures.activating "gr-0001"
         (get_calls (before ++ update_event config :: between)%list)
       = Return info
    /\ successful (dict_get_default "status" VNone info) = true.
Proof.
  exact (reported_success_was_observed RemoteFixtures.activating "gr-0001"
           (VStr "1") [] eq_refl).
Defined.

(** The version that the caller names is never sent: two deployments that
    name different versions are the same run, and neither creates a
    version. *)
Theorem given_version_is_never_sent w guardrail_id version_id other_id t :
  truthy version_id = true ->
  truthy other_id = true ->
  deploy_guardrail w guardrail_id version_id t
  = deploy_guardrail w guardrail_id other_id t
  /\ version_calls (snd (deploy_guardrail w guardrail_id version_id t))
     = version_calls t.
Proof.
  intros Hv Ho. rewrite !deploy_guardrail_run. cbv zeta.
  destruct (reply w guardrail_id (get_calls t)) as [info|e].
  2:{ split; [reflexivity|]. cbn [snd]. rewrite version_calls_app. cbn. lia. }
  rewrite !choose_version_given by assumption.
  split; [reflexivity|].
  destruct (activation_config w guardrail_id info) as [config|e].
  2:{ cbn [snd]. rewrite version_calls_app. cbn. lia. }
  destruct (bedrock_update_guardrail w config) as [response|e].
  2:{ cbn [snd]. rewrite !version_calls_app. cbn. lia. }
  destruct (wait_for_activation_events w guardrail_id max_attempts
              ((t ++ [get_event guardrail_id]) ++ [update_event config])%list)
    as (t' & Et & Hn & _).
  destruct (wait_for_activation w guardrail_id max_attempts _) as [[b|e] t4];
    cbn [snd] in *; subst t4; rewrite !version_calls_app, Hn; cbn; lia.
Qed.

Lemma given_version_is_never_sent_witness :
  deploy_guardrail RemoteFixtures.activating "gr-0001" (VStr "1") []
  = deploy_guardrail RemoteFixtures.activating "gr-0001" (VStr "7") []
  /\ version_calls
       (snd (deploy_guardrail RemoteFixtures.activating "gr-0001" (VStr "1") []))
     = version_calls [].
Proof.
  exact (given_version_is_never_sent RemoteFixtures.activating "gr-0001"
           (VStr "1") (VStr "7") [] eq_refl eq_refl).
Defined.



(** A guardrail that the service describes without a name is never
    updated. *)
Theorem nameless_guardrail_is_not_updated w guardrail_id version_id t info :
  reply w guardrail_id (get_calls t) = Return info ->
  dict_get "name" info = None ->
  fst (deploy_guardrail w guardrail_id version_id t) = Return false
  /\ update_calls (snd (deploy_guardrail w guardrail_id version_id t))
     = update_calls t.
Proof.
  intros Hr Hn. rewrite deploy_guardrail_run. cbv zeta. rewrite Hr.
  pose proof (choose_version_updates_nothing w guardrail_id version_id info
                (t ++ [get_event guardrail_id])%list) as Hc.
  rewrite update_calls_app in Hc. change (update_calls [get_event guardrail_id])
    with 0 in Hc. rewrite Nat.add_0_r in Hc.
  unfold activation_config, subscript. rewrite Hn.
  destruct (choose_version w guardrail_id version_id info _) as [[[v|]|e] t2];
    cbn [fst snd] in *; auto.
Qed.

Lemma nameless_guardrail_is_not_updated_witness :
  fst (deploy_guardrail DeployFixtures.nameless "gr-0001" (VStr "1") [])
  = Return false
  /\ update_calls
       (snd (deploy_guardrail DeployFixtures.nameless "gr-0001" (VStr "1") []))
     = update_calls [].
Proof.
  exact (nameless_guardrail_is_not_updated DeployFixtures.nameless "gr-0001"
           (VStr "1") [] _ eq_refl eq_refl).
Defined.



(** Without a version to deploy (none named, none listed, none could be
    created) the guardrail is not updated: the run is the read and the
    request for a version. *)
Theorem no_version_stops_deploy w guardrail_id version_id t info :
  truthy version_id = false ->
  reply w guardrail_id (get_calls t) = Return info ->
  truthy (dict_get_default "versions" (VList []) info) = false ->
  match bedrock_create_guardrail_version w
          (create_version_params w guardrail_id) with
  | Return response => truthy (dict_get_default "version" VNone response)
  | Raise _ => false
  end = false ->
  deploy_guardrail w guardrail_id version_id t
  = (Return false,
     (t ++ [get_event guardrail_id;
            create_version_call (create_version_params w guardrail_id)])%list).
Proof.
  intros Hv Hr Hl Hc. rewrite deploy_guardrail_run. cbv zeta. rewrite Hr.
  unfold choose_version. rewrite Hv, Hl. cbn [negb].
  unfold create_guardrail_version, Run.try_except, Run.bind, Run.call, Run.ret,
    create_version_call.
  destruct (bedrock_create_guardrail_version w _) as [response|e].
  - rewrite Hc. cbn [truthy negb]. now rewrite <- app_assoc.
  - cbn [truthy negb]. now rewrite <- app_assoc.
Qed.

Lemma no_version_stops_deploy_witness :
  deploy_guardrail (DeployFixtures.frozen (fun _ => "READY")) "gr-0001" VNone []
  = (Return false,
     [get_event "gr-0001";
      create_version_call
        (create_version_params (DeployFixtures.frozen (fun _ => "READY"))
           "gr-0001")]).
Proof.
  exact (no_version_stops_deploy (DeployFixtures.frozen (fun _ => "READY"))
           "gr-0001" VNone [] _ eq_refl eq_refl eq_refl eq_refl).
Defined.

Lemma subscript_same k a b :
  dict_get k a = dict_get k b -> subscript k a = subscript k b.
Proof. unfold subscript. now intros ->. Qed.

Lemma dict_get_default_same k default a b :
  dict_get k a = dict_get k b ->
  dict_get_default k default a = dict_get_default k default b.
Proof. unfold dict_get_default. now intros ->. Qed.

(** The activation request depends on the guardrail read only through its
    name and its two blocked messages: whatever policies the guardrail
    holds, the request is the same. *)
Theorem activation_request_ignores_remote_policies w guardrail_id a b :
  same_name_and_messages a b ->
  activation_config w guardrail_id a = activation_config w guardrail_id b.
Proof.
  intros (Hn & Hi & Ho). unfold activation_config.
  rewrite (subscript_same _ _ _ Hn).
  rewrite (dict_get_default_same _ _ _ _ Hi), (dict_get_default_same _ _ _ _ Ho).
  reflexivity.
Qed.

Lemma activation_request_ignores_remote_policies_witness :
  activation_config RemoteFixtures.activating "gr-0001"
    (RemoteFixtures.remote_guardrail "READY")
  = activation_config RemoteFixtures.activating "gr-0001"
      [ ("name", VStr "BankingVoiceBotGuardrail-20240115093000");
        ("blockedInputMessaging", VStr "I'm sorry, but I can't process that request.");
        ("blockedOutputsMessaging", VStr "I'm sorry, but I can't provide that information.") ].
Proof.
  apply activation_request_ignores_remote_policies.
  repeat split.
Defined.

(** *** The entry point *)

(** [main] leaves alone a guardrail that is ACTIVE and one that it cannot
    read: its only request is the first read.  *)
Theorem main_leaves_active_guardrail_alone w guardrail_id version t :
  match reply w guardrail_id (get_calls t) with
  | Return info => dict_get "status" info = Some (VStr "ACTIVE")
  | Raise _ => True
  end ->
  deploy_guardrail_main.main w guardrail_id version t
  = (Return tt, (t ++ [get_event guardrail_id])%list).
Proof.
  intros H. unfold deploy_guardrail_main.main, Run.try_except, Run.bind at 1,
    get_guardrail_status, Run.try_except, Run.bind at 1.
  rewrite client_get_guardrail_eq.
  destruct (reply w guardrail_id (get_calls t)) as [info|e]; [|reflexivity].
  cbn [negb]. unfold Run.ret at 1, dict_get_default. rewrite H. reflexivity.
Qed.

Lemma main_leaves_active_guardrail_alone_witness :
  deploy_guardrail_main.main (RemoteFixtures.serving (fun _ => "ACTIVE"))
    "gr-0001" VNone []
  = (Return tt, [get_event "gr-0001"]).
Proof.
  exact (main_leaves_active_guardrail_alone
           (RemoteFixtures.serving (fun _ => "ACTIVE")) "gr-0001" VNone []
           eq_refl).
Defined.

End DeployRunProofs.

(** ** The bound of the poll loop *)

Module PollBoundProofs.
Import deploy_guardrail PollSpec PollProofs DeploySpec DeployRunProofs.

(** Choosing a version makes no [get_guardrail] call. *)
Lemma choose_version_reads_nothing w guardrail_id version_id info t :
  get_calls (snd (choose_version w guardrail_id version_id info t))
  = get_calls t.
Proof.
  unfold choose_version.
  destruct (negb (truthy version_id)); [|reflexivity].
  destruct (negb (truthy _)).
  - unfold create_guardrail_version, Run.try_except, Run.bind, Run.call,
      Run.ret.
    destruct (bedrock_create_guardrail_version w _) as [response|e].
    + destruct (truthy (dict_get_default "version" VNone response)) eqn:E;
        cbn [fst snd]; rewrite ?E; cbn [fst snd negb truthy];
        unfold get_calls; rewrite count_calls_app; cbn; lia.
    + cbn [fst snd negb truthy]. unfold get_calls.
      rewrite count_calls_app. cbn. lia.
  - destruct (dict_get_default "versions" (VList []) info); try reflexivity.
    unfold Run.bind, Run.lift. now destruct (latest_version _).
Qed.

Lemma get_calls_after_update_event t config :
  get_calls (t ++ [update_event config])%list = get_calls t.
Proof.
  unfold get_calls. rewrite count_calls_app.
  change (count_calls "get_guardrail" [update_event config]) with 0. lia.
Qed.

(** C4: the poll loop of [deploy_guardrail] is bounded by [max_attempts],
    the constant 10 inside the function, which no caller can change.  For
    every world, guardrail and version argument the run makes at most 10
    polls after its first read.  When the run reaches the loop (the
    guardrail is read, a version is at hand, the update is accepted), it
    stops at the first terminal status (ACTIVE, READY, FAILED or ERROR),
    with [True] exactly for ACTIVE and READY and as many polls as it took
    to see that status; when the ten polls see no terminal status it
    returns [False] after exactly 10 polls. *)
Theorem deploy_polls_at_most_ten_times_and_stops_at_first_terminal
    (w : world) (guardrail_id : string) (version_id : value) :
  let run := deploy_guardrail w guardrail_id version_id [] in
  let polled := polls [get_event guardrail_id] (snd run) in
  max_attempts = 10
  /\ polled <= max_attempts
  /\ (forall info chosen t2 config response,
        reply w guardrail_id 0 = Return info ->
        choose_version w guardrail_id version_id info [get_event guardrail_id]
        = (Return (Some chosen), t2) ->
        activation_config w guardrail_id info = Return config ->
        bedrock_update_guardrail w config = Return response ->
        (forall k status,
           k < max_attempts ->
           never_settles w guardrail_id [get_event guardrail_id] k ->
           status_of (reply w guardrail_id (S k)) = Some status ->
           terminal status = true ->
           fst run = Return (successful status) /\ polled = S k)
        /\ (never_settles w guardrail_id [get_event guardrail_id] max_attempts ->
            fst run = Return false /\ polled = max_attempts)).
Proof.
  intros run polled. split; [reflexivity|].
  assert (Erun : run = deploy_guardrail w guardrail_id version_id []) by reflexivity.
  rewrite deploy_guardrail_run in Erun. cbv zeta in Erun.
  change (get_calls []) with 0 in Erun. cbn [app] in Erun.
  split.
  - unfold polled, polls. rewrite Erun.
    change (get_calls [get_event guardrail_id]) with 1.
    destruct (reply w guardrail_id 0) as [info|e]; [|cbn; lia].
    pose proof (choose_version_reads_nothing w guardrail_id version_id info
                  [get_event guardrail_id]) as Hc.
    change (get_calls [get_event guardrail_id]) with 1 in Hc.
    destruct (choose_version w guardrail_id version_id info _)
      as [[[v|]|e] t2]; cbn [snd] in Hc |- *; try lia.
    destruct (activation_config w guardrail_id info) as [config|e];
      cbn [snd]; [|lia].
    pose proof (get_calls_after_update_event t2 config) as Hu.
    destruct (bedrock_update_guardrail w config) as [response|e];
      cbn [snd]; [|lia].
    destruct (wait_for_activation_bound w guardrail_id max_attempts
                (t2 ++ [update_event config])%list) as [_ Hb].
    unfold polls in Hb.
    destruct (wait_for_activation w guardrail_id max_attempts _)
      as [[b|e] t4]; cbn [snd] in *; lia.
  - intros info chosen t2 config response Hr Hc Ha Hu.
    rewrite Hr, Hc, Ha, Hu in Erun.
    assert (E2 : get_calls t2 = 1).
    { pose proof (choose_version_reads_nothing w guardrail_id version_id info
                    [get_event guardrail_id]) as H.
      now rewrite Hc in H. }
    assert (E3 : get_calls (t2 ++ [update_event config])%list = 1)
      by (now rewrite get_calls_after_update_event).
    destruct (wait_for_activation_polls w guardrail_id max_attempts
                (t2 ++ [update_event config])%list) as (_ & Hstop & Hall).
    rewrite E3 in Hstop, Hall. unfold polls in Hstop, Hall.
    rewrite E3 in Hstop, Hall.
    unfold polled, polls. change (get_calls [get_event guardrail_id]) with 1.
    split.
    + intros k status Hk Hbefore Hs Ht.
      destruct (Hstop k status Hk Hbefore Hs Ht) as [Hp Hf].
      rewrite Erun.
      destruct (wait_for_activation w guardrail_id max_attempts _)
        as [[b|e] t4]; cbn [fst snd] in *; [|discriminate].
      split; [exact Hf|exact Hp].
    + intros Hnever.
      destruct (Hall Hnever) as [Hp Hf].
      rewrite Erun.
      destruct (wait_for_activation w guardrail_id max_attempts _)
        as [[b|e] t4]; cbn [fst snd] in *; [|discriminate].
      split; [exact Hf|exact Hp].
Qed.

(** The example of the specification in the program: a guardrail that is
    CREATING at the first read and at two polls and ACTIVE at the third
    poll is deployed with [True] after exactly 3 polls. *)
Lemma deploy_polls_at_most_ten_times_and_stops_at_first_terminal_witness :
  let w := RemoteFixtures.scripted ["CREATING"; "CREATING"; "CREATING"; "ACTIVE"] in
  fst (deploy_guardrail w "gr-0001" (VStr "1") []) = Return true
  /\ polls [get_event "gr-0001"] (snd (deploy_guardrail w "gr-0001" (VStr "1") []))
     = 3.
Proof.
  intros w.
  refine (proj1 (proj2 (proj2
            (deploy_polls_at_most_ten_times_and_stops_at_first_terminal
               w "gr-0001" (VStr "1")))
            _ _ _ _ _ eq_refl eq_refl eq_refl eq_refl)
            2 (VStr "ACTIVE") _ _ eq_refl eq_refl).
  - unfold max_attempts. lia.
  - intros i Hi. destruct i as [|[|i]]; [reflexivity|reflexivity|lia].
Defined.

(** The bound is not the caller's: whatever the caller would allow, a
    guardrail that stays CREATING is polled 10 times, not the 5 times of
    the specification's example. *)
Lemma never_settling_guardrail_is_polled_ten_times :
  let run :=
    deploy_guardrail RemoteFixtures.always_creating "gr-0001" (VStr "1") [] in
  fst run = Return false
  /\ polls [get_event "gr-0001"] (snd run) = 10
  /\ ~ polls [get_event "gr-0001"] (snd run) <= 5.
Proof.
  intros run.
  assert (E : polls [get_event "gr-0001"] (snd run) = 10) by (vm_compute; reflexivity).
  split; [vm_compute; reflexivity|]. split; [exact E|]. rewrite E. lia.
Qed.

End PollBoundProofs.

(** ** More on create_guardrail_version.py *)

Module VersioningProofs.
Import create_guardrail_version PollSpec PollProofs DeploySpec RequestSpec
  VersioningSpec.

Lemma value_eqb_str x s : value_eqb x (VStr s) = true -> x = VStr s.
Proof.
  destruct x; simpl; try discriminate.
  intros H. apply String.eqb_eq in H. now subst.
Qed.

(** The status that is reported after the last read: the comparison with
    the new version changes nothing. *)
Lemma reported_status guardrail version_id :
  (if value_eqb (dict_get_default "status" VNone guardrail) (VStr "ACTIVE")
      && value_eqb (dict_get_default "version" VNone guardrail) version_id
   then VStr "ACTIVE"
   else dict_get_default "status" (VStr "UNKNOWN") guardrail)
  = dict_get_default "status" (VStr "UNKNOWN") guardrail.
Proof.
  destruct (value_eqb (dict_get_default "status" VNone guardrail) (VStr "ACTIVE"))
    eqn:Es; [|reflexivity].
  destruct (value_eqb (dict_get_default "version" VNone guardrail) version_id);
    [|reflexivity].
  apply value_eqb_str in Es. unfold dict_get_default in *.
  destruct (dict_get "status" guardrail); [now subst|discriminate].
Qed.

(** Activation, step by step. *)
Lemma activate_version_run w guardrail_id name version_id t :
  activate_version w guardrail_id name version_id t
  = let t1 := (t ++ [get_event guardrail_id])%list in
    match reply w guardrail_id (get_calls t) with
    | Raise _ => (Return (VStr "DRAFT"), t1)
    | Return current =>
        let request := update_params guardrail_id name version_id current in
        let t2 := (t1 ++ [update_event request])%list in
        match bedrock_update_guardrail w request with
        | Raise _ => (Return (VStr "DRAFT"), t2)
        | Return _ =>
            let t3 := (t2 ++ [get_event guardrail_id])%list in
            match reply w guardrail_id (S (get_calls t)) with
            | Raise _ => (Return (VStr "DRAFT"), t3)
            | Return guardrail =>
                (Return (dict_get_default "status" (VStr "UNKNOWN") guardrail),
                 t3)
            end
        end
    end.
Proof.
  unfold activate_version, Run.try_except at 1, Run.bind at 1,
    client_get_guardrail.
  rewrite DeployRunProofs.client_get_guardrail_eq. cbv zeta.
  destruct (reply w guardrail_id (get_calls t)) as [current|e]; [|reflexivity].
  unfold Run.try_except, Run.bind at 1, Run.call, update_event.
  destruct (bedrock_update_guardrail w _) as [response|e]; [|reflexivity].
  unfold Run.bind. rewrite DeployRunProofs.client_get_guardrail_eq.
  replace (get_calls ((t ++ [get_event guardrail_id]) ++ _)%list)
    with (S (get_calls t)).
  2:{ unfold get_calls. rewrite !count_calls_app.
      change (count_calls "get_guardrail" [get_event guardrail_id]) with 1.
      cbn. lia. }
  destruct (reply w guardrail_id (S (get_calls t))) as [guardrail|e];
    [|reflexivity].
  unfold Run.ret. pose proof (reported_status guardrail version_id) as Hs.
  destruct (value_eqb _ _ && value_eqb _ _); [rewrite <- Hs|]; reflexivity.
Qed.

(** Cutting a version, step by step. *)
Lemma create_guardrail_version_from_config_run w guardrail_id description t :
  create_guardrail_version_from_config w guardrail_id description t
  = let t1 := (t ++ [get_event guardrail_id])%list in
    match reply w guardrail_id (get_calls t) with
    | Raise _ => (Return None, t1)
    | Return guardrail =>
        let request := version_request w guardrail_id description t in
        let t2 := (t1 ++ [create_version_call request])%list in
        match bedrock_create_guardrail_version w request with
        | Raise _ => (Return None, t2)
        | Return response =>
            match dict_get "version" response with
            | None => (Return None, t2)
            | Some version_id =>
                let (status, t3) :=
                  activate_version w guardrail_id
                    (name_of guardrail_id guardrail) version_id t2 in
                match status with
                | Return status =>
                    (Return (Some (report guardrail_id version_id status)), t3)
                | Raise _ => (Return None, t3)
                end
            end
        end
    end.
Proof.
  unfold create_guardrail_version_from_config, Run.try_except, Run.bind at 1,
    client_get_guardrail.
  rewrite DeployRunProofs.client_get_guardrail_eq. cbv zeta.
  destruct (reply w guardrail_id (get_calls t)) as [guardrail|e]; [|reflexivity].
  unfold Run.bind at 1, Run.ret at 1.
  replace (count_calls "create_guardrail_version" (t ++ [get_event guardrail_id])%list)
    with (count_calls "create_guardrail_version" t)
    by (rewrite count_calls_app; cbn; lia).
  fold (version_request w guardrail_id description t).
  unfold Run.bind at 1, Run.call, create_version_call.
  destruct (bedrock_create_guardrail_version w _) as [response|e];
    [|reflexivity].
  unfold Run.bind at 1, Run.lift, subscript.
  destruct (dict_get "version" response) as [version_id|]; [|reflexivity].
  unfold Run.bind, name_of.
  destruct (activate_version w guardrail_id _ version_id _) as [[status|e] t3];
    reflexivity.
Qed.

(** A version that was created is always reported, whatever happens to its
    activation; the status is DRAFT or a status that the service gave. *)
Theorem created_version_is_always_reported
    w guardrail_id description t guardrail response version_id :
  reply w guardrail_id (get_calls t) = Return guardrail ->
  bedrock_create_guardrail_version w
    (version_request w guardrail_id description t) = Return response ->
  dict_get "version" response = Some version_id ->
  exists status,
    fst (create_guardrail_version_from_config w guardrail_id description t)
    = Return (Some (report guardrail_id version_id status))
    /\ (status = VStr "DRAFT"
        \/ exists last,
             reply w guardrail_id (S (S (get_calls t))) = Return last
             /\ status = dict_get_default "status" (VStr "UNKNOWN") last).
Proof.
  intros Hr Hc Hv. rewrite create_guardrail_version_from_config_run. cbv zeta.
  rewrite Hr, Hc, Hv, activate_version_run. cbv zeta.
  replace (get_calls ((t ++ [get_event guardrail_id]) ++ _)%list)
    with (S (get_calls t)).
  2:{ unfold get_calls. rewrite !count_calls_app.
      change (count_calls "get_guardrail" [get_event guardrail_id]) with 1.
      cbn. lia. }
  destruct (reply w guardrail_id (S (get_calls t))) as [current|e];
    [|eexists; split; [reflexivity|now left]].
  destruct (bedrock_update_guardrail w _) as [answer|e];
    [|eexists; split; [reflexivity|now left]].
  destruct (reply w guardrail_id (S (S (get_calls t)))) as [last|e];
    [|eexists; split; [reflexivity|now left]].
  eexists. split; [reflexivity|]. right. now exists last.
Qed.

Lemma created_version_is_always_reported_witness :
  exists status,
    fst (create_guardrail_version_from_config VersioningFixtures.update_refused
           "gr-0001" None [])
    = Return (Some (report "gr-0001" (VStr "1") status))
    /\ (status = VStr "DRAFT"
        \/ exists last,
             reply VersioningFixtures.update_refused "gr-0001" 2 = Return last
             /\ status = dict_get_default "status" (VStr "UNKNOWN") last).
Proof.
  exact (created_version_is_always_reported VersioningFixtures.update_refused
           "gr-0001" None [] _ _ _ eq_refl eq_refl eq_refl).
Defined.

(** When the version is created and activated without an error, the five
    requests go out in this order and the status reported is the one of
    the last read, whichever version that read names. *)
Theorem reported_status_ignores_version
    w guardrail_id description t guardrail response version_id current answer
    last :
  let request := version_request w guardrail_id description t in
  let update :=
    update_params guardrail_id (name_of guardrail_id guardrail) version_id
      current in
  reply w guardrail_id (get_calls t) = Return guardrail ->
  bedrock_create_guardrail_version w request = Return response ->
  dict_get "version" response = Some version_id ->
  reply w guardrail_id (S (get_calls t)) = Return current ->
  bedrock_update_guardrail w update = Return answer ->
  reply w guardrail_id (S (S (get_calls t))) = Return last ->
  create_guardrail_version_from_config w guardrail_id description t
  = (Return (Some (report guardrail_id version_id
                     (dict_get_default "status" (VStr "UNKNOWN") last))),
     (t ++ [ get_event guardrail_id; create_version_call request;
             get_event guardrail_id; update_event update;
             get_event guardrail_id ])%list).
Proof.
  intros request update Hr Hc Hv Hcur Hu Hl.
  rewrite create_guardrail_version_from_config_run. cbv zeta.
  fold request. rewrite Hr, Hc, Hv, activate_version_run. cbv zeta.
  replace (get_calls ((t ++ [get_event guardrail_id]) ++ _)%list)
    with (S (get_calls t)).
  2:{ unfold get_calls. rewrite !count_calls_app.
      change (count_calls "get_guardrail" [get_event guardrail_id]) with 1.
      cbn. lia. }
  rewrite Hcur. fold update. rewrite Hu, Hl.
  now rewrite <- !app_assoc.
Qed.

Lemma reported_status_ignores_version_witness :
  exists request update,
    create_guardrail_version_from_config VersioningFixtures.pinned "gr-0001"
      None []
    = (Return (Some (report "gr-0001" (VStr "2") (VStr "ACTIVE"))),
       [ get_event "gr-0001"; create_version_call request;
         get_event "gr-0001"; update_event update; get_event "gr-0001" ]).
Proof.
  eexists. eexists.
  exact (reported_status_ignores_version VersioningFixtures.pinned "gr-0001"
           None [] _ _ _ _ _ _ eq_refl eq_refl eq_refl eq_refl eq_refl eq_refl).
Defined.

(** An activation that fails (the guardrail cannot be read again, or the
    update is refused, or the last read fails) leaves the report with the
    status DRAFT. *)
Theorem failed_activation_reports_draft
    w guardrail_id description t guardrail response version_id :
  reply w guardrail_id (get_calls t) = Return guardrail ->
  bedrock_create_guardrail_version w
    (version_request w guardrail_id description t) = Return response ->
  dict_get "version" response = Some version_id ->
  match reply w guardrail_id (S (get_calls t)) with
  | Raise _ => true
  | Return current =>
      is_raise (bedrock_update_guardrail w
                  (update_params guardrail_id (name_of guardrail_id guardrail)
                     version_id current))
      || is_raise (reply w guardrail_id (S (S (get_calls t))))
  end = true ->
  fst (create_guardrail_version_from_config w guardrail_id description t)
  = Return (Some (report guardrail_id version_id (VStr "DRAFT"))).
Proof.
  intros Hr Hc Hv Hf. rewrite create_guardrail_version_from_config_run. cbv zeta.
  rewrite Hr, Hc, Hv, activate_version_run. cbv zeta.
  replace (get_calls ((t ++ [get_event guardrail_id]) ++ _)%list)
    with (S (get_calls t)).
  2:{ unfold get_calls. rewrite !count_calls_app.
      change (count_calls "get_guardrail" [get_event guardrail_id]) with 1.
      cbn. lia. }
  destruct (reply w guardrail_id (S (get_calls t))) as [current|e];
    [|reflexivity].
  destruct (bedrock_update_guardrail w _) as [answer|e]; [|reflexivity].
  destruct (reply w guardrail_id (S (S (get_calls t)))) as [last|e];
    [discriminate|reflexivity].
Qed.

Lemma failed_activation_reports_draft_witness :
  fst (create_guardrail_version_from_config VersioningFixtures.update_refused
         "gr-0001" None [])
  = Return (Some (report "gr-0001" (VStr "1") (VStr "DRAFT"))).
Proof.
  exact (failed_activation_reports_draft VersioningFixtures.update_refused
           "gr-0001" None [] _ _ _ eq_refl eq_refl eq_refl eq_refl).
Defined.



(** The fields of the update request: the identifier, the name, the new
    version and the two blocked messages; of what the guardrail holds, the
    five listed fields and the two messages; nothing else, whatever the
    guardrail holds. *)
Theorem update_request_fields guardrail_id name version_id current field :
  dict_get field (update_params guardrail_id name version_id current)
  = if String.eqb field "guardrailIdentifier" then Some (VStr guardrail_id)
    else if String.eqb field "name" then Some name
    else if String.eqb field "version" then Some version_id
    else if String.eqb field "blockedInputMessaging"
      then Some (dict_get_default "blockedInputMessaging"
                   (VStr "I can't help with that request.") current)
    else if String.eqb field "blockedOutputsMessaging"
      then Some (dict_get_default "blockedOutputsMessaging"
                   (VStr "I can't provide that information.") current)
    else if string_in field optional_fields then dict_get field current
    else None.
Proof.
  unfold update_params. rewrite RequestProofs.copy_optional_get.
  destruct (String.eqb_spec field "guardrailIdentifier") as [->|H1];
    [reflexivity|].
  destruct (String.eqb_spec field "name") as [->|H2]; [reflexivity|].
  destruct (String.eqb_spec field "version") as [->|H3]; [reflexivity|].
  destruct (String.eqb_spec field "blockedInputMessaging") as [->|H4];
    [reflexivity|].
  destruct (String.eqb_spec field "blockedOutputsMessaging") as [->|H5];
    [reflexivity|].
  assert (E : dict_get field
                [ ("guardrailIdentifier", VStr guardrail_id); ("name", name);
                  ("version", version_id);
                  ("blockedInputMessaging",
                   dict_get_default "blockedInputMessaging"
                     (VStr "I can't help with that request.") current);
                  ("blockedOutputsMessaging",
                   dict_get_default "blockedOutputsMessaging"
                     (VStr "I can't provide that information.") current) ]
              = None).
  { cbn [dict_get].
    repeat match goal with
           | |- context [String.eqb ?a field] =>
               destruct (String.eqb_spec a field); [congruence|]
           end.
    reflexivity. }
  rewrite E.
  destruct (string_in field optional_fields); [|reflexivity].
  now destruct (dict_get field current).
Qed.

End VersioningProofs.
